(** * The video annotation pipeline of [app.py], embedded in Rocq

    The development follows the source file top-down:
    - Python values the pipeline manipulates: [str] as sequences of code
      points, [int] as [Z], [float] as IEEE-754 binary64 ([spec_float] with
      [prec = 53], [emax = 1024]), exceptions as a [result] type;
    - [VideoProcessor.extract_frames], [MetadataManager.format_duration];
    - the [json] module ([json.dumps] / [json.loads]) and UTF-8;
    - the calls to the remote services, threaded through a state monad;
    - [MetadataManager.create_metadata_df], the query entry points and
      [MetadataManager.export_metadata]. *)

From Stdlib Require Import ZArith NArith Lia List Bool String Ascii Sorted.
From Stdlib Require Import SpecFloat DecimalFacts DecimalPos DecimalN.
Import ListNotations.
Local Open Scope Z_scope.

(* ===================================================================== *)
(** * Python values *)
(* ===================================================================== *)

(** A Python [str] is a sequence of Unicode code points. *)
Definition str := list N.

(** An ASCII literal of the source, as a [str]. *)
Definition lit (s : string) : str := map N_of_ascii (list_ascii_of_string s).

(** [a == b] on strings *)
Fixpoint str_eqb (a b : str) : bool :=
  match a, b with
  | [], [] => true
  | x :: a', y :: b' => (x =? y)%N && str_eqb a' b'
  | _, _ => false
  end.

(** The exceptions the modelled code can raise: a class and the text that
    [str(e)] returns. *)
Inductive exn_kind :=
| ValueError
| OverflowError
| ZeroDivisionError
| KeyError
| TypeError
| UnicodeEncodeError
| AttributeError
| UnboundLocalError
| LengthFinishReasonError
| OtherException.

Inductive exn := Exn (kind : exn_kind) (msg : str).

Definition exn_str (e : exn) : str := let 'Exn _ msg := e in msg.
Definition exn_is (k : exn_kind) (e : exn) : bool :=
  let 'Exn k' _ := e in
  match k, k' with
  | ValueError, ValueError | OverflowError, OverflowError
  | ZeroDivisionError, ZeroDivisionError | KeyError, KeyError
  | TypeError, TypeError | UnicodeEncodeError, UnicodeEncodeError
  | AttributeError, AttributeError | UnboundLocalError, UnboundLocalError
  | LengthFinishReasonError, LengthFinishReasonError
  | OtherException, OtherException => true
  | _, _ => false
  end.

Inductive result (A : Type) :=
| Ok (a : A)
| Raise (e : exn).
Arguments Ok {A} a.
Arguments Raise {A} e.

Definition rbind {A B} (r : result A) (k : A -> result B) : result B :=
  match r with
  | Ok a => k a
  | Raise e => Raise e
  end.

Declare Scope result_scope.
Delimit Scope result_scope with result.
Notation "x <- r ;; k" := (rbind r (fun x => k))
  (at level 61, r at next level, right associativity) : result_scope.
Notation "' p <- r ;; k" := (rbind r (fun x => let p := x in k))
  (at level 61, p pattern, r at next level, right associativity) : result_scope.
Local Open Scope result_scope.

(* ===================================================================== *)
(** * Binary64 floats *)
(* ===================================================================== *)

Module F64.
Definition prec : Z := 53.
Definition emax : Z := 1024.

Definition float := spec_float.

Definition of_Z (z : Z) : float := binary_normalize prec emax z 0 false.
Definition add : float -> float -> float := SFadd prec emax.
Definition sub : float -> float -> float := SFsub prec emax.
Definition mul : float -> float -> float := SFmul prec emax.
Definition div : float -> float -> float := SFdiv prec emax.
Definition ltb : float -> float -> bool := SFltb.
Definition leb : float -> float -> bool := SFleb.
Definition eqb : float -> float -> bool := SFeqb.

Definition zero : float := S754_zero false.
Definition valid (x : float) : bool := valid_binary prec emax x.

Definition is_finite (x : float) : bool :=
  match x with
  | S754_zero _ | S754_finite _ _ _ => true
  | _ => false
  end.

(** The sign bit; a NaN counts as positive. *)
Definition signbit (x : float) : bool :=
  match x with
  | S754_zero s | S754_infinity s | S754_finite s _ _ => s
  | S754_nan => false
  end.

(** C's truth value of a double: [x != 0.0]. *)
Definition nonzero (x : float) : bool := negb (eqb x zero).

Definition copysign_zero (y : float) : float := S754_zero (signbit y).

(** The integer [floor] of the value of a finite float. *)
Definition floorZ (s : bool) (m : positive) (e : Z) : Z :=
  Z.shiftl (cond_Zopp s (Zpos m)) e.

(** The value rounded toward zero. *)
Definition truncZ (s : bool) (m : positive) (e : Z) : Z :=
  cond_Zopp s (Z.shiftl (Zpos m) e).

(** C's [floor]. *)
Definition floor (x : float) : float :=
  match x with
  | S754_finite s m e =>
      if 0 <=? e then x else binary_normalize prec emax (floorZ s m e) 0 s
  | _ => x
  end.

(** C's [fmod]: the exact remainder of [|x|] by [|y|], with the sign of
    [x]. *)
Definition fmod (x y : float) : float :=
  match x, y with
  | S754_nan, _ | _, S754_nan => S754_nan
  | S754_infinity _, _ => S754_nan
  | _, S754_zero _ => S754_nan
  | _, S754_infinity _ => x
  | S754_zero _, _ => x
  | S754_finite sx mx ex, S754_finite _ my ey =>
      let e := Z.min ex ey in
      let r := Z.modulo (Z.shiftl (Zpos mx) (ex - e)) (Z.shiftl (Zpos my) (ey - e)) in
      binary_normalize prec emax (cond_Zopp sx r) e sx
  end.

(** A decimal constant [n / d], correctly rounded. *)
Definition ratio (n d : Z) : float := div (of_Z n) (of_Z d).

(** Finite floats of magnitude below [2 ^ k]. *)
Definition mag (k : Z) (x : float) : Prop :=
  match x with
  | S754_zero _ => True
  | S754_finite _ m e => Z.pos (digits2_pos m) + e <= k /\ e <= emax - prec
  | _ => False
  end.

(** Finite floats with sign bit [s]. *)
Definition signed (s : bool) (x : float) : Prop :=
  match x with
  | S754_zero s' | S754_finite s' _ _ => s' = s
  | _ => False
  end.

(** Finite floats no larger in magnitude than the float [(mb, eb)]. *)
Definition below (mb : positive) (eb : Z) (x : float) : Prop :=
  match x with
  | S754_zero _ => True
  | S754_finite _ m e => e <= eb /\ Z.pos m <= Z.pos mb * 2 ^ (eb - e)
  | _ => False
  end.
End F64.

Abbreviation float := F64.float.

(* ===================================================================== *)
(** * Python numbers *)
(* ===================================================================== *)

(** [float(z)] for an [int]: correctly rounded, [OverflowError] beyond the
    binary64 range. *)
Definition py_float_of_int (z : Z) : result float :=
  match F64.of_Z z with
  | S754_infinity _ =>
      Raise (Exn OverflowError (lit "int too large to convert to float"))
  | f => Ok f
  end.

(** [int(x)] for a [float]: truncation toward zero. *)
Definition py_int_of_float (x : float) : result Z :=
  match x with
  | S754_nan => Raise (Exn ValueError (lit "cannot convert float NaN to integer"))
  | S754_infinity _ =>
      Raise (Exn OverflowError (lit "cannot convert float infinity to integer"))
  | S754_zero _ => Ok 0
  | S754_finite s m e => Ok (F64.truncZ s m e)
  end.

(** CPython's [_float_div_mod]: the pair (floordiv, mod). *)
Definition float_div_mod (vx wx : float) : float * float :=
  let md := F64.fmod vx wx in
  let dv := F64.div (F64.sub vx md) wx in
  let '(md, dv) :=
    if F64.nonzero md then
      if xorb (F64.ltb wx F64.zero) (F64.ltb md F64.zero)
      then (F64.add md wx, F64.sub dv (F64.of_Z 1))
      else (md, dv)
    else (F64.copysign_zero wx, dv) in
  let floordiv :=
    if F64.nonzero dv then
      let fl := F64.floor dv in
      if F64.ltb (F64.ratio 1 2) (F64.sub dv fl) then F64.add fl (F64.of_Z 1) else fl
    else F64.copysign_zero (F64.div vx wx) in
  (floordiv, md).

(** [vx // wx] on floats. *)
Definition py_float_floordiv (vx wx : float) : result float :=
  if F64.eqb wx F64.zero
  then Raise (Exn ZeroDivisionError (lit "float floor division by zero"))
  else Ok (fst (float_div_mod vx wx)).

(** [vx % wx] on floats (CPython's [float_rem]). *)
Definition py_float_mod (vx wx : float) : result float :=
  if F64.eqb wx F64.zero then Raise (Exn ZeroDivisionError (lit "float modulo"))
  else
    let md := F64.fmod vx wx in
    Ok (if F64.nonzero md then
          if xorb (F64.ltb wx F64.zero) (F64.ltb md F64.zero)
          then F64.add md wx else md
        else F64.copysign_zero wx).

(** [vx / wx] on floats. *)
Definition py_float_truediv (vx wx : float) : result float :=
  if F64.eqb wx F64.zero
  then Raise (Exn ZeroDivisionError (lit "float division by zero"))
  else Ok (F64.div vx wx).

(** A Python number: an [int] or a [float]. *)
Inductive pynum :=
| PyInt (z : Z)
| PyFloat (x : float).

Definition to_float (a : pynum) : result float :=
  match a with
  | PyInt z => py_float_of_int z
  | PyFloat x => Ok x
  end.

Definition py_floordiv (a b : pynum) : result pynum :=
  match a, b with
  | PyInt x, PyInt y =>
      if y =? 0
      then Raise (Exn ZeroDivisionError (lit "integer division or modulo by zero"))
      else Ok (PyInt (x / y))
  | _, _ =>
      x <- to_float a ;; y <- to_float b ;;
      q <- py_float_floordiv x y ;; Ok (PyFloat q)
  end.

Definition py_mod (a b : pynum) : result pynum :=
  match a, b with
  | PyInt x, PyInt y =>
      if y =? 0
      then Raise (Exn ZeroDivisionError (lit "integer modulo by zero"))
      else Ok (PyInt (x mod y))
  | _, _ =>
      x <- to_float a ;; y <- to_float b ;;
      r <- py_float_mod x y ;; Ok (PyFloat r)
  end.

Definition py_mul (a b : pynum) : result pynum :=
  match a, b with
  | PyInt x, PyInt y => Ok (PyInt (x * y))
  | _, _ => x <- to_float a ;; y <- to_float b ;; Ok (PyFloat (F64.mul x y))
  end.

(** An [int] as an unrounded binary float, the operand of a correctly
    rounded division. *)
Definition raw_of_Z (z : Z) : float :=
  match z with
  | Z0 => S754_zero false
  | Zpos p => S754_finite false p 0
  | Zneg p => S754_finite true p 0
  end.

(** [x / y] on ints: the correctly rounded quotient. *)
Definition py_int_truediv (x y : Z) : result float :=
  if y =? 0 then Raise (Exn ZeroDivisionError (lit "division by zero"))
  else
    match F64.div (raw_of_Z x) (raw_of_Z y) with
    | S754_infinity _ =>
        Raise (Exn OverflowError (lit "integer division result too large for a float"))
    | q => Ok q
    end.

Definition py_truediv (a b : pynum) : result float :=
  match a, b with
  | PyInt x, PyInt y => py_int_truediv x y
  | _, _ => x <- to_float a ;; y <- to_float b ;; py_float_truediv x y
  end.

Definition py_int (a : pynum) : result Z :=
  match a with
  | PyInt z => Ok z
  | PyFloat x => py_int_of_float x
  end.

(* ===================================================================== *)
(** * Decimal text of integers *)
(* ===================================================================== *)

Fixpoint str_of_uint (d : Decimal.uint) : str :=
  match d with
  | Decimal.Nil => []
  | Decimal.D0 d => 48%N :: str_of_uint d
  | Decimal.D1 d => 49%N :: str_of_uint d
  | Decimal.D2 d => 50%N :: str_of_uint d
  | Decimal.D3 d => 51%N :: str_of_uint d
  | Decimal.D4 d => 52%N :: str_of_uint d
  | Decimal.D5 d => 53%N :: str_of_uint d
  | Decimal.D6 d => 54%N :: str_of_uint d
  | Decimal.D7 d => 55%N :: str_of_uint d
  | Decimal.D8 d => 56%N :: str_of_uint d
  | Decimal.D9 d => 57%N :: str_of_uint d
  end.

(** [str(n)] for a non-negative [int]. *)
Definition str_of_N (n : N) : str := str_of_uint (N.to_uint n).

(** [str(z)] for an [int]. *)
Definition str_of_Z (z : Z) : str :=
  match z with
  | Zneg p => 45%N :: str_of_N (Npos p)
  | _ => str_of_N (Z.to_N z)
  end.

(** The format specification [02d]: at least two characters, padded with
    zeros after the sign. *)
Definition format_02d (z : Z) : str :=
  match z with
  | Zneg p => 45%N :: str_of_N (Npos p)
  | _ =>
      let d := str_of_N (Z.to_N z) in
      match d with
      | [c] => [48%N; c]
      | _ => d
      end
  end.

(* ===================================================================== *)
(** * [MetadataManager.format_duration] *)
(* ===================================================================== *)

Definition colon : str := [58%N].

Definition format_duration (seconds : pynum) : result str :=
  h <- py_floordiv seconds (PyInt 3600) ;;
  hours <- py_int h ;;
  m <- py_mod seconds (PyInt 3600) ;;
  m <- py_floordiv m (PyInt 60) ;;
  minutes <- py_int m ;;
  s <- py_mod seconds (PyInt 60) ;;
  secs <- py_int s ;;
  f <- py_mod seconds (PyInt 1) ;;
  f <- py_mul f (PyInt 24) ;;
  frames <- py_int f ;;
  Ok (format_02d hours ++ colon ++ format_02d minutes ++ colon
      ++ format_02d secs ++ colon ++ format_02d frames).

(** [math.floor] *)
Definition py_floor (a : pynum) : result Z :=
  match a with
  | PyInt z => Ok z
  | PyFloat S754_nan =>
      Raise (Exn ValueError (lit "cannot convert float NaN to integer"))
  | PyFloat (S754_infinity _) =>
      Raise (Exn OverflowError (lit "cannot convert float infinity to integer"))
  | PyFloat (S754_zero _) => Ok 0
  | PyFloat (S754_finite s m e) => Ok (F64.floorZ s m e)
  end.

(** The sub-second field as the specification words it:
    [floor((seconds mod 1) * 24)]. *)
Definition subsecond_frames (seconds : pynum) : result Z :=
  f <- py_mod seconds (PyInt 1) ;;
  p <- py_mul f (PyInt 24) ;;
  py_floor p.

(** A duration: a non-negative [int], or a finite non-negative [float]. *)
Definition nonneg_duration (seconds : pynum) : Prop :=
  match seconds with
  | PyInt z => 0 <= z
  | PyFloat x =>
      F64.valid x = true /\ F64.is_finite x = true /\ F64.leb F64.zero x = true
  end.

(* ===================================================================== *)
(** * Strings *)
(* ===================================================================== *)

(** [str.isspace] on one code point. *)
Definition is_space (c : N) : bool :=
  (existsb (N.eqb c)
     [9; 10; 11; 12; 13; 28; 29; 30; 31; 32; 133; 160; 5760; 8232; 8233;
      8239; 8287; 12288]
   || ((8192 <=? c) && (c <=? 8202)))%N.

Fixpoint lstrip (s : str) : str :=
  match s with
  | c :: r => if is_space c then lstrip r else s
  | [] => []
  end.

(** [s.strip()] *)
Definition py_strip (s : str) : str := rev (lstrip (rev (lstrip s))).

(** [s[-n:]] and [s[:n]] *)
Definition last_chars (n : nat) (s : str) : str := skipn (List.length s - n) s.
Definition first_chars (n : nat) (s : str) : str := firstn n s.

Definition is_digit (c : N) : bool := ((48 <=? c) && (c <=? 57))%N.

Fixpoint uint_of_str (s : str) : option Decimal.uint :=
  match s with
  | [] => Some Decimal.Nil
  | c :: r =>
      match uint_of_str r with
      | None => None
      | Some d =>
          match c with
          | 48 => Some (Decimal.D0 d) | 49 => Some (Decimal.D1 d)
          | 50 => Some (Decimal.D2 d) | 51 => Some (Decimal.D3 d)
          | 52 => Some (Decimal.D4 d) | 53 => Some (Decimal.D5 d)
          | 54 => Some (Decimal.D6 d) | 55 => Some (Decimal.D7 d)
          | 56 => Some (Decimal.D8 d) | 57 => Some (Decimal.D9 d)
          | _ => None
          end%N
      end
  end.

(** [int(s)] on an optional sign followed by decimal digits. *)
Definition py_int_of_str (s : str) : result Z :=
  let bad := Raise (Exn ValueError (lit "invalid literal for int() with base 10")) in
  let digits (neg : bool) (r : str) :=
    match r, uint_of_str r with
    | _ :: _, Some d => Ok (cond_Zopp neg (Z.of_N (N.of_uint d)))
    | _, _ => bad
    end in
  match s with
  | c :: r =>
      if (c =? 45)%N then digits true r
      else if (c =? 43)%N then digits false r
      else digits false s
  | [] => bad
  end.

(** Four lowercase hexadecimal digits, as in the escape [\uXXXX]. *)
Definition hex_digit (n : N) : N := (if n <? 10 then 48 + n else 87 + n)%N.

Definition hex4 (n : N) : str :=
  [hex_digit (n / 4096 mod 16); hex_digit (n / 256 mod 16);
   hex_digit (n / 16 mod 16); hex_digit (n mod 16)]%N.

Definition hex_value (c : N) : option N :=
  (if (48 <=? c) && (c <=? 57) then Some (c - 48)
   else if (97 <=? c) && (c <=? 102) then Some (c - 87)
   else if (65 <=? c) && (c <=? 70) then Some (c - 55)
   else None)%N.

Definition unhex4 (a b c d : N) : option N :=
  match hex_value a, hex_value b, hex_value c, hex_value d with
  | Some x, Some y, Some z, Some w => Some (x * 4096 + y * 256 + z * 16 + w)%N
  | _, _, _, _ => None
  end.

Definition is_high_surrogate (c : N) : bool := ((55296 <=? c) && (c <=? 56319))%N.
Definition is_low_surrogate (c : N) : bool := ((56320 <=? c) && (c <=? 57343))%N.
Definition is_surrogate (c : N) : bool := ((55296 <=? c) && (c <=? 57343))%N.

(** A Unicode scalar value: a code point that is not a surrogate. *)
Definition is_scalar (c : N) : bool := ((c <? 1114112) && negb (is_surrogate c))%N.

(** Text that UTF-8 can encode. *)
Definition scalar_str (s : str) : bool := forallb is_scalar s.

(* ===================================================================== *)
(** * UTF-8 *)
(* ===================================================================== *)

Definition bytes := list Byte.byte.

Definition byte_of_N (n : N) : Byte.byte :=
  match Byte.of_N n with
  | Some b => b
  | None => Byte.x00
  end.

Definition utf8_encode_char (c : N) : option (list N) :=
  (if c <? 128 then Some [c]
   else if c <? 2048 then Some [192 + c / 64; 128 + c mod 64]
   else if is_surrogate c then None
   else if c <? 65536 then Some [224 + c / 4096; 128 + c / 64 mod 64; 128 + c mod 64]
   else if c <? 1114112 then
     Some [240 + c / 262144; 128 + c / 4096 mod 64; 128 + c / 64 mod 64; 128 + c mod 64]
   else None)%N.

Fixpoint utf8_encode_N (s : str) : option (list N) :=
  match s with
  | [] => Some []
  | c :: r =>
      match utf8_encode_char c, utf8_encode_N r with
      | Some b, Some br => Some (b ++ br)
      | _, _ => None
      end
  end.

(** [s.encode('utf-8')] *)
Definition utf8_encode (s : str) : result bytes :=
  match utf8_encode_N s with
  | Some b => Ok (map byte_of_N b)
  | None =>
      Raise (Exn UnicodeEncodeError (lit "'utf-8' codec can't encode character: surrogates not allowed"))
  end.

Definition is_cont (b : N) : bool := ((128 <=? b) && (b <=? 191))%N.

(** The decoder reads one character at a time; encoded surrogates are let
    through, as with the error handler [surrogatepass]. *)
Fixpoint utf8_decode_N (b : list N) : option str :=
  match b with
  | [] => Some []
  | b0 :: r =>
      (if b0 <? 128 then option_map (cons b0) (utf8_decode_N r)
       else if (194 <=? b0) && (b0 <=? 223) then
         match r with
         | b1 :: r1 =>
             if is_cont b1
             then option_map (cons ((b0 - 192) * 64 + (b1 - 128))) (utf8_decode_N r1)
             else None
         | _ => None
         end
       else if (224 <=? b0) && (b0 <=? 239) then
         match r with
         | b1 :: b2 :: r2 =>
             let c := (b0 - 224) * 4096 + (b1 - 128) * 64 + (b2 - 128) in
             if is_cont b1 && is_cont b2 && (2048 <=? c)
             then option_map (cons c) (utf8_decode_N r2)
             else None
         | _ => None
         end
       else if (240 <=? b0) && (b0 <=? 244) then
         match r with
         | b1 :: b2 :: b3 :: r3 =>
             let c := (b0 - 240) * 262144 + (b1 - 128) * 4096
                      + (b2 - 128) * 64 + (b3 - 128) in
             if is_cont b1 && is_cont b2 && is_cont b3
                && (65536 <=? c) && (c <? 1114112)
             then option_map (cons c) (utf8_decode_N r3)
             else None
         | _ => None
         end
       else None)%N
  end.

Definition utf8_decode (b : bytes) : option str := utf8_decode_N (map Byte.to_N b).

(* ===================================================================== *)
(** * Python objects that [json] can serialise *)
(* ===================================================================== *)

#[local] Set Warnings "-register-all".
Inductive value :=
| VNone
| VBool (b : bool)
| VInt (z : Z)
| VFloat (x : float)
| VStr (s : str)
| VList (l : list value)
| VDict (d : list (str * value)).

(** A [dict] keeps its keys in insertion order; assigning to a key that is
    present replaces the value in place. *)
Fixpoint dict_set (k : str) (v : value) (d : list (str * value)) : list (str * value) :=
  match d with
  | [] => [(k, v)]
  | (k', v') :: r =>
      if str_eqb k k' then (k', v) :: r else (k', v') :: dict_set k v r
  end.

Fixpoint dict_get (k : str) (d : list (str * value)) : option value :=
  match d with
  | [] => None
  | (k', v) :: r => if str_eqb k k' then Some v else dict_get k r
  end.

Definition dict_keys (d : list (str * value)) : list str := map fst d.

(** [dict(pairs)] *)
Definition dict_of_pairs (pairs : list (str * value)) : list (str * value) :=
  fold_left (fun d kv => dict_set (fst kv) (snd kv) d) pairs [].

(** [obj[key]] *)
Definition subscript (obj : value) (key : str) : result value :=
  match obj with
  | VDict d =>
      match dict_get key d with
      | Some v => Ok v
      | None => Raise (Exn KeyError key)
      end
  | _ => Raise (Exn TypeError (lit "object is not subscriptable with a str key"))
  end.

Fixpoint nodupb (l : list str) : bool :=
  match l with
  | [] => true
  | a :: r => negb (existsb (str_eqb a) r) && nodupb r
  end.

(** The values whose floats satisfy [float_ok], whose text has no lone
    surrogate and whose dicts have distinct keys. *)
Fixpoint wf_value_with (float_ok : float -> bool) (v : value) : bool :=
  match v with
  | VFloat x => float_ok x
  | VStr s => scalar_str s
  | VList l => forallb (wf_value_with float_ok) l
  | VDict d =>
      nodupb (map fst d)
      && forallb (fun kv => scalar_str (fst kv) && wf_value_with float_ok (snd kv)) d
  | _ => true
  end.

(** The values Python itself can hold and UTF-8 can carry: floats are
    binary64 numbers. *)
Definition wf_value : value -> bool := wf_value_with F64.valid.

(** The same, without any float. *)
Definition float_free : value -> bool := wf_value_with (fun _ => false).

(* ===================================================================== *)
(** * The collaborators of the pipeline *)
(* ===================================================================== *)

(** What [cv2.VideoCapture(path)] gives access to: whether the container
    opened, the two properties the sampler reads, and the frames that
    [cap.read()] decodes, in order. *)
Record VideoCapture (image : Type) := {
  isOpened : bool;
  CAP_PROP_FPS : float;
  CAP_PROP_FRAME_COUNT : float;
  decoded : list image
}.
Arguments isOpened {image} _.
Arguments CAP_PROP_FPS {image} _.
Arguments CAP_PROP_FRAME_COUNT {image} _.
Arguments decoded {image} _.

(** The pydantic model [FrameAnalysis]. *)
Record FrameAnalysis := {
  description : str;
  objects_detected : list str;
  scene_type : str
}.

(** The pydantic model [QueryResponse]. *)
Record QueryResponse := {
  answer : str;
  relevant_timestamps : list str;
  confidence : float
}.

(** A segment of a verbose transcription, and the transcription. *)
Record Segment := {
  seg_start : float;
  seg_end : float;
  seg_text : str
}.

Record Transcript := {
  transcript_text : str;
  transcript_segments : list Segment
}.

(** The two messages of a chat completion request. *)
Record ChatRequest := {
  system_content : str;
  user_content : str
}.

(** A row of [metadata_df]. *)
Record Row := {
  row_frame_number : Z;
  row_timestamp : float;
  row_formatted_time : str;
  row_frame_description : value;
  row_objects_detected : value;
  row_scene_type : value
}.

Definition DataFrame := list Row.

(** What [export_metadata] returns: [bytes] or [str]. *)
Inductive exported :=
| ExportBytes (b : bytes)
| ExportText (s : str).

(** The environment: OpenCV's codecs, Python's conversions between floats
    and text, and the outside world (clock, identifiers, files, remote
    services), whose state is threaded through every call. *)
Class Env := {
  image : Type;
  cvtColor_BGR2RGB : image -> image;
  imencode_jpg_b64 : image -> str;

  float_repr : float -> str;
  float_of_str : str -> float;
  format_2f : float -> str;

  world : Type;
  video : Type;
  cv2_VideoCapture : video -> VideoCapture image;
  time_time : world -> Z * world;
  uuid4 : world -> str * world;
  chat_completions_create : ChatRequest -> world -> result (option str) * world;
  chat_completions_parse_frame : str -> float -> world -> result FrameAnalysis * world;
  chat_completions_parse_query : str -> world -> result QueryResponse * world;
  write_audiofile : video -> world -> result bytes * world;
  transcriptions_create : bytes -> world -> result Transcript * world;
  NamedTemporaryFile : world -> result str * world;
  file_write : str -> bytes -> world -> result unit * world;
  file_close : str -> world -> result unit * world;
  os_path_exists : str -> world -> bool * world;
  os_unlink : str -> world -> result unit * world;
  files_create : str -> world -> result str * world;
  assistants_create : str -> world -> result str * world;
  assistant_run : str -> str -> world -> str * world;
  to_csv : DataFrame -> str;
  to_excel : DataFrame -> option value -> bytes
}.

(** Computations that talk to the outside world. *)
Definition M {E : Env} (A : Type) : Type := world -> A * world.

Definition ret {E : Env} {A} (a : A) : M A := fun w => (a, w).

Definition bind {E : Env} {A B} (m : M A) (k : A -> M B) : M B :=
  fun w => let '(a, w') := m w in k a w'.

Declare Scope io_scope.
Delimit Scope io_scope with io.
Notation "x <-- m ;; k" := (bind m (fun x => k))
  (at level 61, m at next level, right associativity) : io_scope.

Section Model.
Context {E : Env}.

(* ===================================================================== *)
(** * [json.dumps] *)
(* ===================================================================== *)

(** The replacement of one character inside a string literal.  With
    [ensure_ascii], everything outside [' '..'~'] is escaped; without it,
    only the quote, the backslash and the control characters are. *)
Definition escape_char (ensure_ascii : bool) (c : N) : str :=
  (if c =? 34 then [92; 34]
   else if c =? 92 then lit "\\"
   else if c =? 10 then lit "\n"
   else if c =? 13 then lit "\r"
   else if c =? 9 then lit "\t"
   else if c =? 8 then lit "\b"
   else if c =? 12 then lit "\f"
   else if c <? 32 then lit "\u" ++ hex4 c
   else if negb ensure_ascii || (c <? 127) then [c]
   else if c <? 65536 then lit "\u" ++ hex4 c
   else
     let v := c - 65536 in
     lit "\u" ++ hex4 (55296 + (v / 1024) mod 1024)
     ++ lit "\u" ++ hex4 (56320 + v mod 1024))%N.

Definition encode_str (ensure_ascii : bool) (s : str) : str :=
  [34%N] ++ flat_map (escape_char ensure_ascii) s ++ [34%N].

(** The text of a float: [float.__repr__], except for the three values
    JSON has no literal for. *)
Definition encode_float (x : float) : str :=
  match x with
  | S754_nan => lit "NaN"
  | S754_infinity false => lit "Infinity"
  | S754_infinity true => lit "-Infinity"
  | _ => float_repr x
  end.

(** A line break followed by the indentation of [level], when an indent is
    requested. *)
Definition newline_indent (indent : option nat) (level : nat) : str :=
  match indent with
  | None => []
  | Some n => 10%N :: repeat 32%N (n * level)
  end.

Definition item_separator (indent : option nat) : str :=
  match indent with
  | None => lit ", "
  | Some _ => lit ","
  end.

Definition key_separator : str := lit ": ".

Fixpoint encode (ensure_ascii : bool) (indent : option nat) (level : nat) (v : value) : str :=
  match v with
  | VNone => lit "null"
  | VBool true => lit "true"
  | VBool false => lit "false"
  | VInt z => str_of_Z z
  | VFloat x => encode_float x
  | VStr s => encode_str ensure_ascii s
  | VList [] => lit "[]"
  | VList (x :: xs) =>
      lit "[" ++ newline_indent indent (S level)
      ++ encode ensure_ascii indent (S level) x
      ++ (fix items (l : list value) : str :=
            match l with
            | [] => []
            | y :: r =>
                item_separator indent ++ newline_indent indent (S level)
                ++ encode ensure_ascii indent (S level) y ++ items r
            end) xs
      ++ newline_indent indent level ++ lit "]"
  | VDict [] => lit "{}"
  | VDict ((k, x) :: kvs) =>
      lit "{" ++ newline_indent indent (S level)
      ++ encode_str ensure_ascii k ++ key_separator
      ++ encode ensure_ascii indent (S level) x
      ++ (fix items (l : list (str * value)) : str :=
            match l with
            | [] => []
            | (k', y) :: r =>
                item_separator indent ++ newline_indent indent (S level)
                ++ encode_str ensure_ascii k' ++ key_separator
                ++ encode ensure_ascii indent (S level) y ++ items r
            end) kvs
      ++ newline_indent indent level ++ lit "}"
  end.

(** The items of a non-empty list after the first one, and the pairs of a
    non-empty dict after the first one, as [encode] writes them. *)
Definition encode_items (ensure_ascii : bool) (indent : option nat) (level : nat)
  : list value -> str :=
  fix items (l : list value) : str :=
    match l with
    | [] => []
    | y :: r =>
        item_separator indent ++ newline_indent indent (S level)
        ++ encode ensure_ascii indent (S level) y ++ items r
    end.

Definition encode_pairs (ensure_ascii : bool) (indent : option nat) (level : nat)
  : list (str * value) -> str :=
  fix items (l : list (str * value)) : str :=
    match l with
    | [] => []
    | (k', y) :: r =>
        item_separator indent ++ newline_indent indent (S level)
        ++ encode_str ensure_ascii k' ++ key_separator
        ++ encode ensure_ascii indent (S level) y ++ items r
    end.

(** [json.dumps(obj, ensure_ascii=..., indent=...)] *)
Definition json_dumps (ensure_ascii : bool) (indent : option nat) (obj : value) : str :=
  encode ensure_ascii indent 0 obj.

(* ===================================================================== *)
(** * [json.loads] *)
(* ===================================================================== *)

Definition is_ws (c : N) : bool :=
  ((c =? 32) || (c =? 9) || (c =? 10) || (c =? 13))%N.

Fixpoint skip_ws (s : str) : str :=
  match s with
  | c :: r => if is_ws c then skip_ws r else s
  | [] => []
  end.

(** The body of a string literal, after the opening quote: the decoded
    text and what follows the closing quote. *)
Fixpoint scan_string (s : str) : option (str * str) :=
  match s with
  | [] => None
  | c :: r =>
      if (c =? 34)%N then Some ([], r)
      else if (c =? 92)%N then
        match r with
        | [] => None
        | e :: r1 =>
            let simple (ch : N) :=
              option_map (fun p => (ch :: fst p, snd p)) (scan_string r1) in
            if (e =? 34)%N then simple 34%N
            else if (e =? 92)%N then simple 92%N
            else if (e =? 47)%N then simple 47%N
            else if (e =? 98)%N then simple 8%N
            else if (e =? 102)%N then simple 12%N
            else if (e =? 110)%N then simple 10%N
            else if (e =? 114)%N then simple 13%N
            else if (e =? 116)%N then simple 9%N
            else if (e =? 117)%N then
              match r1 with
              | h1 :: h2 :: h3 :: h4 :: r2 =>
                  match unhex4 h1 h2 h3 h4 with
                  | None => None
                  | Some u =>
                      let single :=
                        option_map (fun p => (u :: fst p, snd p)) (scan_string r2) in
                      if is_high_surrogate u then
                        match r2 with
                        | b :: l :: g1 :: g2 :: g3 :: g4 :: r3 =>
                            if ((b =? 92) && (l =? 117))%N then
                              match unhex4 g1 g2 g3 g4 with
                              | None => None
                              | Some u2 =>
                                  if is_low_surrogate u2 then
                                    option_map
                                      (fun p =>
                                         ((65536 + N.lor (N.shiftl (u - 55296) 10) (u2 - 56320))%N
                                            :: fst p, snd p))
                                      (scan_string r3)
                                  else single
                              end
                            else single
                        | b :: l :: _ =>
                            if ((b =? 92) && (l =? 117))%N then None else single
                        | _ => single
                        end
                      else single
                  end
              | _ => None
              end
            else None
        end
      else if (c <? 32)%N then None
      else option_map (fun p => (c :: fst p, snd p)) (scan_string r)
  end.

Fixpoint span_digits (s : str) : str * str :=
  match s with
  | c :: r =>
      if is_digit c then let '(d, rest) := span_digits r in (c :: d, rest)
      else ([], s)
  | [] => ([], [])
  end.

(** The number pattern of the scanner: an optional minus sign, then a zero
    or a non-zero digit followed by digits, then an optional fraction (a dot
    and at least one digit), then an optional exponent ([e] or [E], an
    optional sign and at least one digit).  The result is the matched text,
    whether it has a fraction or an exponent, and the rest. *)
Definition scan_integer (s : str) : option (str * str) :=
  match s with
  | c :: r =>
      if (c =? 48)%N then Some ([c], r)
      else if is_digit c then let '(d, rest) := span_digits r in Some (c :: d, rest)
      else None
  | [] => None
  end.

Definition scan_fraction (s : str) : str * str :=
  match s with
  | dot :: d :: r =>
      if ((dot =? 46)%N && is_digit d)%bool
      then let '(ds, rest) := span_digits r in (dot :: d :: ds, rest)
      else ([], s)
  | _ => ([], s)
  end.

Definition scan_exponent (s : str) : str * str :=
  match s with
  | e :: r =>
      if ((e =? 101) || (e =? 69))%N then
        let '(sg, r1) :=
          match r with
          | c :: r' => if ((c =? 43) || (c =? 45))%N then ([c], r') else ([], r)
          | [] => ([], r)
          end in
        match r1 with
        | d :: r2 =>
            if is_digit d
            then let '(ds, rest) := span_digits r2 in (e :: sg ++ d :: ds, rest)
            else ([], s)
        | [] => ([], s)
        end
      else ([], s)
  | [] => ([], s)
  end.

Definition scan_sign (s : str) : str * str :=
  match s with
  | c :: r => if (c =? 45)%N then ([c], r) else ([], s)
  | [] => ([], s)
  end.

Definition scan_number (s : str) : option (str * bool * str) :=
  let '(sign, s1) := scan_sign s in
  match scan_integer s1 with
  | None => None
  | Some (ipart, s2) =>
      let '(frac, s3) := scan_fraction s2 in
      let '(expo, s4) := scan_exponent s3 in
      Some (sign ++ ipart ++ frac ++ expo,
            match frac, expo with [], [] => false | _, _ => true end,
            s4)
  end.

Definition starts_with (p s : str) : option str :=
  if str_eqb (firstn (List.length p) s) p then Some (skipn (List.length p) s) else None.

(** The recursive scanner.  [fuel] bounds the nesting and the number of
    items; [json_loads] supplies more than any text can use. *)
Fixpoint parse_value (fuel : nat) (s : str) : option (value * str) :=
  match fuel with
  | O => None
  | S fuel' =>
      match s with
      | [] => None
      | c :: r =>
          if (c =? 34)%N then
            option_map (fun p => (VStr (fst p), snd p)) (scan_string r)
          else if (c =? 123)%N then
            match skip_ws r with
            | c1 :: r1 =>
                if (c1 =? 125)%N then Some (VDict [], r1)
                else option_map (fun p => (VDict (dict_of_pairs (fst p)), snd p))
                                (parse_pairs fuel' (c1 :: r1))
            | [] => None
            end
          else if (c =? 91)%N then
            match skip_ws r with
            | c1 :: r1 =>
                if (c1 =? 93)%N then Some (VList [], r1)
                else option_map (fun p => (VList (fst p), snd p))
                                (parse_items fuel' (c1 :: r1))
            | [] => None
            end
          else
            match starts_with (lit "null") s, starts_with (lit "true") s,
                  starts_with (lit "false") s with
            | Some r1, _, _ => Some (VNone, r1)
            | _, Some r1, _ => Some (VBool true, r1)
            | _, _, Some r1 => Some (VBool false, r1)
            | _, _, _ =>
                match scan_number s with
                | Some (text, true, r1) => Some (VFloat (float_of_str text), r1)
                | Some (text, false, r1) =>
                    match py_int_of_str text with
                    | Ok z => Some (VInt z, r1)
                    | Raise _ => None
                    end
                | None =>
                    match starts_with (lit "NaN") s, starts_with (lit "Infinity") s,
                          starts_with (lit "-Infinity") s with
                    | Some r1, _, _ => Some (VFloat S754_nan, r1)
                    | _, Some r1, _ => Some (VFloat (S754_infinity false), r1)
                    | _, _, Some r1 => Some (VFloat (S754_infinity true), r1)
                    | _, _, _ => None
                    end
                end
            end
      end
  end
(** The items of an array, from the first item to the closing bracket. *)
with parse_items (fuel : nat) (s : str) : option (list value * str) :=
  match fuel with
  | O => None
  | S fuel' =>
      match parse_value fuel' s with
      | None => None
      | Some (v, r) =>
          match skip_ws r with
          | c :: r1 =>
              if (c =? 44)%N then
                option_map (fun p => (v :: fst p, snd p))
                           (parse_items fuel' (skip_ws r1))
              else if (c =? 93)%N then Some ([v], r1)
              else None
          | [] => None
          end
      end
  end
(** The pairs of an object, from the first key to the closing brace. *)
with parse_pairs (fuel : nat) (s : str) : option (list (str * value) * str) :=
  match fuel with
  | O => None
  | S fuel' =>
      match s with
      | q :: r =>
          if (q =? 34)%N then
            match scan_string r with
            | None => None
            | Some (k, r1) =>
                match skip_ws r1 with
                | c :: r2 =>
                    if (c =? 58)%N then
                      match parse_value fuel' (skip_ws r2) with
                      | None => None
                      | Some (v, r3) =>
                          match skip_ws r3 with
                          | c' :: r4 =>
                              if (c' =? 44)%N then
                                option_map (fun p => ((k, v) :: fst p, snd p))
                                           (parse_pairs fuel' (skip_ws r4))
                              else if (c' =? 125)%N then Some ([(k, v)], r4)
                              else None
                          | [] => None
                          end
                      end
                    else None
                | [] => None
                end
            end
          else None
      | [] => None
      end
  end.

(** [json.loads(s)] for a [str]: one value, surrounded by white space. *)
Definition json_loads (s : str) : option value :=
  match parse_value (S (List.length s)) (skip_ws s) with
  | Some (v, r) =>
      match skip_ws r with
      | [] => Some v
      | _ => None
      end
  | None => None
  end.

(** What may follow a value in the output of [json.dumps]. *)
Definition safe_follow (rest : str) : bool :=
  match rest with
  | [] => true
  | c :: _ => ((c =? 44) || (c =? 93) || (c =? 125) || (c =? 10))%N
  end.

(** What Python guarantees about the text of a finite float: it is a JSON
    number with a fraction or an exponent, and [float] reads it back. *)
Definition float_text_contract : Prop :=
  forall x : float,
    F64.valid x = true -> F64.is_finite x = true ->
    float_of_str (float_repr x) = x
    /\ forall rest : str,
         safe_follow rest = true ->
         scan_number (float_repr x ++ rest) = Some (float_repr x, true, rest).

(** [json.detect_encoding]: UTF-8 unless the text starts with a byte order
    mark or has a zero among its first bytes (UTF-16 and UTF-32 input is
    outside this model). *)
Definition detect_utf8 (b : list N) : bool :=
  match b with
  | b0 :: b1 :: _ =>
      negb (((b0 =? 0) || (b1 =? 0)
             || ((b0 =? 255) && (b1 =? 254)) || ((b0 =? 254) && (b1 =? 255))
             || ((b0 =? 239) && (b1 =? 187)))%N)
  | [b0] => negb (b0 =? 0)%N
  | [] => true
  end.

(** [json.loads(b)] for [bytes]. *)
Definition json_loads_bytes (b : bytes) : option value :=
  if detect_utf8 (map Byte.to_N b) then
    match utf8_decode b with
    | Some s => json_loads s
    | None => None
    end
  else None.

(* ===================================================================== *)
(** * [VideoProcessor.extract_frames] *)
(* ===================================================================== *)

(** The four lists the sampler fills, and the dict [video_metadata]. *)
Record Sampled := {
  frames : list str;
  timestamps : list float;
  frame_images : list image;
  frame_numbers : list Z
}.

Record VideoInfo := {
  info_fps : float;
  info_duration : pynum;
  info_total_frames : Z;
  info_frame_interval : Z
}.

Definition no_frames : Sampled :=
  {| frames := []; timestamps := []; frame_images := []; frame_numbers := [] |}.

(** [int(fps * sample_rate)] *)
Definition frame_interval_of (fps : float) (sample_rate : Z) : result Z :=
  p <- py_mul (PyFloat fps) (PyInt sample_rate) ;;
  py_int p.

(** The [while] loop: [stream] holds the frames [cap.read()] has yet to
    return. *)
Fixpoint sample_loop (frame_interval : Z) (fps : pynum) (current_frame : Z)
         (stream : list image) (acc : Sampled) : result Sampled :=
  match stream with
  | [] => Ok acc
  | frame :: rest =>
      r <- py_mod (PyInt current_frame) (PyInt frame_interval) ;;
      acc' <- match r with
              | PyInt 0 =>
                  timestamp <- py_truediv (PyInt current_frame) fps ;;
                  Ok {| frames := frames acc ++ [imencode_jpg_b64 frame];
                        timestamps := timestamps acc ++ [timestamp];
                        frame_images := frame_images acc ++ [cvtColor_BGR2RGB frame];
                        frame_numbers := frame_numbers acc ++ [current_frame] |}
              | _ => Ok acc
              end ;;
      sample_loop frame_interval fps (current_frame + 1) rest acc'
  end.

(** What [cap.read()] returns before it fails: nothing when the container
    could not be opened. *)
Definition readable_frames (cap : VideoCapture image) : list image :=
  if isOpened cap then decoded cap else [].

(** [if fps <= 0: fps = 30] *)
Definition fps_or_default (fps : float) : pynum :=
  if F64.leb fps F64.zero then PyInt 30 else PyFloat fps.

Definition extract_frames (video_path : video) (sample_rate : Z)
  : result (Sampled * VideoInfo) :=
  let cap := cv2_VideoCapture video_path in
  let fps := CAP_PROP_FPS cap in
  total_frames <- py_int_of_float (CAP_PROP_FRAME_COUNT cap) ;;
  frame_interval <- frame_interval_of fps sample_rate ;;
  duration <- (if F64.ltb F64.zero fps
               then d <- py_truediv (PyInt total_frames) (PyFloat fps) ;; Ok (PyFloat d)
               else Ok (PyInt 0)) ;;
  let video_metadata :=
    {| info_fps := fps; info_duration := duration;
       info_total_frames := total_frames; info_frame_interval := frame_interval |} in
  let fps := fps_or_default fps in
  s <- sample_loop frame_interval fps 0 (readable_frames cap) no_frames ;;
  Ok (s, video_metadata).

(* ===================================================================== *)
(** * The remote calls of [VideoProcessor] *)
(* ===================================================================== *)

Local Open Scope io_scope.

Definition frame_analysis_dict (d : str) (objs : list str) (sc : str) : value :=
  VDict [(lit "description", VStr d);
         (lit "objects_detected", VList (map VStr objs));
         (lit "scene_type", VStr sc)].

Definition analyze_frame (frame_base64 : str) (timestamp : float) : M str :=
  r <-- chat_completions_parse_frame frame_base64 timestamp ;;
  ret (match r with
       | Ok frame_analysis =>
           json_dumps true None
             (frame_analysis_dict (description frame_analysis)
                (objects_detected frame_analysis) (scene_type frame_analysis))
       | Raise e =>
           if exn_is LengthFinishReasonError e then
             json_dumps true None
               (frame_analysis_dict (lit "Error: Response exceeded token limit")
                  [] (lit "error"))
           else
             json_dumps true None
               (frame_analysis_dict (lit "Error analyzing frame: " ++ exn_str e)
                  [] (lit "error"))
       end).

Definition supported_languages : list (str * str) :=
  [(lit "en-US", lit "English");
   (lit "ar-AR", lit "Arabic");
   (lit "zh-CN", lit "Mandarin");
   (lit "ta-IN", lit "Tamil");
   (lit "ms-MY", lit "Malay")].

Definition translate_text (text target_language : str) : M str :=
  r <-- chat_completions_create
          {| system_content :=
               lit "Translate the following text to " ++ target_language
               ++ lit ". Maintain the original meaning and tone.";
             user_content := text |} ;;
  ret (match r with
       | Ok (Some content) => py_strip content
       | _ => text
       end).

Definition detect_language (text : str) : M str :=
  r <-- chat_completions_create
          {| system_content :=
               lit "Detect the language of the following text and respond with the language code only (e.g., 'en-US', 'ms-MY', etc.)";
             user_content := text |} ;;
  ret (match r with
       | Ok (Some content) => py_strip content
       | _ => lit "en-US"
       end).

Definition subtitle_entry (segment : Segment) (text : str) : value :=
  VDict [(lit "inpoint", VStr (float_repr (seg_start segment)));
         (lit "outpoint", VStr (float_repr (seg_end segment)));
         (lit "text", VStr text)].

(** The inner loop over [transcript.segments] for one target language. *)
Fixpoint translate_segments (language_name : str) (segments : list Segment)
         (track : list value) : M (list value) :=
  match segments with
  | [] => ret track
  | segment :: rest =>
      translated_text <-- translate_text (seg_text segment) language_name ;;
      translate_segments language_name rest
        (track ++ [subtitle_entry segment translated_text])
  end.

(** The outer loop over [self.supported_languages]. *)
Fixpoint translate_languages (languages : list (str * str)) (source_language : str)
         (segments : list Segment) (subtitles : list (str * value))
  : M (list (str * value)) :=
  match languages with
  | [] => ret subtitles
  | (lang_code, language_name) :: rest =>
      if negb (str_eqb lang_code source_language) then
        track <-- translate_segments language_name segments [] ;;
        translate_languages rest source_language segments
          (dict_set lang_code (VList track) subtitles)
      else translate_languages rest source_language segments subtitles
  end.

Definition error_dict (e : exn) : value := VDict [(lit "error", VStr (exn_str e))].

(** [write_audiofile] stands for opening the clip and writing its audio
    track; [transcriptions_create] for the transcription request on the
    written file and the removal of that file. *)
Definition extract_audio_with_translations (video_path : video) : M value :=
  a <-- write_audiofile video_path ;;
  match a with
  | Raise e => ret (error_dict e)
  | Ok audio_file =>
      t <-- transcriptions_create audio_file ;;
      match t with
      | Raise e => ret (error_dict e)
      | Ok transcript =>
          source_language <-- detect_language (transcript_text transcript) ;;
          let segments := transcript_segments transcript in
          let subtitles :=
            dict_set source_language
              (VList (map (fun segment => subtitle_entry segment (seg_text segment))
                          segments)) [] in
          subtitles <-- translate_languages supported_languages source_language
                          segments subtitles ;;
          ret (VDict subtitles)
      end
  end.

(** The processor object: its only mutable attribute. *)
Record VideoProcessor := { assistant : option str }.

Definition VideoProcessor_init : VideoProcessor := {| assistant := None |}.

(** What the [finally] block raises when it reads [tmp_file_path] before
    the assignment was reached. *)
Definition unbound_tmp_file_path : exn :=
  Exn UnboundLocalError
      (lit "cannot access local variable 'tmp_file_path' where it is not associated with a value").

(** The [finally] block once [tmp_file_path] is bound: the file is removed
    when it exists, and an exception of [os.unlink] replaces the pending
    [return]. *)
Definition remove_temporary_file (self : VideoProcessor) (tmp_file_path : str)
           (returned : option str) : M (VideoProcessor * result (option str)) :=
  present <-- os_path_exists tmp_file_path ;;
  if present : bool then
    removed <-- os_unlink tmp_file_path ;;
    ret (self, match removed with
               | Ok _ => Ok returned
               | Raise e => Raise e
               end)
  else ret (self, Ok returned).

(** [NamedTemporaryFile] answers the name of the file it creates,
    [file_write] stands for the writes of [json.dump] into it (the text is
    encoded as it is written; the chunks written before a failing one are
    left out, nothing reads the file after that), [file_close] for leaving
    the [with] block, [files_create] for opening the file and uploading it,
    [assistants_create] for the creation of the assistant under the given
    name, with the fixed instructions and model.  Every handler of the
    function returns [None]; the [finally] block then raises when the [with]
    block was left before [tmp_file_path] was assigned.  The debug prints
    are left out. *)
Definition create_assistant_with_results (self : VideoProcessor) (json_data : value)
  : M (VideoProcessor * result (option str)) :=
  created <-- NamedTemporaryFile ;;
  match created with
  | Raise _ => ret (self, Raise unbound_tmp_file_path)
  | Ok tmp_file_path =>
      dumped <-- match utf8_encode (json_dumps false (Some 2%nat) json_data) with
                 | Raise e => ret (Raise e)
                 | Ok content => file_write tmp_file_path content
                 end ;;
      closed <-- file_close tmp_file_path ;;
      match dumped with
      | Raise _ => ret (self, Raise unbound_tmp_file_path)
      | Ok _ =>
          match closed with
          | Raise _ => remove_temporary_file self tmp_file_path None
          | Ok _ =>
              uploaded <-- files_create tmp_file_path ;;
              match uploaded with
              | Raise _ => remove_temporary_file self tmp_file_path None
              | Ok _ =>
                  t <-- time_time ;;
                  made <-- assistants_create
                             (lit "Video Analysis Assistant " ++ str_of_Z t) ;;
                  match made with
                  | Raise _ => remove_temporary_file self tmp_file_path None
                  | Ok id =>
                      remove_temporary_file {| assistant := Some id |} tmp_file_path
                        (Some id)
                  end
              end
          end
      end
  end.

(** [assistant_run] stands for the conversation with the assistant: the
    thread, the run, the polling and the retrieval of the answer, with its
    own error texts. *)
Definition query_assistant (self : VideoProcessor) (query : str) : M str :=
  match assistant self with
  | None => ret (lit "No assistant available. Please process a video first.")
  | Some id => assistant_run id query
  end.

(* ===================================================================== *)
(** * [MetadataManager] *)
(* ===================================================================== *)

Local Open Scope result_scope.

Fixpoint map_result {A B} (f : A -> result B) (l : list A) : result (list B) :=
  match l with
  | [] => Ok []
  | a :: r => b <- f a ;; bs <- map_result f r ;; Ok (b :: bs)
  end.

(** [str(timedelta(seconds=n))] *)
Definition timedelta_str (n : Z) : result str :=
  let days := n / 86400 in
  let seconds := n mod 86400 in
  if Z.abs days >? 999999999 then
    Raise (Exn OverflowError (lit "days must have magnitude <= 999999999"))
  else
    Ok ((if days =? 0 then []
         else str_of_Z days ++ lit " day"
              ++ (if Z.abs days =? 1 then [] else lit "s") ++ lit ", ")
        ++ str_of_Z (seconds / 3600) ++ colon
        ++ format_02d (seconds / 60 mod 60) ++ colon
        ++ format_02d (seconds mod 60)).

(** The first loop of [create_metadata_df]: a string that does not parse
    becomes the description of an unknown scene. *)
Definition parse_frame_metadata (metadata_str : str) : value :=
  match json_loads metadata_str with
  | Some metadata => metadata
  | None =>
      VDict [(lit "description", VStr metadata_str);
             (lit "objects_detected", VList []);
             (lit "scene_type", VStr (lit "unknown"))]
  end.

Fixpoint make_rows (frame_numbers : list Z) (timestamps : list float)
         (formatted : list str) (descriptions objects scenes : list value) : DataFrame :=
  match frame_numbers, timestamps, formatted, descriptions, objects, scenes with
  | n :: ns, t :: ts, f :: fs, d :: ds, o :: os, s :: ss =>
      {| row_frame_number := n; row_timestamp := t; row_formatted_time := f;
         row_frame_description := d; row_objects_detected := o; row_scene_type := s |}
      :: make_rows ns ts fs ds os ss
  | _, _, _, _, _, _ => []
  end.

(** [pd.DataFrame({...})]: the columns are evaluated in the order of the
    dict literal, then checked to have one length. *)
Definition build_dataframe (frame_numbers : list Z) (timestamps : list float)
           (parsed_metadata : list value) : result DataFrame :=
  formatted <- map_result (fun t => n <- py_int_of_float t ;; timedelta_str n)
                          timestamps ;;
  descriptions <- map_result (fun m => subscript m (lit "description")) parsed_metadata ;;
  objects <- map_result (fun m => subscript m (lit "objects_detected")) parsed_metadata ;;
  scenes <- map_result (fun m => subscript m (lit "scene_type")) parsed_metadata ;;
  if (List.length frame_numbers =? List.length timestamps)%nat
     && (List.length timestamps =? List.length parsed_metadata)%nat
  then Ok (make_rows frame_numbers timestamps formatted descriptions objects scenes)
  else Raise (Exn ValueError (lit "All arrays must be of the same length")).

Definition event_of_row (row : Row) : value :=
  VDict [(lit "eventID", row_frame_description row);
         (lit "eventImageURL", VStr []);
         (lit "inpoint", VFloat (row_timestamp row));
         (lit "outpoint", VFloat (row_timestamp row))].

Record MetadataManager := {
  metadata_df : option DataFrame;
  video_metadata : option VideoInfo;
  structured_data : option value
}.

Definition MetadataManager_init : MetadataManager :=
  {| metadata_df := None; video_metadata := None; structured_data := None |}.

(** [audio_data if isinstance(audio_data, dict) else {}] *)
Definition subtitles_of (audio_data : value) : value :=
  match audio_data with
  | VDict _ => audio_data
  | _ => VDict []
  end.

Local Open Scope io_scope.

(** The two dict literals at the end of [create_metadata_df]; the clock and
    the identifier generator are read in the order of the literals. *)
Definition build_structured_data (event_data : list value) (audio_data : value)
           (video_metadata : VideoInfo) : M (result value) :=
  t_file_id <-- time_time ;;
  t_lls <-- time_time ;;
  u_thumbnail <-- uuid4 ;;
  t_clip_name <-- time_time ;;
  t_clip_title <-- time_time ;;
  match py_int_of_str (last_chars 8 (str_of_Z t_lls)),
        format_duration (info_duration video_metadata) with
  | Raise e, _ => ret (Raise e)
  | _, Raise e => ret (Raise e)
  | Ok lls_kv_id, Ok duration =>
      let source_data :=
        VDict [(lit "description", VStr []);
               (lit "title", VNone);
               (lit "file_id", VInt t_file_id);
               (lit "lls_kv_id", VInt lls_kv_id);
               (lit "thumbnail", VStr (first_chars 8 u_thumbnail ++ lit ".png"));
               (lit "clip_name", VStr (lit "FIN-" ++ last_chars 2 (str_of_Z t_clip_name)));
               (lit "clip_title", VStr (str_of_Z t_clip_title));
               (lit "duration", VStr duration);
               (lit "proxy_uri", VStr []);
               (lit "relative_path", VStr (lit "//"));
               (lit "tracks",
                VDict [(lit "caption", VDict [(lit "eventData", VList event_data)])]);
               (lit "subtitles", subtitles_of audio_data)] in
      t_index <-- time_time ;;
      u_id <-- uuid4 ;;
      t_seq_no <-- time_time ;;
      ret (Ok (VDict [(lit "index", VStr (str_of_Z t_index));
                      (lit "id", VStr u_id);
                      (lit "version", VInt 1);
                      (lit "seq_no", VInt t_seq_no);
                      (lit "primary_term", VInt 1);
                      (lit "found", VBool true);
                      (lit "source", source_data)]))
  end.

(** The method assigns its three attributes one after the other, so an
    exception leaves the earlier assignments in place. *)
Definition create_metadata_df (self : MetadataManager) (frame_metadata : list str)
           (timestamps : list float) (audio_data : value)
           (video_metadata : VideoInfo) (frame_numbers : list Z)
  : M (MetadataManager * result unit) :=
  let self :=
    {| metadata_df := metadata_df self; video_metadata := Some video_metadata;
       structured_data := structured_data self |} in
  let parsed_metadata := map parse_frame_metadata frame_metadata in
  match build_dataframe frame_numbers timestamps parsed_metadata with
  | Raise e => ret (self, Raise e)
  | Ok df =>
      let self :=
        {| metadata_df := Some df; video_metadata := Some video_metadata;
           structured_data := structured_data self |} in
      let event_data := map event_of_row df in
      r <-- build_structured_data event_data audio_data video_metadata ;;
      match r with
      | Raise e => ret (self, Raise e)
      | Ok data =>
          ret ({| metadata_df := Some df; video_metadata := Some video_metadata;
                  structured_data := Some data |}, Ok tt)
      end
  end.

(** [get_structured_output]: the attribute, [None] before any run. *)
Definition get_structured_output (self : MetadataManager) : value :=
  match structured_data self with
  | Some data => data
  | None => VNone
  end.

Fixpoint join (sep : str) (l : list str) : str :=
  match l with
  | [] => []
  | [a] => a
  | a :: r => a ++ sep ++ join sep r
  end.

Definition newline : str := [10%N].

Definition query_metadata (self : MetadataManager) (query : str) : M str :=
  match metadata_df self with
  | None => ret (lit "No metadata available. Please process a video first.")
  | Some df =>
      let metadata_context :=
        VList (map (fun row =>
                      VDict [(lit "timestamp", VStr (row_formatted_time row));
                             (lit "description", row_frame_description row);
                             (lit "objects", row_objects_detected row);
                             (lit "scene_type", row_scene_type row)]) df) in
      r <-- chat_completions_parse_query
              (lit "Based on this video metadata:" ++ newline
               ++ json_dumps true (Some 2%nat) metadata_context
               ++ newline ++ newline ++ lit "Query: " ++ query) ;;
      ret (match r with
           | Ok result =>
               lit "Answer: " ++ answer result ++ newline ++ newline
               ++ lit "Relevant Timestamps: "
               ++ join (lit ", ") (relevant_timestamps result) ++ newline
               ++ lit "Confidence: " ++ format_2f (confidence result)
           | Raise e => lit "Error querying metadata: " ++ exn_str e
           end)
  end.

Local Open Scope result_scope.

Definition export_metadata (self : MetadataManager) (format_type : str)
  : result exported :=
  if str_eqb format_type (lit "json") then
    b <- utf8_encode (json_dumps false (Some 2%nat) (get_structured_output self)) ;;
    Ok (ExportBytes b)
  else if str_eqb format_type (lit "csv") then
    match metadata_df self with
    | Some df => Ok (ExportText (to_csv df))
    | None =>
        Raise (Exn AttributeError (lit "'NoneType' object has no attribute 'to_csv'"))
    end
  else if str_eqb format_type (lit "excel") then
    match metadata_df self with
    | Some df => Ok (ExportBytes (to_excel df (structured_data self)))
    | None =>
        Raise (Exn AttributeError (lit "'NoneType' object has no attribute 'to_excel'"))
    end
  else Raise (Exn ValueError (lit "Unsupported export format: " ++ format_type)).

(* ===================================================================== *)
(** * The processing run of [main] *)
(* ===================================================================== *)

Local Open Scope io_scope.

(** The loop over [zip(frames, timestamps)]. *)
Fixpoint analyze_frames (pairs : list (str * float)) (frame_metadata : list str)
  : M (list str) :=
  match pairs with
  | [] => ret frame_metadata
  | (frame, timestamp) :: rest =>
      metadata <-- analyze_frame frame timestamp ;;
      analyze_frames rest (frame_metadata ++ [metadata])
  end.

(** The body of the [try] block behind the "Process Video" button. *)
Definition process_video (processor : VideoProcessor)
           (metadata_manager : MetadataManager) (video_path : video)
  : M (VideoProcessor * MetadataManager * result (option str)) :=
  match extract_frames video_path 2 with
  | Raise e => ret (processor, metadata_manager, Raise e)
  | Ok (sampled, video_metadata) =>
      frame_metadata <-- analyze_frames
                           (combine (frames sampled) (timestamps sampled)) [] ;;
      audio_data <-- extract_audio_with_translations video_path ;;
      created <-- create_metadata_df metadata_manager frame_metadata
                    (timestamps sampled) audio_data video_metadata
                    (frame_numbers sampled) ;;
      let '(metadata_manager, r) := created in
      match r with
      | Raise e => ret (processor, metadata_manager, Raise e)
      | Ok _ =>
          made <-- create_assistant_with_results processor
                     (get_structured_output metadata_manager) ;;
          let '(processor, assistant_id) := made in
          ret (processor, metadata_manager, assistant_id)
      end
  end.

End Model.

(* ===================================================================== *)
(** * A small concrete environment *)
(* ===================================================================== *)

(** The theorems below hold in every environment.  This one makes them
    computable on examples: images are numbered, the world counts the remote
    calls made so far, and a video file carries its decoded stream and the
    script its services follow. *)
Module Demo.

(** A float as text: mantissa and exponent in decimal, [-0e0] and [0e0] for
    the zeros.  Whatever the digits mean, the text is a JSON number with an
    exponent, and reading it back gives the float. *)
Definition float_text (x : float) : str :=
  match x with
  | S754_zero false => lit "0e0"
  | S754_zero true => lit "-0e0"
  | S754_finite s m e =>
      (if s then [45%N] else []) ++ str_of_N (Npos m) ++ [101%N] ++ str_of_Z e
  | S754_infinity false => lit "inf"
  | S754_infinity true => lit "-inf"
  | S754_nan => lit "nan"
  end.

Definition text_float (t : str) : float :=
  let '(sign, body) := scan_sign t in
  let s := match sign with [] => false | _ => true end in
  let '(digits, rest) := span_digits body in
  match uint_of_str digits, rest with
  | Some d, e :: expo =>
      if (e =? 101)%N then
        match N.of_uint d, py_int_of_str expo with
        | Npos m, Ok e => S754_finite s m e
        | N0, Ok _ => S754_zero s
        | _, _ => S754_nan
        end
      else S754_nan
  | _, _ => S754_nan
  end.

Record File := {
  capture : VideoCapture nat;
  audio : result bytes
}.

(** The transcription every non-empty audio track gets. *)
Definition two_segments : Transcript :=
  {| transcript_text := lit "selamat pagi";
     transcript_segments :=
       [{| seg_start := F64.zero; seg_end := F64.ratio 5 2; seg_text := lit "selamat" |};
        {| seg_start := F64.ratio 5 2; seg_end := F64.of_Z 5; seg_text := lit "pagi" |}] |}.

(** Remote calls fail when the number of calls made so far is in
    [failing]. *)
Definition scripted (failing : list nat) : Env := {|
  image := nat;
  cvtColor_BGR2RGB := fun i => i;
  imencode_jpg_b64 := fun i => str_of_N (N.of_nat i);
  float_repr := float_text;
  float_of_str := text_float;
  format_2f := float_text;
  world := nat;
  video := File;
  cv2_VideoCapture := capture;
  time_time := fun w => (Z.of_nat w + 1700000000, w);
  uuid4 := fun w => (lit "0f8fad5b-d9cb-469f-a165-70867728950e", w);
  chat_completions_create := fun req w =>
    (if existsb (Nat.eqb w) failing
     then Raise (Exn OtherException (lit "Connection error."))
     else if str_eqb (firstn 6 (system_content req)) (lit "Detect")
          then Ok (Some (lit " ms-MY" ++ [10%N]))
          else Ok (Some (lit " " ++ user_content req ++ lit "! ")), S w);
  chat_completions_parse_frame := fun frame timestamp w =>
    (if existsb (Nat.eqb w) failing
     then Raise (Exn OtherException (lit "Request timed out."))
     else Ok {| description := lit "frame " ++ frame;
                objects_detected := [lit "person"];
                scene_type := lit "indoor" |}, S w);
  chat_completions_parse_query := fun prompt w =>
    (Ok {| answer := lit "yes"; relevant_timestamps := [lit "0:00:00"];
           confidence := F64.ratio 1 2 |}, S w);
  write_audiofile := fun f w => (audio f, w);
  transcriptions_create := fun b w =>
    (match b with
     | [] => Raise (Exn OtherException (lit "Audio file is too short."))
     | _ => Ok two_segments
     end, S w);
  NamedTemporaryFile := fun w => (Ok (lit "/tmp/tmpk3x9w1.json"), w);
  file_write := fun path content w => (Ok tt, w);
  file_close := fun path w => (Ok tt, w);
  os_path_exists := fun path w => (true, w);
  os_unlink := fun path w => (Ok tt, w);
  files_create := fun path w =>
    (if existsb (Nat.eqb w) failing
     then Raise (Exn OtherException (lit "Connection error."))
     else Ok (lit "file-1"), S w);
  assistants_create := fun name w =>
    (if existsb (Nat.eqb w) failing
     then Raise (Exn OtherException (lit "Connection error."))
     else Ok (lit "asst_1"), S w);
  assistant_run := fun id query w => (lit "answer", S w);
  to_csv := fun df => [];
  to_excel := fun df data => []
|}.

End Demo.

(* ===================================================================== *)
(** * Notions used by the statements *)
(* ===================================================================== *)

(** Induction on values, with the hypothesis for every item of a list and
    every value of a dict. *)
Fixpoint value_rect' (P : value -> Prop)
  (HNone : P VNone) (HBool : forall b, P (VBool b)) (HInt : forall z, P (VInt z))
  (HFloat : forall x, P (VFloat x)) (HStr : forall s, P (VStr s))
  (HList : forall l, Forall P l -> P (VList l))
  (HDict : forall d, Forall (fun kv => P (snd kv)) d -> P (VDict d))
  (v : value) {struct v} : P v :=
  match v with
  | VNone => HNone
  | VBool b => HBool b
  | VInt z => HInt z
  | VFloat x => HFloat x
  | VStr s => HStr s
  | VList l =>
      HList l ((fix go (l : list value) : Forall P l :=
                  match l with
                  | [] => Forall_nil P
                  | x :: r =>
                      Forall_cons x
                        (value_rect' P HNone HBool HInt HFloat HStr HList HDict x) (go r)
                  end) l)
  | VDict d =>
      HDict d ((fix go (d : list (str * value)) : Forall (fun kv => P (snd kv)) d :=
                  match d with
                  | [] => Forall_nil _
                  | kv :: r =>
                      Forall_cons kv
                        (value_rect' P HNone HBool HInt HFloat HStr HList HDict (snd kv))
                        (go r)
                  end) d)
  end.


(** A value reads back, whatever follows it in the text. *)
Definition reads_back {E : Env} (float_ok : float -> bool) (v : value) : Prop :=
  forall (ensure_ascii : bool) (indent : option nat) (level fuel : nat) (rest : str),
    wf_value_with float_ok v = true -> safe_follow rest = true ->
    (List.length (encode ensure_ascii indent level v) <= fuel)%nat ->
    parse_value fuel (encode ensure_ascii indent level v ++ rest) = Some (v, rest).

(** The whole seconds of a duration: the duration rounded down. *)
Definition whole_seconds (seconds : pynum) : Z :=
  match seconds with
  | PyInt z => z
  | PyFloat (S754_finite s m e) => F64.floorZ s m e
  | PyFloat _ => 0
  end.

(** ** The sampling rule *)

Section Notions.
Context {E : Env}.

(** The frames of a stream with their indices. *)
Fixpoint numbered (start : Z) (stream : list image) : list (Z * image) :=
  match stream with
  | [] => []
  | frame :: rest => (start, frame) :: numbered (start + 1) rest
  end.

(** The frames whose index is a multiple of [interval]; [mod] is Python's
    [%] on ints. *)
Definition kept_frames (interval : Z) (stream : list image) : list (Z * image) :=
  filter (fun p => fst p mod interval =? 0) (numbered 0 stream).

(** Python's [round(x)] on a float: the nearest integer, a tie going to the
    even one. *)
Definition py_round (x : float) : result Z :=
  match x with
  | S754_nan => Raise (Exn ValueError (lit "cannot convert float NaN to integer"))
  | S754_infinity _ =>
      Raise (Exn OverflowError (lit "cannot convert float infinity to integer"))
  | S754_zero _ => Ok 0
  | S754_finite s m e =>
      if 0 <=? e then Ok (cond_Zopp s (Z.shiftl (Zpos m) e))
      else
        let d := 2 ^ (- e) in
        let q := Zpos m / d in
        let r := Zpos m mod d in
        Ok (cond_Zopp s
              match 2 * r ?= d with
              | Lt => q
              | Gt => q + 1
              | Eq => if Z.even q then q else q + 1
              end)
  end.

(** The interval as the specification words it: [round(fps * seconds)]. *)
Definition rounded_frame_interval (fps : float) (sample_rate : Z) : result Z :=
  p <- py_mul (PyFloat fps) (PyInt sample_rate) ;;
  match p with
  | PyInt z => Ok z
  | PyFloat x => py_round x
  end.

(** The sampling rule with the rounded interval, for one video and one
    sampling interval. *)
Definition keeps_rounded_multiples (video_path : video) (sample_rate : Z) : Prop :=
  forall (s : Sampled) (info : VideoInfo),
    extract_frames video_path sample_rate = Ok (s, info) ->
    exists interval,
      rounded_frame_interval (CAP_PROP_FPS (cv2_VideoCapture video_path)) sample_rate
      = Ok interval
      /\ frame_numbers s
         = map fst (kept_frames interval (readable_frames (cv2_VideoCapture video_path))).

(** The claim that a low rate always stops the sampler: whenever the
    product of the rate and the interval is below one and a frame can be
    read, the modulo by zero is raised. *)
Definition low_rate_fails (video_path : video) (sample_rate : Z) : Prop :=
  forall (p : float) (frame : image) (rest : list image),
    py_mul (PyFloat (CAP_PROP_FPS (cv2_VideoCapture video_path))) (PyInt sample_rate)
    = Ok (PyFloat p) ->
    F64.ltb p (F64.of_Z 1) = true ->
    readable_frames (cv2_VideoCapture video_path) = frame :: rest ->
    exists msg,
      extract_frames video_path sample_rate = Raise (Exn ZeroDivisionError msg).

(** ** Runs of the remote calls *)

(** [analyze_frame] on every pair of a list, each call starting in the
    world the previous one left. *)
Inductive analysed : list (str * float) -> world -> list str -> world -> Prop :=
| analysed_nil (w : world) : analysed [] w [] w
| analysed_cons (frame : str) (timestamp : float) (rest : list (str * float))
    (w w' w'' : world) (metadata : str) (more : list str) :
    analyze_frame frame timestamp w = (metadata, w') ->
    analysed rest w' more w'' ->
    analysed ((frame, timestamp) :: rest) w (metadata :: more) w''.

(** A track made of one entry per segment, with the timing of the segment
    and the text [translate_text] answered for it. *)
Inductive translated_track (language_name : str)
  : list Segment -> world -> list value -> world -> Prop :=
| translated_nil (w : world) : translated_track language_name [] w [] w
| translated_cons (segment : Segment) (rest : list Segment) (w w' w'' : world)
    (text : str) (track : list value) :
    translate_text (seg_text segment) language_name w = (text, w') ->
    translated_track language_name rest w' track w'' ->
    translated_track language_name (segment :: rest) w
      (subtitle_entry segment text :: track) w''.

(** The track in the language of the recording. *)
Definition source_track (segments : list Segment) : list value :=
  map (fun segment => subtitle_entry segment (seg_text segment)) segments.

(** The [(inpoint, outpoint)] pair of a subtitle entry. *)
Definition timing (entry : value) : result (value * value) :=
  (i <- subscript entry (lit "inpoint") ;;
   o <- subscript entry (lit "outpoint") ;;
   Ok (i, o))%result.

(** ** The parts of a record *)

Definition record_subtitles (record : value) : result value :=
  (source <- subscript record (lit "source") ;;
   subscript source (lit "subtitles"))%result.

Definition record_events (record : value) : result value :=
  (source <- subscript record (lit "source") ;;
   tracks <- subscript source (lit "tracks") ;;
   caption <- subscript tracks (lit "caption") ;;
   subscript caption (lit "eventData"))%result.

(** Two events in the order of their [inpoint]. *)
Definition inpoint_le (a b : value) : Prop :=
  exists x y : float,
    subscript a (lit "inpoint") = Ok (VFloat x)
    /\ subscript b (lit "inpoint") = Ok (VFloat y)
    /\ F64.leb x y = true.

(** An event that starts and ends at [t]. *)
Definition event_at (t : float) (event : value) : Prop :=
  subscript event (lit "inpoint") = Ok (VFloat t)
  /\ subscript event (lit "outpoint") = Ok (VFloat t).

Definition keys_of (v : value) : list str :=
  match v with
  | VDict d => dict_keys d
  | _ => []
  end.

(** The subtitle tracks of a mapping: its entries that hold a list of
    segments. *)
Definition subtitle_tracks (subtitles : value) : list (str * list value) :=
  match subtitles with
  | VDict d =>
      flat_map (fun kv => match snd kv with
                          | VList track => [(fst kv, track)]
                          | _ => []
                          end) d
  | _ => []
  end.

(** The language [detect_language] answers in a run of the audio
    annotation, when the run gets that far. *)
Definition detected_source (video_path : video) (w : world) : option str :=
  let '(a, w1) := write_audiofile video_path w in
  match a with
  | Raise _ => None
  | Ok audio_file =>
      let '(t, w2) := transcriptions_create audio_file w1 in
      match t with
      | Raise _ => None
      | Ok transcript => Some (fst (detect_language (transcript_text transcript) w2))
      end
  end.

(** The claim that the keys of the subtitles are supported languages or the
    detected language, for the audio annotation of one video. *)
Definition subtitle_keys_within (video_path : video) (w : world) : Prop :=
  forall k : str,
    In k (keys_of (subtitles_of (fst (extract_audio_with_translations video_path w)))) ->
    In k (map fst supported_languages) \/ detected_source video_path w = Some k.

End Notions.

(** ** Inputs for the examples *)

Module Clips.
Import Demo.

(** 121 frames at 29.97 frames per second. *)
Definition ntsc : File :=
  {| capture := {| isOpened := true; CAP_PROP_FPS := F64.ratio 2997 100;
                   CAP_PROP_FRAME_COUNT := F64.of_Z 121; decoded := seq 0 121 |};
     audio := Ok [Byte.x01] |}.

(** Three frames and a reported rate of zero. *)
Definition no_rate : File :=
  {| capture := {| isOpened := true; CAP_PROP_FPS := F64.zero;
                   CAP_PROP_FRAME_COUNT := F64.of_Z 3; decoded := seq 0 3 |};
     audio := Ok [Byte.x01] |}.

(** Twelve frames and a reported rate of minus five. *)
Definition negative_rate : File :=
  {| capture := {| isOpened := true; CAP_PROP_FPS := F64.of_Z (-5);
                   CAP_PROP_FRAME_COUNT := F64.of_Z 12; decoded := seq 0 12 |};
     audio := Ok [Byte.x01] |}.

(** Four frames at 2 frames per second, and no audio track. *)
Definition silent : File :=
  {| capture := {| isOpened := true; CAP_PROP_FPS := F64.of_Z 2;
                   CAP_PROP_FRAME_COUNT := F64.of_Z 4; decoded := seq 0 4 |};
     audio := Raise (Exn AttributeError
                       (lit "'NoneType' object has no attribute 'write_audiofile'")) |}.

(** The manager after the processing of [ntsc], when the second and the
    seventh remote calls fail. *)
Definition processed : MetadataManager :=
  snd (fst (fst (process_video (E := scripted [1%nat; 6%nat])
                   VideoProcessor_init MetadataManager_init ntsc 0%nat))).

Definition processed_record : list (str * value) :=
  match structured_data processed with
  | Some (VDict d) => d
  | _ => []
  end.

End Clips.

Section Tracks.
Context {E : Env}.

(** An entry of the subtitles of a successful audio annotation: the track
    of the recording under the detected language, or the translated track
    of a supported language. *)
Definition track_entry (source_language : str) (segments : list Segment)
           (kv : str * value) : Prop :=
  (fst kv = source_language /\ snd kv = VList (source_track segments))
  \/ (exists (language_name : str) (w w' : world) (track : list value),
        In (fst kv, language_name) supported_languages
        /\ fst kv <> source_language
        /\ snd kv = VList track
        /\ translated_track language_name segments w track w').

End Tracks.

(* ===================================================================== *)
(** * The accessors of [MetadataManager] and [format_timestamp] *)
(* ===================================================================== *)

(** [type(v).__name__] *)
Definition type_name (v : value) : str :=
  match v with
  | VNone => lit "NoneType"
  | VBool _ => lit "bool"
  | VInt _ => lit "int"
  | VFloat _ => lit "float"
  | VStr _ => lit "str"
  | VList _ => lit "list"
  | VDict _ => lit "dict"
  end.

(** The truth value of an object, as [if] and [and] test it. *)
Definition py_truthy (v : value) : bool :=
  match v with
  | VNone => false
  | VBool b => b
  | VInt z => negb (z =? 0)
  | VFloat x => F64.nonzero x
  | VStr s => match s with [] => false | _ => true end
  | VList l => match l with [] => false | _ => true end
  | VDict d => match d with [] => false | _ => true end
  end.

(** [p in s] on two strings. *)
Fixpoint contains_sub (p s : str) : bool :=
  match starts_with p s with
  | Some _ => true
  | None =>
      match s with
      | [] => false
      | _ :: r => contains_sub p r
      end
  end.

(** [key in container] for a string [key]: a key of a dict, an item of a
    list, a part of a string. *)
Definition py_contains (key : str) (container : value) : result bool :=
  match container with
  | VDict d => Ok (existsb (str_eqb key) (dict_keys d))
  | VList l =>
      Ok (existsb (fun x => match x with
                            | VStr s => str_eqb key s
                            | _ => false
                            end) l)
  | VStr s => Ok (contains_sub key s)
  | _ =>
      Raise (Exn TypeError
               (lit "argument of type '" ++ type_name container
                ++ lit "' is not iterable"))
  end.

Definition no_attribute (obj : value) (name : string) : exn :=
  Exn AttributeError
    (lit "'" ++ type_name obj ++ lit "' object has no attribute '" ++ lit name ++ lit "'").

(** [obj.get(key, default)] *)
Definition py_get (obj : value) (key : str) (default : value) : result value :=
  match obj with
  | VDict d =>
      Ok match dict_get key d with
         | Some v => v
         | None => default
         end
  | _ => Raise (no_attribute obj "get")
  end.

(** [list(obj.keys())] *)
Definition py_keys (obj : value) : result (list str) :=
  match obj with
  | VDict d => Ok (dict_keys d)
  | _ => Raise (no_attribute obj "keys")
  end.

(** [s.split('.')[0]] *)
Fixpoint before_dot (s : str) : str :=
  match s with
  | [] => []
  | c :: r => if (c =? 46)%N then [] else c :: before_dot r
  end.

(** Text without a full stop. *)
Definition no_dot (s : str) : bool := forallb (fun c => negb (c =? 46)%N) s.

(** The module-level [format_timestamp], on a number. *)
Definition format_timestamp (seconds : pynum) : result str :=
  x <- to_float seconds ;;
  n <- py_int_of_float x ;;
  t <- timedelta_str n ;;
  Ok (before_dot t).

(** [str(timedelta(seconds=int(t)))], the entry of the column
    [formatted_time] for the timestamp [t]. *)
Definition formatted_time (t : float) : result str :=
  n <- py_int_of_float t ;; timedelta_str n.

(** No string of a value, key or text, holds a lone surrogate. *)
Fixpoint strings_clean (v : value) : bool :=
  match v with
  | VStr s => scalar_str s
  | VList l => forallb strings_clean l
  | VDict d => forallb (fun kv => scalar_str (fst kv) && strings_clean (snd kv)) d
  | _ => true
  end.

Section Accessors.
Context {E : Env}.

(** [MetadataManager.get_event_data]: the path into the record, and an
    empty list when a key is missing or an object on the path cannot be
    subscripted. *)
Definition get_event_data (self : MetadataManager) : result value :=
  match
    (source <- subscript (get_structured_output self) (lit "source") ;;
     tracks <- subscript source (lit "tracks") ;;
     caption <- subscript tracks (lit "caption") ;;
     subscript caption (lit "eventData"))
  with
  | Ok events => Ok events
  | Raise e =>
      if exn_is KeyError e || exn_is TypeError e then Ok (VList []) else Raise e
  end.

(** The test both subtitle accessors start with:
    [self.structured_data and 'source' in self.structured_data]. *)
Definition has_source (self : MetadataManager) : result bool :=
  if py_truthy (get_structured_output self)
  then py_contains (lit "source") (get_structured_output self)
  else Ok false.

(** [MetadataManager.get_subtitle_languages] *)
Definition get_subtitle_languages (self : MetadataManager) : result (list str) :=
  present <- has_source self ;;
  if present then
    source <- subscript (get_structured_output self) (lit "source") ;;
    subtitles <- py_get source (lit "subtitles") (VDict []) ;;
    py_keys subtitles
  else Ok [].

(** [MetadataManager.get_subtitles_for_language] *)
Definition get_subtitles_for_language (self : MetadataManager) (language_code : str)
  : result value :=
  present <- has_source self ;;
  if present then
    source <- subscript (get_structured_output self) (lit "source") ;;
    subtitles <- py_get source (lit "subtitles") (VDict []) ;;
    py_get subtitles language_code (VList [])
  else Ok (VList []).

(** ** Notions used by the further statements *)

(** An outcome of the vision call whose text holds no lone surrogate. *)
Definition clean_outcome (r : result FrameAnalysis) : bool :=
  match r with
  | Ok frame_analysis =>
      scalar_str (description frame_analysis)
      && forallb scalar_str (objects_detected frame_analysis)
      && scalar_str (scene_type frame_analysis)
  | Raise e => scalar_str (exn_str e)
  end.

(** The indices [0], [|d|], [2 |d|], ... below [n]. *)
Definition multiples_below (d : Z) (n : nat) : list Z :=
  map (fun k => Z.of_nat k * Z.abs d)
      (seq 0 (Z.to_nat ((Z.of_nat n + Z.abs d - 1) / Z.abs d))).

(** The language codes other than [source_language], in the order of
    [supported_languages]. *)
Definition other_languages (source_language : str) : list str :=
  filter (fun code => negb (str_eqb code source_language)) (map fst supported_languages).

End Accessors.

(** ** Further inputs for the examples *)

Module MoreClips.
Import Demo.

(** A file that cannot be opened, with a reported rate of zero. *)
Definition unreadable : File :=
  {| capture := {| isOpened := false; CAP_PROP_FPS := F64.zero;
                   CAP_PROP_FRAME_COUNT := F64.zero; decoded := [] |};
     audio := Ok [Byte.x01] |}.

(** The metadata of a clip of one second at two frames per second. *)
Definition short_info : VideoInfo :=
  {| info_fps := F64.of_Z 2; info_duration := PyFloat (F64.of_Z 1);
     info_total_frames := 2; info_frame_interval := 1 |}.

(** Four frames at 2 frames per second; writing the audio fails with a
    message that holds a lone surrogate. *)
Definition garbled : File :=
  {| capture := {| isOpened := true; CAP_PROP_FPS := F64.of_Z 2;
                   CAP_PROP_FRAME_COUNT := F64.of_Z 4; decoded := seq 0 4 |};
     audio := Raise (Exn OtherException (lit "cannot read " ++ [55357%N])) |}.

End MoreClips.

(* ===================================================================== *)
(** * Facts about binary64 rounding *)
(* ===================================================================== *)

Module F64Facts.
Import F64.

Lemma digits2_pos_size (p : positive) : digits2_pos p = Pos.size p.
Proof. induction p; simpl; congruence. Qed.

Lemma Zdigits2_log2 (m : Z) : 0 < m -> Zdigits2 m = Z.log2 m + 1.
Proof.
  destruct m as [|p|p]; try lia. intros _. simpl.
  rewrite digits2_pos_size. destruct p; simpl; lia.
Qed.

Lemma Zdigits2_nonneg (m : Z) : 0 <= Zdigits2 m.
Proof. destruct m; simpl; lia. Qed.

Lemma Zdigits2_pos (m : Z) : 0 < m -> 0 < Zdigits2 m.
Proof. destruct m; simpl; lia. Qed.

Lemma Zdigits2_spec (m : Z) :
  0 < m -> 2 ^ (Zdigits2 m - 1) <= m < 2 ^ Zdigits2 m.
Proof.
  intros H. rewrite (Zdigits2_log2 m H).
  replace (Z.log2 m + 1 - 1) with (Z.log2 m) by lia.
  apply (Z.log2_spec m H).
Qed.

Lemma Zdigits2_le (m k : Z) : 0 <= m -> 0 <= k -> m < 2 ^ k -> Zdigits2 m <= k.
Proof.
  intros Hm Hk H. destruct (Z.eq_dec m 0) as [->|Hne]; [simpl; lia|].
  rewrite Zdigits2_log2 by lia.
  assert (Z.log2 m < k) by (apply Z.log2_lt_pow2; lia). lia.
Qed.

Lemma Zdigits2_ge (m k : Z) : 0 < m -> 2 ^ (k - 1) <= m -> k <= Zdigits2 m.
Proof.
  intros Hm H. rewrite Zdigits2_log2 by lia.
  destruct (Z.le_gt_cases (k - 1) (Z.log2 m)) as [|Hlt]; [lia|].
  exfalso. assert (0 <= k - 1 \/ k - 1 < 0) as [Hk|Hk] by lia.
  - apply Z.log2_lt_pow2 in Hlt; lia.
  - pose proof (Z.log2_nonneg m). lia.
Qed.

Lemma Zdigits2_mono (a b : Z) : 0 <= a <= b -> Zdigits2 a <= Zdigits2 b.
Proof.
  intros [Ha Hab]. destruct (Z.eq_dec a 0) as [->|Hne].
  - apply Zdigits2_nonneg.
  - rewrite !Zdigits2_log2 by lia. pose proof (Z.log2_le_mono a b Hab). lia.
Qed.

Lemma Zdigits2_succ (m : Z) : 0 <= m -> Zdigits2 (m + 1) <= Zdigits2 m + 1.
Proof.
  intros Hm. destruct (Z.eq_dec m 0) as [->|Hne]; [simpl; lia|].
  apply Zdigits2_le; [lia| pose proof (Zdigits2_nonneg m); lia |].
  pose proof (Zdigits2_spec m ltac:(lia)) as [_ Hu].
  rewrite Z.pow_add_r by (pose proof (Zdigits2_nonneg m); lia). lia.
Qed.

Lemma Zdigits2_mul_pow (m n : Z) :
  0 < m -> 0 <= n -> Zdigits2 (m * 2 ^ n) = Zdigits2 m + n.
Proof.
  intros Hm Hn.
  assert (0 < m * 2 ^ n) by (apply Z.mul_pos_pos; [lia | apply Z.pow_pos_nonneg; lia]).
  rewrite !Zdigits2_log2 by lia.
  rewrite Z.log2_mul_pow2 by lia. lia.
Qed.

Lemma Zdigits2_div_pow (m n : Z) :
  0 <= m -> 0 <= n -> 0 < m / 2 ^ n -> Zdigits2 (m / 2 ^ n) = Zdigits2 m - n.
Proof.
  intros Hm Hn Hq.
  assert (Hp : 0 < 2 ^ n) by (apply Z.pow_pos_nonneg; lia).
  assert (Hm' : 0 < m).
  { destruct (Z.eq_dec m 0) as [->|]; [rewrite Z.div_0_l in Hq; lia | lia]. }
  rewrite !Zdigits2_log2 by lia.
  rewrite <- Z.shiftr_div_pow2 by lia.
  rewrite Z.log2_shiftr by lia.
  assert (n <= Z.log2 m).
  { apply Z.log2_le_pow2; [lia|].
    destruct (Z.le_gt_cases (2 ^ n) m); [lia|].
    rewrite Z.div_small in Hq; lia. }
  lia.
Qed.

(** Iterating a function a positive number of times. *)
Lemma iter_pos_nat {A} (f : A -> A) (p : positive) (x : A) :
  iter_pos f p x = Nat.iter (Pos.to_nat p) f x.
Proof.
  revert x. induction p as [p IH|p IH|]; intros x; cbn [iter_pos].
  - rewrite !IH. rewrite Pos2Nat.inj_xI.
    replace (S (2 * Pos.to_nat p)) with (Pos.to_nat p + (Pos.to_nat p + 1))%nat by lia.
    rewrite !Nat.iter_add. reflexivity.
  - rewrite !IH. rewrite Pos2Nat.inj_xO.
    replace (2 * Pos.to_nat p)%nat with (Pos.to_nat p + Pos.to_nat p)%nat by lia.
    rewrite Nat.iter_add. reflexivity.
  - reflexivity.
Qed.

Lemma shr_m_shr_1 (mrs : shr_record) :
  0 <= shr_m mrs -> shr_m (shr_1 mrs) = shr_m mrs / 2.
Proof.
  destruct mrs as [m r s]; cbn [shr_m]. intros Hm.
  destruct m as [|[p|p|]|p]; cbn [shr_1 shr_m]; try lia; try reflexivity.
  - apply Z.div_unique with 1; lia.
  - apply Z.div_unique with 0; lia.
Qed.

Lemma shr_m_iter (n : nat) (mrs : shr_record) :
  0 <= shr_m mrs ->
  shr_m (Nat.iter n shr_1 mrs) = shr_m mrs / 2 ^ Z.of_nat n.
Proof.
  intros Hm. induction n as [|n IH].
  - simpl. rewrite Z.div_1_r. reflexivity.
  - rewrite Nat2Z.inj_succ, Z.pow_succ_r by lia. rewrite Nat.iter_succ.
    assert (Hp : 0 < 2 ^ Z.of_nat n) by (apply Z.pow_pos_nonneg; lia).
    rewrite shr_m_shr_1.
    + rewrite IH. rewrite Z.div_div by lia.
      f_equal. lia.
    + rewrite IH. apply Z.div_pos; lia.
Qed.

(** Shifting out zero bits only leaves the location exact. *)
Lemma shr_1_exact (m : Z) :
  0 <= m -> m mod 2 = 0 ->
  shr_1 (Build_shr_record m false false) = Build_shr_record (m / 2) false false.
Proof.
  intros Hm H. destruct m as [|[p|p|]|p]; cbn [shr_1 orb]; try lia; try reflexivity.
  - exfalso. rewrite Pos2Z.inj_xI in H.
    rewrite Z.add_comm, Z.mul_comm, Z.mod_add in H by lia. discriminate.
  - f_equal. apply Z.div_unique with 0; lia.
  - discriminate.
Qed.

Lemma shr_iter_exact (n : nat) (m : Z) :
  0 <= m -> m mod 2 ^ Z.of_nat n = 0 ->
  Nat.iter n shr_1 (Build_shr_record m false false)
  = Build_shr_record (m / 2 ^ Z.of_nat n) false false.
Proof.
  revert m. induction n as [|n IH]; intros m Hm H.
  - simpl. rewrite Z.div_1_r. reflexivity.
  - rewrite Nat2Z.inj_succ, Z.pow_succ_r in * by lia.
    assert (Hp : 0 < 2 ^ Z.of_nat n) by (apply Z.pow_pos_nonneg; lia).
    rewrite Nat.iter_succ_r.
    assert (Hd : m = 2 * 2 ^ Z.of_nat n * (m / (2 * 2 ^ Z.of_nat n))).
    { pose proof (Z.div_mod m (2 * 2 ^ Z.of_nat n) ltac:(lia)). lia. }
    assert (H2 : m mod 2 = 0).
    { rewrite Hd. rewrite <- Z.mul_assoc, Z.mul_comm. apply Z.mod_mul. lia. }
    rewrite shr_1_exact by assumption.
    assert (Hh : m / 2 = 2 ^ Z.of_nat n * (m / (2 * 2 ^ Z.of_nat n))).
    { rewrite Hd at 1. rewrite <- Z.mul_assoc, Z.mul_comm, Z.div_mul by lia. reflexivity. }
    rewrite IH.
    + rewrite Z.div_div by lia. reflexivity.
    + apply Z.div_pos; lia.
    + rewrite Hh, Z.mul_comm. apply Z.mod_mul. lia.
Qed.

Lemma fexp_eq (k : Z) : SpecFloat.fexp prec emax k = Z.max (k - 53) (-1074).
Proof. reflexivity. Qed.

Lemma fexp_mono (a b : Z) :
  a <= b -> SpecFloat.fexp prec emax a <= SpecFloat.fexp prec emax b.
Proof. rewrite !fexp_eq. lia. Qed.

Lemma shr_m_of_loc (m : Z) (l : location) : shr_m (shr_record_of_loc m l) = m.
Proof. destruct l as [|[]]; reflexivity. Qed.

Lemma shr_spec (mrs : shr_record) (e n : Z) :
  0 <= shr_m mrs ->
  shr_m (fst (shr mrs e n)) = shr_m mrs / 2 ^ Z.max 0 n
  /\ snd (shr mrs e n) = e + Z.max 0 n.
Proof.
  intros Hm. destruct n as [|p|p]; cbn [shr fst snd].
  - rewrite Z.div_1_r. split; [reflexivity | lia].
  - rewrite iter_pos_nat, shr_m_iter, positive_nat_Z by assumption.
    replace (Z.max 0 (Z.pos p)) with (Z.pos p) by lia. split; reflexivity.
  - replace (Z.max 0 (Z.neg p)) with 0 by lia.
    rewrite Z.div_1_r. split; [reflexivity | lia].
Qed.

Lemma shr_exact (m e n : Z) :
  0 <= m -> m mod 2 ^ Z.max 0 n = 0 ->
  fst (shr (Build_shr_record m false false) e n)
  = Build_shr_record (m / 2 ^ Z.max 0 n) false false.
Proof.
  intros Hm H. destruct n as [|p|p]; cbn [shr fst].
  - rewrite Z.div_1_r. reflexivity.
  - replace (Z.max 0 (Z.pos p)) with (Z.pos p) in * by lia.
    rewrite iter_pos_nat. rewrite <- (positive_nat_Z p) in *.
    apply shr_iter_exact; assumption.
  - replace (Z.max 0 (Z.neg p)) with 0 by lia.
    rewrite Z.div_1_r. reflexivity.
Qed.

Lemma round_nearest_even_bounds (m : Z) (l : location) :
  m <= round_nearest_even m l <= m + 1.
Proof.
  destruct l as [|[]]; cbn [round_nearest_even]; try lia.
  destruct (Z.even m); lia.
Qed.

(** The two shifts of [binary_round_aux], spelled out. *)
Lemma bra_spec (s : bool) (M E : Z) (l : location) :
  0 <= M ->
  exists m1 : Z,
    let n1 := Z.max 0 (SpecFloat.fexp prec emax (Zdigits2 M + E) - E) in
    let e1 := E + n1 in
    let n2 := Z.max 0 (SpecFloat.fexp prec emax (Zdigits2 m1 + e1) - e1) in
    let e2 := e1 + n2 in
    M / 2 ^ n1 <= m1 <= M / 2 ^ n1 + 1
    /\ (l = loc_Exact -> M mod 2 ^ n1 = 0 -> m1 = M / 2 ^ n1)
    /\ binary_round_aux prec emax s M E l =
       match m1 / 2 ^ n2 with
       | Z0 => S754_zero s
       | Zpos m => if e2 <=? emax - prec then S754_finite s m e2 else S754_infinity s
       | Zneg _ => S754_nan
       end.
Proof.
  intros HM.
  unfold binary_round_aux, shr_fexp.
  set (n1 := SpecFloat.fexp prec emax (Zdigits2 M + E) - E).
  pose proof (shr_spec (shr_record_of_loc M l) E n1) as H1.
  rewrite shr_m_of_loc in H1. specialize (H1 HM).
  assert (Hex : l = loc_Exact -> M mod 2 ^ Z.max 0 n1 = 0 ->
                fst (shr (shr_record_of_loc M l) E n1)
                = Build_shr_record (M / 2 ^ Z.max 0 n1) false false).
  { intros -> Hmod. apply shr_exact; assumption. }
  destruct (shr (shr_record_of_loc M l) E n1) as [mrs1 e1].
  cbn [fst snd] in H1, Hex. destruct H1 as [Hm1 He1].
  assert (Hp1 : 0 < 2 ^ Z.max 0 n1) by (apply Z.pow_pos_nonneg; lia).
  assert (Hq : 0 <= M / 2 ^ Z.max 0 n1) by (apply Z.div_pos; lia).
  set (m1 := round_nearest_even (shr_m mrs1) (loc_of_shr_record mrs1)).
  pose proof (round_nearest_even_bounds (shr_m mrs1) (loc_of_shr_record mrs1)) as Hb.
  fold m1 in Hb. rewrite Hm1 in Hb.
  exists m1. cbn zeta. split; [exact Hb|]. split.
  - intros Hl Hmod. unfold m1. rewrite (Hex Hl Hmod). reflexivity.
  - set (n2 := SpecFloat.fexp prec emax (Zdigits2 m1 + e1) - e1).
    pose proof (shr_spec (shr_record_of_loc m1 loc_Exact) e1 n2) as H2.
    rewrite shr_m_of_loc in H2. specialize (H2 ltac:(lia)).
    destruct (shr (shr_record_of_loc m1 loc_Exact) e1 n2) as [mrs2 e2].
    cbn [fst snd] in H2. destruct H2 as [Hm2 He2].
    rewrite Hm2, He2, He1. unfold n2. rewrite He1. reflexivity.
Qed.


Lemma mag_weaken (k k' : Z) (x : float) : k <= k' -> mag k x -> mag k' x.
Proof. destruct x; cbn [mag]; lia. Qed.

Lemma mag_finite (k : Z) (x : float) : mag k x -> is_finite x = true.
Proof. destruct x; cbn [mag is_finite]; tauto. Qed.


Lemma bra_coarse (s : bool) (M E : Z) (l : location) (k : Z) :
  0 <= M -> Zdigits2 M + E <= k -> -1074 <= k -> k + 1 <= emax ->
  E <= emax - prec ->
  mag (k + 1) (binary_round_aux prec emax s M E l)
  /\ signed s (binary_round_aux prec emax s M E l).
Proof.
  intros HM Hk Hmin Hmax HE.
  destruct (bra_spec s M E l HM) as (m1 & Hm1 & _ & ->).
  cbn zeta in *. rewrite !fexp_eq in *.
  set (n1 := Z.max 0 (Z.max (Zdigits2 M + E - 53) (-1074) - E)) in *.
  set (e1 := E + n1) in *.
  set (n2 := Z.max 0 (Z.max (Zdigits2 m1 + e1 - 53) (-1074) - e1)).
  assert (Hp1 : 0 < 2 ^ n1) by (apply Z.pow_pos_nonneg; lia).
  assert (Hp2 : 0 < 2 ^ n2) by (apply Z.pow_pos_nonneg; lia).
  assert (Hq : 0 <= M / 2 ^ n1) by (apply Z.div_pos; lia).
  pose proof (Zdigits2_nonneg M) as HdM.
  unfold emax, prec in *.
  assert (Hd1 : Zdigits2 m1 + e1 <= k + 1).
  { destruct (Z.eq_dec (M / 2 ^ n1) 0) as [Hz|Hnz].
    - assert (Zdigits2 m1 <= 1) by (apply Zdigits2_le; simpl; lia).
      unfold e1, n1. lia.
    - pose proof (Zdigits2_div_pow M n1 HM ltac:(lia) ltac:(lia)) as Hd.
      pose proof (Zdigits2_mono m1 (M / 2 ^ n1 + 1) ltac:(lia)).
      pose proof (Zdigits2_succ (M / 2 ^ n1) Hq).
      unfold e1. lia. }
  destruct (m1 / 2 ^ n2) as [|m|m] eqn:Hm2.
  - cbn [mag signed]. auto.
  - assert (Hd2 : Zdigits2 (m1 / 2 ^ n2) = Zdigits2 m1 - n2)
      by (apply Zdigits2_div_pow; lia).
    rewrite Hm2 in Hd2. cbn [Zdigits2] in Hd2.
    assert (He2 : e1 + n2 <= 1024 - 53) by (unfold n2, e1, n1 in *; lia).
    apply Z.leb_le in He2. rewrite He2. apply Z.leb_le in He2.
    cbn [mag signed]. unfold emax, prec. split; [lia | reflexivity].
  - exfalso. assert (0 <= m1 / 2 ^ n2) by (apply Z.div_pos; lia). lia.
Qed.

Lemma Pos_iter_xO (m d : positive) :
  Z.pos (Pos.iter xO m d) = Z.pos m * 2 ^ Z.pos d.
Proof.
  induction d as [|d IH] using Pos.peano_ind.
  - cbn [Pos.iter]. lia.
  - rewrite Pos.iter_succ, Pos2Z.inj_xO, IH, Pos2Z.inj_succ, Z.pow_succ_r by lia.
    lia.
Qed.

Lemma shl_align_spec (mx : positive) (ex ex' : Z) :
  snd (shl_align mx ex ex') = Z.min ex ex'
  /\ Z.pos (fst (shl_align mx ex ex')) = Z.pos mx * 2 ^ (ex - Z.min ex ex').
Proof.
  unfold shl_align. destruct (ex' - ex) as [|d|d] eqn:Hd; cbn [fst snd].
  - replace (Z.min ex ex') with ex by lia. rewrite Z.sub_diag. lia.
  - replace (Z.min ex ex') with ex by lia. rewrite Z.sub_diag. lia.
  - replace (Z.min ex ex') with ex' by lia.
    replace (ex - ex') with (Z.pos d) by lia.
    split; [reflexivity | apply Pos_iter_xO].
Qed.

Lemma binary_round_coarse (s : bool) (m : positive) (e k : Z) :
  Z.pos (digits2_pos m) + e <= k -> -1074 <= k -> k + 1 <= emax ->
  mag (k + 1) (binary_round prec emax s m e)
  /\ signed s (binary_round prec emax s m e).
Proof.
  intros Hk Hmin Hmax. unfold binary_round.
  pose proof (shl_align_spec m e (SpecFloat.fexp prec emax (Z.pos (digits2_pos m) + e)))
    as [He Hm].
  destruct (shl_align m e _) as [mz ez]. cbn [fst snd] in He, Hm.
  rewrite fexp_eq in He, Hm.
  assert (Hd : Zdigits2 (Z.pos mz) + ez = Z.pos (digits2_pos m) + e).
  { rewrite Hm, Zdigits2_mul_pow by lia. cbn [Zdigits2]. lia. }
  apply bra_coarse; unfold emax, prec in *; lia.
Qed.

Lemma binary_normalize_coarse (z e k : Z) (sz : bool) :
  Zdigits2 z + e <= k -> -1074 <= k -> k + 1 <= emax ->
  mag (k + 1) (binary_normalize prec emax z e sz).
Proof.
  intros Hk Hmin Hmax. destruct z as [|p|p]; cbn [binary_normalize].
  - exact I.
  - apply binary_round_coarse; assumption.
  - apply binary_round_coarse; assumption.
Qed.

Lemma binary_normalize_signed (z e k : Z) (sz : bool) :
  Zdigits2 z + e <= k -> -1074 <= k -> k + 1 <= emax ->
  signed (match z with Z0 => sz | Zpos _ => false | Zneg _ => true end)
         (binary_normalize prec emax z e sz).
Proof.
  intros Hk Hmin Hmax. destruct z as [|p|p]; cbn [binary_normalize].
  - reflexivity.
  - apply (binary_round_coarse false p e k); assumption.
  - apply (binary_round_coarse true p e k); assumption.
Qed.


Lemma bra_fine (s : bool) (M E : Z) (mb : positive) (eb : Z) :
  0 <= M ->
  canonical_mantissa prec emax mb eb = true -> eb <= emax - prec ->
  E <= eb -> M <= Z.pos mb * 2 ^ (eb - E) ->
  below mb eb (binary_round_aux prec emax s M E loc_Exact)
  /\ signed s (binary_round_aux prec emax s M E loc_Exact).
Proof.
  intros HM Hcan Heb HE HMb.
  unfold canonical_mantissa in Hcan. apply Z.eqb_eq in Hcan.
  destruct (bra_spec s M E loc_Exact HM) as (m1 & Hm1 & Hex & ->).
  specialize (Hex eq_refl). cbn zeta in *. rewrite !fexp_eq in *.
  set (n1 := Z.max 0 (Z.max (Zdigits2 M + E - 53) (-1074) - E)) in *.
  set (e1 := E + n1) in *.
  set (n2 := Z.max 0 (Z.max (Zdigits2 m1 + e1 - 53) (-1074) - e1)).
  assert (Hp1 : 0 < 2 ^ n1) by (apply Z.pow_pos_nonneg; lia).
  assert (Hp2 : 0 < 2 ^ n2) by (apply Z.pow_pos_nonneg; lia).
  assert (Hq : 0 <= M / 2 ^ n1) by (apply Z.div_pos; lia).
  (* the magnitude of M is at most that of the bound *)
  assert (HdM : Zdigits2 M + E <= Z.pos (digits2_pos mb) + eb).
  { pose proof (Zdigits2_mono M (Z.pos mb * 2 ^ (eb - E)) ltac:(lia)) as Hmo.
    rewrite Zdigits2_mul_pow in Hmo by lia. cbn [Zdigits2] in Hmo. lia. }
  assert (He1 : e1 <= eb) by (unfold e1, n1; lia).
  (* the first shift stays below the bound, and so does the rounding *)
  assert (Hsplit : 2 ^ (eb - E) = 2 ^ (eb - e1) * 2 ^ n1).
  { rewrite <- Z.pow_add_r by (unfold e1; lia). f_equal. unfold e1. lia. }
  assert (Hpb : 0 < 2 ^ (eb - e1)) by (apply Z.pow_pos_nonneg; lia).
  assert (Hm1b : m1 <= Z.pos mb * 2 ^ (eb - e1)).
  { assert (Hle : M / 2 ^ n1 <= Z.pos mb * 2 ^ (eb - e1)).
    { apply Z.div_le_upper_bound; [lia|]. rewrite Hsplit in HMb. lia. }
    destruct (Z.eq_dec (M / 2 ^ n1) (Z.pos mb * 2 ^ (eb - e1))) as [Heq|Hne]; [|lia].
    assert (Hmod : M mod 2 ^ n1 = 0).
    { pose proof (Z.div_mod M (2 ^ n1) ltac:(lia)) as Hdm.
      pose proof (Z.mod_pos_bound M (2 ^ n1) Hp1).
      rewrite Heq in Hdm. rewrite Hsplit in HMb. lia. }
    rewrite (Hex Hmod). lia. }
  assert (Hd1 : Zdigits2 m1 + e1 <= Z.pos (digits2_pos mb) + eb).
  { pose proof (Zdigits2_mono m1 (Z.pos mb * 2 ^ (eb - e1)) ltac:(lia)) as Hmo.
    rewrite Zdigits2_mul_pow in Hmo by lia. cbn [Zdigits2] in Hmo. lia. }
  assert (He2 : e1 + n2 <= eb) by (unfold n2; lia).
  destruct (m1 / 2 ^ n2) as [|m|m] eqn:Hm2.
  - cbn [below signed]. auto.
  - assert (Hle : (e1 + n2 <=? emax - prec) = true) by (apply Z.leb_le; lia).
    rewrite Hle. cbn [below signed]. split; [|reflexivity]. split; [exact He2|].
    rewrite <- Hm2. apply Z.div_le_upper_bound; [lia|].
    replace (eb - e1) with ((eb - (e1 + n2)) + n2) in Hm1b by lia.
    rewrite Z.pow_add_r in Hm1b by lia. lia.
  - exfalso. assert (0 <= m1 / 2 ^ n2) by (apply Z.div_pos; lia). lia.
Qed.

Lemma binary_round_fine (s : bool) (m : positive) (e : Z) (mb : positive) (eb : Z) :
  canonical_mantissa prec emax mb eb = true -> eb <= emax - prec ->
  e <= eb -> Z.pos m <= Z.pos mb * 2 ^ (eb - e) ->
  below mb eb (binary_round prec emax s m e)
  /\ signed s (binary_round prec emax s m e).
Proof.
  intros Hcan Heb He Hm. unfold binary_round.
  pose proof (shl_align_spec m e (SpecFloat.fexp prec emax (Z.pos (digits2_pos m) + e)))
    as [Hez Hmz].
  destruct (shl_align m e _) as [mz ez]. cbn [fst snd] in Hez, Hmz.
  rewrite <- Hez in Hmz.
  apply bra_fine; try assumption; try lia.
  rewrite Hmz.
  replace (eb - ez) with ((eb - e) + (e - ez)) by lia.
  rewrite Z.pow_add_r by lia.
  assert (0 < 2 ^ (e - ez)) by (apply Z.pow_pos_nonneg; lia).
  rewrite Z.mul_assoc. apply Z.mul_le_mono_nonneg_r; lia.
Qed.

Lemma Zdigits2_cond_Zopp (s : bool) (z : Z) : Zdigits2 (cond_Zopp s z) = Zdigits2 z.
Proof. destruct s, z; reflexivity. Qed.

Lemma Zdigits2_abs (z : Z) : Zdigits2 (Z.abs z) = Zdigits2 z.
Proof. destruct z; reflexivity. Qed.

Lemma shiftl_pos_pow (m : positive) (n : Z) :
  0 <= n -> Z.shiftl (Z.pos m) n = Z.pos m * 2 ^ n.
Proof. intros Hn. apply Z.shiftl_mul_pow2. exact Hn. Qed.

Lemma below_mag (mb : positive) (eb : Z) (x : float) :
  eb <= emax - prec -> below mb eb x -> mag (Z.pos (digits2_pos mb) + eb) x.
Proof.
  intros Heb. destruct x as [s| | |s m e]; cbn [below mag]; try tauto.
  intros [He Hm]. split; [|lia].
  pose proof (Zdigits2_mono (Z.pos m) (Z.pos mb * 2 ^ (eb - e)) ltac:(lia)) as Hmo.
  rewrite Zdigits2_mul_pow in Hmo by lia. cbn [Zdigits2] in Hmo. lia.
Qed.

Lemma valid_mag (s : bool) (m : positive) (e : Z) :
  valid (S754_finite s m e) = true -> mag emax (S754_finite s m e).
Proof.
  unfold valid, valid_binary, bounded, canonical_mantissa.
  intros H. apply andb_true_iff in H. destruct H as [Hc He].
  apply Z.eqb_eq in Hc. apply Z.leb_le in He. rewrite fexp_eq in Hc.
  cbn [mag]. unfold emax, prec in *. lia.
Qed.

(** ** [fmod] *)

Lemma fmod_finite_eq (sx : bool) (mx : positive) (ex : Z) (sy : bool) (my : positive) (ey : Z) :
  exists R : Z,
    0 <= R < Z.pos my * 2 ^ (ey - Z.min ex ey)
    /\ R <= Z.pos mx * 2 ^ (ex - Z.min ex ey)
    /\ fmod (S754_finite sx mx ex) (S754_finite sy my ey)
       = binary_normalize prec emax (cond_Zopp sx R) (Z.min ex ey) sx.
Proof.
  cbn [fmod]. rewrite !shiftl_pos_pow by lia.
  set (X := Z.pos mx * 2 ^ (ex - Z.min ex ey)).
  set (Y := Z.pos my * 2 ^ (ey - Z.min ex ey)).
  assert (HY : 0 < Y).
  { apply Z.mul_pos_pos; [lia | apply Z.pow_pos_nonneg; lia]. }
  assert (HX : 0 < X).
  { apply Z.mul_pos_pos; [lia | apply Z.pow_pos_nonneg; lia]. }
  exists (X mod Y). split; [apply Z.mod_pos_bound; exact HY|].
  split; [apply Z.mod_le; lia | reflexivity].
Qed.

Lemma fmod_mag (x : float) (sy : bool) (my : positive) (ey : Z) :
  is_finite x = true ->
  -1074 <= Z.pos (digits2_pos my) + ey -> Z.pos (digits2_pos my) + ey + 1 <= emax ->
  mag (Z.pos (digits2_pos my) + ey + 1) (fmod x (S754_finite sy my ey))
  /\ signed (signbit x) (fmod x (S754_finite sy my ey)).
Proof.
  intros Hx Hlo Hhi. destruct x as [s| | |sx mx ex]; try discriminate.
  - cbn [fmod mag signed signbit]. auto.
  - destruct (fmod_finite_eq sx mx ex sy my ey) as (R & [HR0 HRY] & _ & ->).
    assert (Hd : Zdigits2 (cond_Zopp sx R) + Z.min ex ey <= Z.pos (digits2_pos my) + ey).
    { rewrite Zdigits2_cond_Zopp.
      pose proof (Zdigits2_mono R (Z.pos my * 2 ^ (ey - Z.min ex ey)) ltac:(lia)) as Hmo.
      rewrite Zdigits2_mul_pow in Hmo by lia. cbn [Zdigits2] in Hmo. lia. }
    split; [apply binary_normalize_coarse; assumption|].
    pose proof (binary_normalize_signed _ _ _ sx Hd Hlo Hhi) as Hs.
    cbn [signbit]. destruct sx, R; cbn [cond_Zopp Z.opp] in *; try exact Hs; lia.
Qed.

Lemma fmod_below (sx : bool) (mx : positive) (ex : Z) (sy : bool) (my : positive) (ey : Z) :
  valid (S754_finite sx mx ex) = true ->
  below mx ex (fmod (S754_finite sx mx ex) (S754_finite sy my ey)).
Proof.
  unfold valid, valid_binary, bounded. intros H.
  apply andb_true_iff in H. destruct H as [Hc He]. apply Z.leb_le in He.
  destruct (fmod_finite_eq sx mx ex sy my ey) as (R & [HR0 HRY] & HRX & ->).
  destruct R as [|r|r]; try lia.
  - destruct sx; exact I.
  - assert (Hr : below mx ex (binary_round prec emax sx r (Z.min ex ey))).
    { apply binary_round_fine; try assumption; lia. }
    destruct sx; exact Hr.
Qed.

(** ** Subtraction of a smaller float of the same sign *)

Lemma sub_below (mx : positive) (ex : Z) (y : float) :
  valid (S754_finite false mx ex) = true ->
  below mx ex y -> signed false y ->
  mag emax (sub (S754_finite false mx ex) y).
Proof.
  intros Hv Hb Hs. pose proof (valid_mag _ _ _ Hv) as Hmx.
  unfold valid, valid_binary, bounded in Hv.
  apply andb_true_iff in Hv. destruct Hv as [Hc He]. apply Z.leb_le in He.
  destruct y as [s| | |sy my ey]; cbn [below signed] in *; try tauto.
  subst sy. destruct Hb as [Hey Hmy].
  unfold sub. cbn [SFsub cond_Zopp].
  replace (Z.min ex ey) with ey by lia.
  pose proof (shl_align_spec mx ex ey) as [_ H1].
  pose proof (shl_align_spec my ey ey) as [_ H2].
  replace (Z.min ex ey) with ey in H1 by lia.
  replace (Z.min ey ey) with ey in H2 by lia.
  rewrite Z.sub_diag in H2. rewrite H1, H2.
  set (M := Z.pos mx * 2 ^ (ex - ey) - Z.pos my * 2 ^ 0).
  assert (HM : 0 <= M <= Z.pos mx * 2 ^ (ex - ey)) by (unfold M; lia).
  destruct M as [|m|m]; cbn [binary_normalize]; try lia.
  - exact I.
  - pose proof (binary_round_fine false m ey mx ex Hc He Hey ltac:(lia)) as [Hbl _].
    apply (below_mag _ _ _ He) in Hbl.
    eapply mag_weaken; [|exact Hbl]. cbn [mag] in Hmx. lia.
Qed.

(** ** Coarse bounds for the arithmetic operations *)

Lemma div_mag (k : Z) (x : float) (sy : bool) (my : positive) (ey : Z) :
  mag k x ->
  -1074 <= k - (Z.pos (digits2_pos my) + ey) + 1 ->
  k - (Z.pos (digits2_pos my) + ey) + 2 <= emax ->
  mag (k - (Z.pos (digits2_pos my) + ey) + 2) (div x (S754_finite sy my ey)).
Proof.
  intros Hx Hlo Hhi. destruct x as [s| | |sx mx ex]; cbn [mag] in Hx; try contradiction.
  - exact I.
  - destruct Hx as [Hk Hex].
    unfold div. cbn [SFdiv]. unfold SFdiv_core_binary. cbn [Zdigits2].
    rewrite fexp_eq.
    set (d1 := Z.pos (digits2_pos mx)) in *.
    set (d2 := Z.pos (digits2_pos my)) in *.
    set (e' := Z.min (Z.max (d1 + ex - (d2 + ey) - 53) (-1074)) (ex - ey)).
    assert (Hs : 0 <= ex - ey - e') by (unfold e'; lia).
    set (m' := match ex - ey - e' with
               | Z0 => Z.pos mx
               | Zpos _ => Z.shiftl (Z.pos mx) (ex - ey - e')
               | Zneg _ => 0
               end).
    assert (Hm' : m' = Z.pos mx * 2 ^ (ex - ey - e')).
    { unfold m'. destruct (ex - ey - e') as [|p|p] eqn:E; try lia.
      apply Z.shiftl_mul_pow2. lia. }
    pose proof (Z.div_mod m' (Z.pos my) ltac:(lia)) as Hdm.
    pose proof (Z.mod_pos_bound m' (Z.pos my) ltac:(lia)) as Hmod.
    unfold Z.div, Z.modulo in Hdm, Hmod.
    destruct (Z.div_eucl m' (Z.pos my)) as [q r]. cbn [fst snd] in *.
    assert (Hpw : 0 < 2 ^ (ex - ey - e')) by (apply Z.pow_pos_nonneg; lia).
    assert (Hq0 : 0 <= q) by nia.
    assert (Hdq : Zdigits2 q + e' <= k - (d2 + ey) + 1).
    { destruct (Z.eq_dec q 0) as [->|Hq]; [cbn [Zdigits2]; unfold e'; lia|].
      pose proof (Zdigits2_spec (Z.pos my) ltac:(lia)) as [Hlo2 _].
      pose proof (Zdigits2_spec m' ltac:(lia)) as [_ Hhi1].
      rewrite Hm' in Hhi1 at 2. rewrite Zdigits2_mul_pow in Hhi1 by lia.
      cbn [Zdigits2] in Hlo2, Hhi1. fold d1 d2 in Hlo2, Hhi1.
      assert (Hle : Zdigits2 q <= d1 + (ex - ey - e') - d2 + 1).
      { destruct (Z.le_gt_cases 0 (d1 + (ex - ey - e') - d2 + 1)) as [Hnn|Hneg].
        - apply Zdigits2_le; [lia | lia |].
          assert (Hpd : 0 < 2 ^ (d2 - 1)) by (apply Z.pow_pos_nonneg; unfold d2; lia).
          apply Z.mul_lt_mono_pos_l with (2 ^ (d2 - 1)); [lia|].
          rewrite <- Z.pow_add_r by (unfold d2; lia).
          replace (d2 - 1 + (d1 + (ex - ey - e') - d2 + 1)) with (d1 + (ex - ey - e')) by lia.
          nia.
        - exfalso.
          assert (Hlt : 2 ^ (d1 + (ex - ey - e')) <= 2 ^ (d2 - 1)).
          { apply Z.pow_le_mono_r; unfold d1, d2; lia. }
          nia. }
      lia. }
    replace (k - (d2 + ey) + 2) with (k - (d2 + ey) + 1 + 1) by lia.
    apply bra_coarse; unfold emax, prec, e' in *; lia.
Qed.

Lemma aligned_lt (m : positive) (e ez k : Z) :
  ez <= e -> Z.pos (digits2_pos m) + e <= k ->
  Z.pos m * 2 ^ (e - ez) < 2 ^ (k - ez).
Proof.
  intros He Hk.
  pose proof (Zdigits2_spec (Z.pos m) ltac:(lia)) as [_ Hu]. cbn [Zdigits2] in Hu.
  assert (Hp : 0 < 2 ^ (e - ez)) by (apply Z.pow_pos_nonneg; lia).
  apply Z.lt_le_trans with (2 ^ Z.pos (digits2_pos m) * 2 ^ (e - ez)); [nia|].
  rewrite <- Z.pow_add_r by lia. apply Z.pow_le_mono_r; lia.
Qed.

Lemma addsub_normalize_mag (sx sy : bool) (mx my : positive) (ex ey kx ky : Z) (neg : bool) :
  Z.pos (digits2_pos mx) + ex <= kx -> Z.pos (digits2_pos my) + ey <= ky ->
  -1074 <= Z.max kx ky + 1 -> Z.max kx ky + 2 <= emax ->
  let ez := Z.min ex ey in
  let a := cond_Zopp sx (Z.pos (fst (shl_align mx ex ez))) in
  let b := cond_Zopp sy (Z.pos (fst (shl_align my ey ez))) in
  mag (Z.max kx ky + 2)
      (binary_normalize prec emax (if neg then a - b else a + b) ez false).
Proof.
  intros Hkx Hky Hlo Hhi ez a b.
  pose proof (shl_align_spec mx ex ez) as [_ H1].
  pose proof (shl_align_spec my ey ez) as [_ H2].
  replace (Z.min ex ez) with ez in H1 by (unfold ez; lia).
  replace (Z.min ey ez) with ez in H2 by (unfold ez; lia).
  pose proof (aligned_lt mx ex ez (Z.max kx ky) ltac:(unfold ez; lia) ltac:(lia)) as Ha.
  pose proof (aligned_lt my ey ez (Z.max kx ky) ltac:(unfold ez; lia) ltac:(lia)) as Hb.
  rewrite <- H1 in Ha. rewrite <- H2 in Hb.
  assert (Hez : ez <= Z.max kx ky) by (unfold ez; lia).
  assert (Habs : Z.abs (if neg then a - b else a + b) < 2 ^ (Z.max kx ky - ez + 1)).
  { rewrite Z.pow_add_r by lia. unfold a, b.
    destruct neg, sx, sy; cbn [cond_Zopp]; lia. }
  replace (Z.max kx ky + 2) with (Z.max kx ky + 1 + 1) by lia.
  apply binary_normalize_coarse; try lia.
  rewrite <- Zdigits2_abs.
  pose proof (Zdigits2_le (Z.abs (if neg then a - b else a + b)) (Z.max kx ky - ez + 1)
                ltac:(lia) ltac:(lia) Habs).
  lia.
Qed.

Lemma add_mag (kx ky : Z) (x y : float) :
  mag kx x -> mag ky y ->
  -1074 <= Z.max kx ky + 1 -> Z.max kx ky + 2 <= emax ->
  mag (Z.max kx ky + 2) (add x y).
Proof.
  intros Hx Hy Hlo Hhi.
  destruct x as [sx| | |sx mx ex], y as [sy| | |sy my ey];
    cbn [mag] in Hx, Hy; try contradiction.
  - unfold add. cbn [SFadd]. destruct sx, sy; exact I.
  - unfold add. cbn [SFadd mag]. lia.
  - unfold add. cbn [SFadd mag]. lia.
  - destruct Hx as [Hkx _], Hy as [Hky _].
    apply (addsub_normalize_mag sx sy mx my ex ey kx ky false); assumption.
Qed.

Lemma sub_mag (kx ky : Z) (x y : float) :
  mag kx x -> mag ky y ->
  -1074 <= Z.max kx ky + 1 -> Z.max kx ky + 2 <= emax ->
  mag (Z.max kx ky + 2) (sub x y).
Proof.
  intros Hx Hy Hlo Hhi.
  destruct x as [sx| | |sx mx ex], y as [sy| | |sy my ey];
    cbn [mag] in Hx, Hy; try contradiction.
  - unfold sub. cbn [SFsub]. destruct sx, sy; exact I.
  - unfold sub. cbn [SFsub mag]. lia.
  - unfold sub. cbn [SFsub mag]. lia.
  - destruct Hx as [Hkx _], Hy as [Hky _].
    apply (addsub_normalize_mag sx sy mx my ex ey kx ky true); assumption.
Qed.

Lemma mul_mag (kx ky : Z) (x y : float) :
  mag kx x -> mag ky y ->
  -1074 <= kx + ky -> kx + ky + 1 <= emax -> kx + ky - 2 <= emax - prec ->
  mag (kx + ky + 1) (mul x y)
  /\ signed (xorb (signbit x) (signbit y)) (mul x y).
Proof.
  intros Hx Hy Hlo Hhi HE.
  destruct x as [sx| | |sx mx ex], y as [sy| | |sy my ey];
    cbn [mag] in Hx, Hy; try contradiction;
    unfold mul; cbn [SFmul mag signed signbit]; auto.
  destruct Hx as [Hkx _], Hy as [Hky _].
  pose proof (Zdigits2_spec (Z.pos mx) ltac:(lia)) as [_ Hux].
  pose proof (Zdigits2_spec (Z.pos my) ltac:(lia)) as [_ Huy].
  cbn [Zdigits2] in Hux, Huy.
  assert (Hd : Zdigits2 (Z.pos (mx * my)) <= Z.pos (digits2_pos mx) + Z.pos (digits2_pos my)).
  { apply Zdigits2_le; try lia. rewrite Pos2Z.inj_mul, Z.pow_add_r by lia. nia. }
  apply bra_coarse; try lia.
Qed.

Lemma floor_mag (k : Z) (x : float) :
  mag k x -> Z.max k 0 + 2 <= emax -> mag (Z.max k 0 + 2) (floor x).
Proof.
  intros Hx Hhi. destruct x as [s| | |s m e]; cbn [mag] in Hx; try contradiction.
  - exact I.
  - destruct Hx as [Hk He]. cbn [floor].
    destruct (0 <=? e) eqn:Hpos.
    + cbn [mag]. split; [lia | exact He].
    + apply Z.leb_gt in Hpos.
      replace (Z.max k 0 + 2) with (Z.max k 0 + 1 + 1) by lia.
      apply binary_normalize_coarse; try lia.
      unfold floorZ. rewrite Z.shiftl_div_pow2 by lia.
      rewrite <- Zdigits2_abs.
      assert (Hp : 0 < 2 ^ (- e)) by (apply Z.pow_pos_nonneg; lia).
      pose proof (aligned_lt m e e (Z.max k 0) ltac:(lia) ltac:(lia)) as Hm.
      rewrite Z.sub_diag, Z.mul_1_r in Hm.
      replace (Z.max k 0 - e) with (Z.max k 0 + - e) in Hm by lia.
      rewrite Z.pow_add_r in Hm by lia.
      assert (HK : 0 < 2 ^ Z.max k 0) by (apply Z.pow_pos_nonneg; lia).
      assert (Hq : Z.abs (cond_Zopp s (Z.pos m) / 2 ^ (- e)) <= 2 ^ Z.max k 0).
      { pose proof (Z.div_mod (cond_Zopp s (Z.pos m)) (2 ^ (- e)) ltac:(lia)) as Hdm.
        pose proof (Z.mod_pos_bound (cond_Zopp s (Z.pos m)) (2 ^ (- e)) Hp) as Hmb.
        destruct s; cbn [cond_Zopp] in *; nia. }
      assert (Hd : Zdigits2 (Z.abs (cond_Zopp s (Z.pos m) / 2 ^ (- e))) <= Z.max k 0 + 1).
      { apply Zdigits2_le; try lia. rewrite Z.pow_add_r by lia. lia. }
      lia.
Qed.

End F64Facts.

(* ===================================================================== *)
(** * [format_duration] never raises on a non-negative duration *)
(* ===================================================================== *)

Module DurationFacts.
Import F64 F64Facts.

Lemma one_mag : mag 1 (of_Z 1).
Proof. vm_compute. split; discriminate. Qed.

Lemma float_div_mod_mag (K dw : Z) (vx wx : float) (sw : bool) (mw : positive) (ew : Z) :
  wx = S754_finite sw mw ew ->
  dw = Z.pos (digits2_pos mw) + ew ->
  is_finite vx = true ->
  mag K (sub vx (fmod vx wx)) ->
  ew <= emax - prec ->
  -1074 <= dw -> dw + 3 <= emax ->
  -1074 <= K - dw + 1 -> Z.max (K - dw + 2) 1 + 6 <= emax ->
  mag (Z.max (K - dw + 2) 1 + 6) (fst (float_div_mod vx wx))
  /\ mag (dw + 3) (snd (float_div_mod vx wx)).
Proof.
  intros Ewx Edw Hfin Hsub Hew Hlo Hhi HKlo HKhi.
  assert (Hwx : mag dw wx) by (rewrite Ewx; cbn [mag]; lia).
  destruct (fmod_mag vx sw mw ew Hfin ltac:(lia) ltac:(lia)) as [Hmd _].
  rewrite <- Edw, <- Ewx in Hmd.
  rewrite Ewx in Hsub.
  pose proof (div_mag K _ sw mw ew Hsub ltac:(lia) ltac:(lia)) as Hdv.
  rewrite <- Edw, <- Ewx in Hdv. rewrite <- Ewx in Hsub.
  set (k0 := Z.max (K - dw + 2) 1) in *.
  apply (mag_weaken _ k0) in Hdv; [|unfold k0; lia].
  unfold float_div_mod.
  set (md := fmod vx wx) in *. set (dv := div (sub vx md) wx) in *.
  assert (Hpair :
    forall p : float * float,
      p = (if nonzero md
           then if xorb (ltb wx zero) (ltb md zero)
                then (add md wx, sub dv (of_Z 1)) else (md, dv)
           else (copysign_zero wx, dv)) ->
      mag (dw + 3) (fst p) /\ mag (k0 + 2) (snd p)).
  { intros p ->. destruct (nonzero md); [destruct (xorb _ _)|]; cbn [fst snd].
    - split.
      + eapply mag_weaken; [|apply (add_mag _ _ _ _ Hmd Hwx); lia]. lia.
      + eapply mag_weaken; [|apply (sub_mag _ _ _ _ Hdv one_mag); unfold k0; lia].
        unfold k0. lia.
    - split; eapply mag_weaken; try eassumption; lia.
    - split; [exact I | eapply mag_weaken; try eassumption; lia]. }
  destruct (if nonzero md then _ else _) as [md' dv'] eqn:Hp.
  destruct (Hpair _ eq_refl) as [Hmd' Hdv']. cbn [fst snd] in *.
  split; [|exact Hmd'].
  destruct (nonzero dv').
  - pose proof (floor_mag _ _ Hdv' ltac:(unfold k0 in *; lia)) as Hfl.
    clear Hp. destruct (ltb (ratio 1 2) _).
    + eapply mag_weaken; [|apply (add_mag _ _ _ _ Hfl one_mag); unfold k0 in *; lia].
      unfold k0. lia.
    + eapply mag_weaken; [|exact Hfl]. unfold k0. lia.
  - exact I.
Qed.

(** Subtracting the remainder from a valid non-negative float. *)
Lemma sub_fmod_mag (x : float) (sw : bool) (mw : positive) (ew : Z) :
  valid x = true -> is_finite x = true -> leb zero x = true ->
  -1074 <= Z.pos (digits2_pos mw) + ew -> Z.pos (digits2_pos mw) + ew + 1 <= emax ->
  mag emax (sub x (fmod x (S754_finite sw mw ew))).
Proof.
  intros Hv Hf Hpos Hlo Hhi.
  destruct x as [s| | |s m e]; try discriminate.
  - destruct s; exact I.
  - destruct s; [discriminate|].
    apply sub_below; [exact Hv | apply fmod_below; exact Hv |].
    apply (fmod_mag (S754_finite false m e) sw mw ew eq_refl Hlo Hhi).
Qed.

Lemma py_float_mod_snd (vx wx : float) :
  eqb wx zero = false -> py_float_mod vx wx = Ok (snd (float_div_mod vx wx)).
Proof.
  intros Hw. unfold py_float_mod, float_div_mod. rewrite Hw.
  destruct (nonzero (fmod vx wx)); [destruct (xorb _ _)|]; reflexivity.
Qed.

Lemma float_mod_mag (dw : Z) (vx wx : float) (sw : bool) (mw : positive) (ew : Z) :
  wx = S754_finite sw mw ew ->
  dw = Z.pos (digits2_pos mw) + ew ->
  is_finite vx = true ->
  ew <= emax - prec -> -1074 <= dw -> dw + 3 <= emax ->
  mag (dw + 3) (snd (float_div_mod vx wx)).
Proof.
  intros Ewx Edw Hfin Hew Hlo Hhi.
  assert (Hwx : mag dw wx) by (rewrite Ewx; cbn [mag]; lia).
  destruct (fmod_mag vx sw mw ew Hfin ltac:(lia) ltac:(lia)) as [Hmd _].
  rewrite <- Edw, <- Ewx in Hmd.
  unfold float_div_mod.
  destruct (nonzero (fmod vx wx)); [destruct (xorb _ _)|]; cbn [snd].
  - eapply mag_weaken; [|apply (add_mag _ _ _ _ Hmd Hwx); lia]. lia.
  - eapply mag_weaken; [|exact Hmd]. lia.
  - exact I.
Qed.

(** The remainder of a non-negative float by a positive one is
    non-negative and below the divisor. *)
Lemma float_mod_nonneg (dw : Z) (x wx : float) (mw : positive) (ew : Z) :
  wx = S754_finite false mw ew ->
  dw = Z.pos (digits2_pos mw) + ew ->
  is_finite x = true -> leb zero x = true ->
  -1074 <= dw -> dw + 1 <= emax ->
  mag (dw + 1) (snd (float_div_mod x wx))
  /\ signed false (snd (float_div_mod x wx)).
Proof.
  intros Ewx Edw Hfin Hpos Hlo Hhi.
  destruct (fmod_mag x false mw ew Hfin ltac:(lia) ltac:(lia)) as [Hmd Hsg].
  rewrite <- Edw, <- Ewx in Hmd. rewrite <- Ewx in Hsg.
  unfold float_div_mod.
  destruct (nonzero (fmod x wx)) eqn:Hnz; cbn [snd].
  - assert (Hsx : signbit x = false).
    { destruct x as [s| | |s m e]; try discriminate.
      - destruct s; [|reflexivity]. rewrite Ewx in Hnz. discriminate.
      - destruct s; [discriminate | reflexivity]. }
    rewrite Hsx in Hsg.
    assert (Hlt : ltb (fmod x wx) zero = false).
    { destruct (fmod x wx) as [s| | |s m e]; cbn [signed] in Hsg; try contradiction.
      - reflexivity.
      - subst s. reflexivity. }
    rewrite Hlt, Ewx. cbn [ltb SFltb SFcompare xorb zero]. rewrite <- Ewx.
    split; assumption.
  - rewrite Ewx. split; [exact I | reflexivity].
Qed.

Lemma py_int_finite (x : float) :
  is_finite x = true -> exists z, py_int (PyFloat x) = Ok z.
Proof. destruct x; try discriminate; intros _; eexists; reflexivity. Qed.

Lemma py_floordiv_float (x w : float) (z : Z) :
  py_float_of_int z = Ok w -> eqb w zero = false ->
  py_floordiv (PyFloat x) (PyInt z) = Ok (PyFloat (fst (float_div_mod x w))).
Proof.
  intros Hz Hw. unfold py_floordiv, to_float. cbn [rbind]. rewrite Hz. cbn [rbind].
  unfold py_float_floordiv. rewrite Hw. reflexivity.
Qed.

Lemma py_mod_float (x w : float) (z : Z) :
  py_float_of_int z = Ok w -> eqb w zero = false ->
  py_mod (PyFloat x) (PyInt z) = Ok (PyFloat (snd (float_div_mod x w))).
Proof.
  intros Hz Hw. unfold py_mod, to_float. cbn [rbind]. rewrite Hz. cbn [rbind].
  rewrite (py_float_mod_snd x w Hw). reflexivity.
Qed.

(** The sub-second field: [int] and [floor] agree on the product. *)
Lemma subsecond_float (x : float) :
  valid x = true -> is_finite x = true -> leb zero x = true ->
  exists frames : Z,
    py_int (PyFloat (mul (snd (float_div_mod x
                                 (S754_finite false 4503599627370496 (-52))))
                         (S754_finite false 6755399441055744 (-48)))) = Ok frames
    /\ py_floor (PyFloat (mul (snd (float_div_mod x
                                      (S754_finite false 4503599627370496 (-52))))
                              (S754_finite false 6755399441055744 (-48)))) = Ok frames.
Proof.
  intros Hv Hf Hpos.
  set (w1 := S754_finite false 4503599627370496 (-52)).
  set (w24 := S754_finite false 6755399441055744 (-48)).
  destruct (float_mod_nonneg 1 x w1 4503599627370496 (-52)
              eq_refl eq_refl Hf Hpos ltac:(lia) ltac:(unfold emax; lia)) as [Hf1 Hf1s].
  set (f := snd (float_div_mod x w1)) in *.
  assert (H24 : mag 5 w24) by (cbn; unfold emax, prec; lia).
  destruct (mul_mag _ _ f w24 Hf1 H24) as [Hp Hps]; try (unfold emax, prec; lia).
  assert (Hfs : signbit f = false).
  { destruct f as [s| | |s m e]; cbn [signed] in Hf1s; try contradiction; exact Hf1s. }
  rewrite Hfs in Hps. cbn [signbit w24 xorb] in Hps.
  set (p := mul f w24) in *.
  destruct p as [s| | |s m e]; cbn [signed mag] in Hps, Hp; try contradiction.
  - exists 0. split; reflexivity.
  - subst s. exists (floorZ false m e). split; reflexivity.
Qed.

Lemma format_duration_float (x : float) :
  valid x = true -> is_finite x = true -> leb zero x = true ->
  exists hours minutes secs frames : Z,
    subsecond_frames (PyFloat x) = Ok frames
    /\ format_duration (PyFloat x)
       = Ok (format_02d hours ++ colon ++ format_02d minutes ++ colon
             ++ format_02d secs ++ colon ++ format_02d frames).
Proof.
  intros Hv Hf Hpos.
  set (w3600 := S754_finite false 7916483719987200 (-41)).
  set (w60 := S754_finite false 8444249301319680 (-47)).
  set (w1 := S754_finite false 4503599627370496 (-52)).
  set (w24 := S754_finite false 6755399441055744 (-48)).
  (* hours *)
  pose proof (sub_fmod_mag x false 7916483719987200 (-41) Hv Hf Hpos
                ltac:(cbn; lia) ltac:(cbn; unfold emax; lia)) as Hs1.
  destruct (float_div_mod_mag emax 12 x w3600 false 7916483719987200 (-41)
              eq_refl eq_refl Hf Hs1) as [Hh Hm1];
    try (unfold emax, prec; lia).
  destruct (py_int_finite _ (mag_finite _ _ Hh)) as [hours Hhours].
  (* minutes *)
  set (r := snd (float_div_mod x w3600)) in *.
  assert (Hr : is_finite r = true) by (eapply mag_finite; exact Hm1).
  destruct (fmod_mag r false 8444249301319680 (-47) Hr
              ltac:(cbn; lia) ltac:(cbn; unfold emax; lia)) as [Hmd2 _].
  pose proof (sub_mag _ _ _ _ Hm1 Hmd2 ltac:(cbn; lia) ltac:(cbn; unfold emax; lia)) as Hs2.
  destruct (float_div_mod_mag _ 6 r w60 false 8444249301319680 (-47)
              eq_refl eq_refl Hr Hs2) as [Hmin _];
    try (cbn; unfold emax, prec; lia).
  destruct (py_int_finite _ (mag_finite _ _ Hmin)) as [minutes Hminutes].
  (* seconds *)
  pose proof (float_mod_mag 6 x w60 false 8444249301319680 (-47)
                eq_refl eq_refl Hf) as Hsec.
  specialize (Hsec ltac:(unfold emax, prec; lia) ltac:(lia) ltac:(unfold emax; lia)).
  destruct (py_int_finite _ (mag_finite _ _ Hsec)) as [secs Hsecs].
  (* frames *)
  destruct (float_mod_nonneg 1 x w1 4503599627370496 (-52)
              eq_refl eq_refl Hf Hpos ltac:(lia) ltac:(unfold emax; lia)) as [Hf1 Hf1s].
  set (f := snd (float_div_mod x w1)) in *.
  assert (H24 : mag 5 w24) by (cbn; unfold emax, prec; lia).
  destruct (mul_mag _ _ f w24 Hf1 H24) as [Hp Hps]; try (unfold emax, prec; lia).
  assert (Hfs : signbit f = false).
  { destruct f as [s| | |s m e]; cbn [signed] in Hf1s; try contradiction; exact Hf1s. }
  rewrite Hfs in Hps. cbn [signbit w24 xorb] in Hps.
  set (p := mul f w24) in *.
  assert (Hfr : exists frames, py_int (PyFloat p) = Ok frames
                               /\ py_floor (PyFloat p) = Ok frames).
  { destruct p as [s| | |s m e]; cbn [signed mag] in Hps, Hp; try contradiction.
    - exists 0. split; reflexivity.
    - subst s. exists (floorZ false m e). split; reflexivity. }
  destruct Hfr as (frames & Hfr1 & Hfr2).
  exists hours, minutes, secs, frames.
  unfold subsecond_frames, format_duration.
  rewrite (py_floordiv_float x w3600 3600 eq_refl eq_refl).
  rewrite (py_mod_float x w3600 3600 eq_refl eq_refl).
  rewrite (py_mod_float x w60 60 eq_refl eq_refl).
  rewrite (py_mod_float x w1 1 eq_refl eq_refl).
  cbn [rbind]. fold r f. rewrite Hhours. cbn [rbind].
  rewrite (py_floordiv_float r w60 60 eq_refl eq_refl). cbn [rbind].
  rewrite Hminutes. cbn [rbind]. rewrite Hsecs. cbn [rbind].
  assert (Hmul : py_mul (PyFloat f) (PyInt 24) = Ok (PyFloat p)) by reflexivity.
  rewrite Hmul. cbn [rbind]. rewrite Hfr1, Hfr2. cbn [rbind].
  split; reflexivity.
Qed.

End DurationFacts.

(* ===================================================================== *)
(** * Operations that are exact *)
(* ===================================================================== *)

(** The floats of [format_duration] stay exact as long as the whole seconds
    fit the mantissa: remainders are always exact, and the differences and
    quotients that make the fields are integers below [2 ^ 53]. *)
Module F64Exact.
Import F64 F64Facts.

Lemma pow2_pos (n : Z) : 0 <= n -> 0 < 2 ^ n.
Proof. intros H. apply Z.pow_pos_nonneg; lia. Qed.

Lemma pow2_split (a b : Z) : 0 <= a -> 0 <= b -> 2 ^ (a + b) = 2 ^ a * 2 ^ b.
Proof. intros Ha Hb. apply Z.pow_add_r; assumption. Qed.

Lemma mul_pow_eq (V a b : Z) : a = b -> V * 2 ^ a = V * 2 ^ b.
Proof. intros ->. reflexivity. Qed.

Lemma mul_pow_pow (V a b c : Z) : 0 <= a -> 0 <= b -> c = a + b -> V * 2 ^ a * 2 ^ b = V * 2 ^ c.
Proof. intros Ha Hb ->. rewrite <- Z.mul_assoc, <- pow2_split by lia. reflexivity. Qed.

Lemma mul_pow_div (V a b : Z) : 0 <= b <= a -> V * 2 ^ a / 2 ^ b = V * 2 ^ (a - b).
Proof.
  intros H. replace a with ((a - b) + b) at 1 by lia.
  rewrite pow2_split by lia. rewrite Z.mul_assoc.
  apply Z.div_mul. pose proof (pow2_pos b). lia.
Qed.

Lemma mul_pow_mod (V a b : Z) : 0 <= b <= a -> (V * 2 ^ a) mod 2 ^ b = 0.
Proof.
  intros H. replace a with ((a - b) + b) by lia.
  rewrite pow2_split by lia. rewrite Z.mul_assoc.
  apply Z.mod_mul. pose proof (pow2_pos b). lia.
Qed.

(** Rounding a mantissa whose dropped bits are zero. *)
Lemma bra_exact (s : bool) (M E n1 : Z) :
  0 < M ->
  n1 = Z.max 0 (SpecFloat.fexp prec emax (Zdigits2 M + E) - E) ->
  M mod 2 ^ n1 = 0 -> E + n1 <= emax - prec ->
  binary_round_aux prec emax s M E loc_Exact
  = S754_finite s (Z.to_pos (M / 2 ^ n1)) (E + n1).
Proof.
  intros HM Hn1 Hmod Hmax.
  destruct (bra_spec s M E loc_Exact ltac:(lia)) as (m1 & _ & Hex & ->).
  cbn zeta in Hex |- *. rewrite <- Hn1 in *. specialize (Hex eq_refl Hmod). subst m1.
  assert (Hn : 0 <= n1) by lia.
  pose proof (pow2_pos n1 Hn) as Hp.
  assert (Hq : 0 < M / 2 ^ n1).
  { pose proof (Z.div_mod M (2 ^ n1) ltac:(lia)) as Hdm. rewrite Hmod in Hdm.
    destruct (Z.le_gt_cases (M / 2 ^ n1) 0) as [Hle|Hgt]; [|exact Hgt]. nia. }
  rewrite (Zdigits2_div_pow M n1 ltac:(lia) Hn Hq).
  replace (Zdigits2 M - n1 + (E + n1)) with (Zdigits2 M + E) by lia.
  replace (Z.max 0 (SpecFloat.fexp prec emax (Zdigits2 M + E) - (E + n1))) with 0 by lia.
  rewrite Z.pow_0_r, Z.div_1_r, Z.add_0_r.
  destruct (M / 2 ^ n1) as [|p|p] eqn:Hp'; try lia.
  apply Z.leb_le in Hmax. rewrite Hmax. reflexivity.
Qed.

(** The canonical float of a positive integer below [2 ^ 53]. *)
Lemma bra_int (V M E : Z) :
  0 < V -> Zdigits2 V <= 53 -> E <= Zdigits2 V - 53 -> M = V * 2 ^ (- E) ->
  binary_round_aux prec emax false M E loc_Exact
  = S754_finite false (Z.to_pos (V * 2 ^ (53 - Zdigits2 V))) (Zdigits2 V - 53).
Proof.
  intros HV Hd HE HM.
  pose proof (Zdigits2_pos V HV) as Hd0.
  assert (HMpos : 0 < M).
  { subst M. apply Z.mul_pos_pos; [lia | apply pow2_pos; lia]. }
  assert (HdM : Zdigits2 M + E = Zdigits2 V).
  { subst M. rewrite Zdigits2_mul_pow by lia. lia. }
  rewrite (bra_exact false M E (Zdigits2 V - 53 - E) HMpos).
  - f_equal.
    + f_equal. subst M. rewrite mul_pow_div by lia. apply mul_pow_eq. lia.
    + lia.
  - rewrite HdM, fexp_eq. lia.
  - subst M. apply mul_pow_mod. lia.
  - unfold emax, prec. lia.
Qed.

Lemma round_int (V : Z) (m : positive) (e : Z) :
  0 < V -> Zdigits2 V <= 53 ->
  (0 <= e -> V = Z.pos m * 2 ^ e) -> (e < 0 -> Z.pos m = V * 2 ^ (- e)) ->
  binary_round prec emax false m e
  = S754_finite false (Z.to_pos (V * 2 ^ (53 - Zdigits2 V))) (Zdigits2 V - 53).
Proof.
  intros HV Hd Hpos Hneg.
  pose proof (Zdigits2_pos V HV) as Hd0.
  assert (HdM : Z.pos (digits2_pos m) + e = Zdigits2 V).
  { change (Z.pos (digits2_pos m)) with (Zdigits2 (Z.pos m)).
    destruct (Z.le_gt_cases 0 e) as [He|He].
    - rewrite (Hpos He). rewrite Zdigits2_mul_pow by lia. reflexivity.
    - rewrite (Hneg He). rewrite Zdigits2_mul_pow by lia. lia. }
  unfold binary_round.
  pose proof (shl_align_spec m e (SpecFloat.fexp prec emax (Z.pos (digits2_pos m) + e)))
    as [Hez Hmz].
  destruct (shl_align m e _) as [mz ez]. cbn [fst snd] in Hez, Hmz.
  rewrite HdM, fexp_eq in Hez. rewrite HdM, fexp_eq in Hmz.
  replace (Z.max (Zdigits2 V - 53) (-1074)) with (Zdigits2 V - 53) in Hez, Hmz by lia.
  apply bra_int; try assumption; [lia|].
  rewrite Hmz, Hez. clear Hmz Hez.
  destruct (Z.le_gt_cases 0 e) as [He|He].
  - replace (Z.min e (Zdigits2 V - 53)) with (Zdigits2 V - 53) by lia.
    transitivity (Z.pos m * 2 ^ e * 2 ^ (- (Zdigits2 V - 53))).
    + symmetry. apply mul_pow_pow; lia.
    + rewrite <- (Hpos He). reflexivity.
  - transitivity (V * 2 ^ (- e) * 2 ^ (e - Z.min e (Zdigits2 V - 53))).
    + rewrite <- (Hneg He). reflexivity.
    + apply mul_pow_pow; lia.
Qed.

Lemma of_Z_pos (V : Z) :
  0 < V -> Zdigits2 V <= 53 ->
  of_Z V = S754_finite false (Z.to_pos (V * 2 ^ (53 - Zdigits2 V))) (Zdigits2 V - 53).
Proof.
  intros HV Hd. unfold of_Z. destruct V as [|p|p]; try lia. cbn [binary_normalize].
  apply round_int; try assumption; [|lia].
  intros _. rewrite Z.pow_0_r. lia.
Qed.

(** Normalizing a mantissa that stands for an integer below [2 ^ 53]. *)
Lemma normalize_int (V z e : Z) :
  0 <= V -> Zdigits2 V <= 53 ->
  (0 <= e -> V = z * 2 ^ e) -> (e < 0 -> z = V * 2 ^ (- e)) ->
  binary_normalize prec emax z e false = of_Z V.
Proof.
  intros HV Hd Hpos Hneg.
  assert (Hz : (z = 0 /\ V = 0) \/ (0 < z /\ 0 < V)).
  { destruct (Z.le_gt_cases 0 e) as [He|He].
    - specialize (Hpos He). pose proof (pow2_pos e He).
      destruct (Z.eq_dec V 0) as [->|Hne]; [left; split; [nia | reflexivity]|].
      right. split; [nia | lia].
    - specialize (Hneg He). pose proof (pow2_pos (- e) ltac:(lia)).
      destruct (Z.eq_dec V 0) as [->|Hne]; [left; split; [lia | reflexivity]|].
      right. split; [nia | lia]. }
  destruct Hz as [[-> ->]|[Hz HVp]]; [reflexivity|].
  rewrite (of_Z_pos V HVp Hd). destruct z as [|p|p]; try lia. cbn [binary_normalize].
  apply round_int; assumption.
Qed.

(** The parts of the float of a positive integer. *)
Lemma of_Z_parts (V : Z) :
  0 < V -> Zdigits2 V <= 53 ->
  exists m : positive,
    of_Z V = S754_finite false m (Zdigits2 V - 53)
    /\ Z.pos m = V * 2 ^ (53 - Zdigits2 V).
Proof.
  intros HV Hd. rewrite (of_Z_pos V HV Hd). eexists. split; [reflexivity|].
  apply Z2Pos.id. apply Z.mul_pos_pos; [lia | apply pow2_pos; lia].
Qed.

Lemma Zdigits2_mul_le (a b : Z) :
  0 < a -> 0 < b -> Zdigits2 (a * b) <= Zdigits2 a + Zdigits2 b.
Proof.
  intros Ha Hb.
  pose proof (Zdigits2_spec a Ha) as [_ Ha2]. pose proof (Zdigits2_spec b Hb) as [_ Hb2].
  pose proof (Zdigits2_pos a Ha). pose proof (Zdigits2_pos b Hb).
  apply Zdigits2_le; [nia | lia |]. rewrite pow2_split by lia. nia.
Qed.

Lemma Zdigits2_factor (a b : Z) : 0 < a -> 0 < b -> Zdigits2 b <= Zdigits2 (a * b).
Proof. intros Ha Hb. apply Zdigits2_mono. nia. Qed.

Lemma shiftl_neg (a n : Z) : n <= 0 -> Z.shiftl a n = a / 2 ^ (- n).
Proof. intros Hn. apply Z.shiftl_div_pow2. exact Hn. Qed.

(** [int()] of the float of an integer. *)
Lemma trunc_of_Z (V : Z) :
  0 <= V -> Zdigits2 V <= 53 -> py_int_of_float (of_Z V) = Ok V.
Proof.
  intros HV Hd. destruct (Z.eq_dec V 0) as [->|Hne]; [reflexivity|].
  destruct (of_Z_parts V ltac:(lia) Hd) as (m & -> & Hm).
  pose proof (Zdigits2_pos V ltac:(lia)).
  cbn [py_int_of_float truncZ cond_Zopp]. rewrite shiftl_neg by lia. rewrite Hm.
  f_equal. replace (- (Zdigits2 V - 53)) with (53 - Zdigits2 V) by lia.
  apply Z.div_mul. pose proof (pow2_pos (53 - Zdigits2 V)). lia.
Qed.

(** C's [floor] leaves the float of an integer as it is. *)
Lemma floor_of_Z (V : Z) : 0 < V -> Zdigits2 V <= 53 -> floor (of_Z V) = of_Z V.
Proof.
  intros HV Hd. destruct (of_Z_parts V HV Hd) as (m & Heq & Hm).
  pose proof (Zdigits2_pos V HV).
  rewrite Heq. cbn [floor]. destruct (Z.leb_spec 0 (Zdigits2 V - 53)) as [_|Hneg];
    [reflexivity|].
  rewrite <- Heq. unfold floorZ. cbn [cond_Zopp]. rewrite shiftl_neg by lia. rewrite Hm.
  replace (- (Zdigits2 V - 53)) with (53 - Zdigits2 V) by lia.
  rewrite Z.div_mul by (pose proof (pow2_pos (53 - Zdigits2 V)); lia).
  reflexivity.
Qed.

Lemma sub_finite_self (s : bool) (m : positive) (e : Z) :
  sub (S754_finite s m e) (S754_finite s m e) = S754_zero false.
Proof. unfold sub. cbn [SFsub]. rewrite Z.sub_diag. reflexivity. Qed.

Lemma new_location_zero (n : Z) : new_location n 0 = loc_Exact.
Proof.
  unfold new_location, new_location_even, new_location_odd.
  destruct (Z.even n); reflexivity.
Qed.

(** The quotient of the floats of two integers, when it is an integer. *)
Lemma div_of_Z (w Q : Z) :
  0 < w -> 0 < Q -> Zdigits2 (w * Q) <= 53 ->
  div (of_Z (w * Q)) (of_Z w) = of_Z Q.
Proof.
  intros Hw HQ Hd.
  assert (HV : 0 < w * Q) by nia.
  pose proof (Zdigits2_factor Q w HQ Hw) as Hdw. rewrite Z.mul_comm in Hdw.
  pose proof (Zdigits2_factor w Q Hw HQ) as HdQ.
  pose proof (Zdigits2_mul_le w Q Hw HQ) as Hsum.
  pose proof (Zdigits2_pos w Hw) as Hw0. pose proof (Zdigits2_pos Q HQ) as HQ0.
  destruct (of_Z_parts (w * Q) HV Hd) as (m1 & E1 & Hm1).
  destruct (of_Z_parts w Hw ltac:(lia)) as (m2 & E2 & Hm2).
  rewrite E1, E2, (of_Z_pos Q HQ ltac:(lia)).
  set (d1 := Zdigits2 (w * Q)) in *. set (dw := Zdigits2 w) in *.
  set (dQ := Zdigits2 Q) in *.
  unfold div. cbn [SFdiv xorb]. unfold SFdiv_core_binary.
  assert (D1 : Zdigits2 (Z.pos m1) = 53).
  { rewrite Hm1, Zdigits2_mul_pow by lia. fold d1. lia. }
  assert (D2 : Zdigits2 (Z.pos m2) = 53).
  { rewrite Hm2, Zdigits2_mul_pow by lia. fold dw. lia. }
  rewrite D1, D2, fexp_eq.
  replace (Z.min (Z.max (53 + (d1 - 53) - (53 + (dw - 53)) - 53) (-1074))
                 (d1 - 53 - (dw - 53))) with (d1 - dw - 53) by lia.
  replace (d1 - 53 - (dw - 53) - (d1 - dw - 53)) with 53 by lia.
  cbv beta iota zeta.
  rewrite (Z.shiftl_mul_pow2 (Z.pos m1) 53) by lia.
  assert (Hprod : Z.pos m1 * 2 ^ 53 = Z.pos m2 * (Q * 2 ^ (53 + dw - d1))).
  { rewrite Hm1, Hm2.
    replace (53 + dw - d1) with ((53 - d1) + dw) by lia.
    rewrite (pow2_split (53 - d1) dw) by lia.
    replace (2 ^ 53) with (2 ^ (53 - dw) * 2 ^ dw)
      by (rewrite <- pow2_split by lia; f_equal; lia).
    ring. }
  destruct (Z.div_eucl (Z.pos m1 * 2 ^ 53) (Z.pos m2)) as [q r] eqn:Hqr.
  assert (Hq : q = Q * 2 ^ (53 + dw - d1)).
  { change q with (fst (q, r)). rewrite <- Hqr. change (fst (Z.div_eucl ?a ?b)) with (a / b).
    rewrite Hprod, Z.mul_comm. apply Z.div_mul. lia. }
  assert (Hr : r = 0).
  { change r with (snd (q, r)). rewrite <- Hqr.
    change (snd (Z.div_eucl ?a ?b)) with (a mod b).
    rewrite Hprod, Z.mul_comm. apply Z.mod_mul. lia. }
  rewrite Hr, new_location_zero.
  apply bra_int; try lia.
  rewrite Hq. apply mul_pow_eq. lia.
Qed.

(** ** Canonical floats *)

Lemma valid_canonical (s : bool) (m : positive) (e : Z) :
  valid (S754_finite s m e) = true ->
  e = Z.max (Zdigits2 (Z.pos m) + e - 53) (-1074) /\ e <= emax - prec.
Proof.
  unfold valid, valid_binary, bounded, canonical_mantissa. intros H.
  apply andb_true_iff in H. destruct H as [Hc He].
  apply Z.eqb_eq in Hc. apply Z.leb_le in He. rewrite fexp_eq in Hc.
  cbn [Zdigits2]. split; [lia | exact He].
Qed.

(** Rounding a mantissa of at most 53 bits only aligns it. *)
Lemma round_left (m : positive) (e f : Z) :
  Zdigits2 (Z.pos m) <= 53 -> -1074 <= e -> e <= emax - prec ->
  f = Z.max (Zdigits2 (Z.pos m) + e - 53) (-1074) ->
  exists m' : positive,
    binary_round prec emax false m e = S754_finite false m' f
    /\ Z.pos m' = Z.pos m * 2 ^ (e - f)
    /\ valid (S754_finite false m' f) = true.
Proof.
  intros Hd He Hmax Hf. assert (Hfe : f <= e) by lia.
  unfold binary_round.
  pose proof (shl_align_spec m e (SpecFloat.fexp prec emax (Z.pos (digits2_pos m) + e)))
    as [Hez Hmz].
  destruct (shl_align m e _) as [mz ez]. cbn [fst snd] in Hez, Hmz.
  rewrite fexp_eq in Hez, Hmz. cbn [Zdigits2] in Hf. rewrite <- Hf in Hez, Hmz.
  replace (Z.min e f) with f in Hez, Hmz by lia. subst ez.
  assert (Hdz : Zdigits2 (Z.pos mz) + f = Z.pos (digits2_pos m) + e).
  { rewrite Hmz, Zdigits2_mul_pow by lia. cbn [Zdigits2]. lia. }
  rewrite (bra_exact false (Z.pos mz) f 0 ltac:(lia)).
  - exists mz. rewrite Z.pow_0_r, Z.div_1_r, Z.add_0_r. cbn [Z.to_pos].
    split; [reflexivity|]. split; [exact Hmz|].
    unfold valid, valid_binary, bounded, canonical_mantissa.
    change (Z.pos (digits2_pos mz)) with (Zdigits2 (Z.pos mz)).
    rewrite Hdz, fexp_eq, <- Hf, Z.eqb_refl. apply Z.leb_le. lia.
  - rewrite Hdz, fexp_eq, <- Hf. lia.
  - rewrite Z.pow_0_r. apply Z.mod_1_r.
  - lia.
Qed.

(** A canonical float is left as it is. *)
Lemma round_valid (m : positive) (e : Z) :
  valid (S754_finite false m e) = true ->
  binary_round prec emax false m e = S754_finite false m e.
Proof.
  intros Hv. destruct (valid_canonical _ _ _ Hv) as [Hc Hmax].
  pose proof (Zdigits2_pos (Z.pos m) ltac:(lia)) as Hd.
  destruct (round_left m e e ltac:(lia) ltac:(lia) Hmax Hc) as (m' & -> & Hm' & _).
  rewrite Z.sub_diag, Z.pow_0_r, Z.mul_1_r in Hm'.
  f_equal. apply Pos2Z.inj. exact Hm'.
Qed.

(** ** The remainder and the multiple below *)

Lemma div_pow_scaled (a P w : Z) : 0 < P -> 0 < w -> a / (w * P) = a / P / w.
Proof. intros HP Hw. rewrite Z.mul_comm. symmetry. apply Z.div_div; lia. Qed.

Lemma mod_pow_scaled (a P w : Z) : 0 < P -> 0 < w -> a mod (w * P) / P = (a / P) mod w.
Proof.
  intros HP Hw. rewrite (Z.mul_comm w P). rewrite Z.rem_mul_r by lia.
  pose proof (Z.mod_pos_bound a P HP) as Hb.
  rewrite Z.add_comm, Z.mul_comm, Z.div_add_l by lia.
  rewrite (Z.div_small (a mod P) P) by lia. lia.
Qed.

Section DivMod.
Variables (m : positive) (e w : Z).
Hypothesis Hvalid : valid (S754_finite false m e) = true.
Hypothesis Hw : 0 < w.
Hypothesis Hdw : Zdigits2 w <= 53.
Hypothesis Hwhole : Zdigits2 (Z.shiftl (Z.pos m) e) <= 53.

(** The remainder by the float of [w] is exact, and what is left of the
    dividend is the float of a multiple of [w]. *)
Lemma fmod_sub_exact :
  (fmod (S754_finite false m e) (of_Z w) = S754_zero false
   \/ exists (m' : positive) (f : Z),
        fmod (S754_finite false m e) (of_Z w) = S754_finite false m' f
        /\ valid (S754_finite false m' f) = true)
  /\ py_int_of_float (fmod (S754_finite false m e) (of_Z w))
     = Ok (Z.shiftl (Z.pos m) e mod w)
  /\ sub (S754_finite false m e) (fmod (S754_finite false m e) (of_Z w))
     = of_Z (w * (Z.shiftl (Z.pos m) e / w)).
Proof.
  pose proof Hwhole as HdT. set (T := Z.shiftl (Z.pos m) e) in *.
  destruct (valid_canonical _ _ _ Hvalid) as [Hc Hmax].
  pose proof (Zdigits2_pos (Z.pos m) ltac:(lia)) as Hdm0.
  pose proof (Zdigits2_pos w Hw) as Hdw0.
  destruct (of_Z_parts w Hw Hdw) as (mW & EW & HmW). rewrite EW.
  set (eW := Zdigits2 w - 53) in *.
  cbn [fmod cond_Zopp]. rewrite !shiftl_pos_pow by lia.
  set (e0 := Z.min e eW).
  assert (He0 : e0 <= 0) by (unfold e0, eW; lia).
  assert (He0' : -1074 <= e0) by (unfold e0, eW; lia).
  set (P := 2 ^ (- e0)).
  assert (HP : 0 < P) by (apply pow2_pos; lia).
  set (A := Z.pos m * 2 ^ (e - e0)).
  set (B := Z.pos mW * 2 ^ (eW - e0)).
  assert (HA : 0 < A).
  { apply Z.mul_pos_pos; [lia | apply pow2_pos; unfold e0; lia]. }
  assert (HB : B = w * P).
  { unfold B, P. rewrite HmW. apply mul_pow_pow; unfold e0, eW; lia. }
  assert (HT : A / P = T).
  { unfold A, P, T. destruct (Z.le_gt_cases 0 e) as [He|He].
    - rewrite Z.shiftl_mul_pow2 by lia.
      rewrite <- (mul_pow_pow (Z.pos m) e (- e0) (e - e0)) by lia.
      apply Z.div_mul. pose proof (pow2_pos (- e0)). lia.
    - rewrite shiftl_neg by lia.
      replace (2 ^ (- e0)) with (2 ^ (e - e0) * 2 ^ (- e))
        by (rewrite <- pow2_split by (unfold e0; lia); f_equal; lia).
      rewrite (Z.mul_comm (Z.pos m)).
      apply Z.div_mul_cancel_l.
      + pose proof (pow2_pos (- e)). lia.
      + pose proof (pow2_pos (e - e0)). unfold e0 in *. lia. }
  assert (HQ : A / B = T / w).
  { rewrite HB, div_pow_scaled, HT by assumption. reflexivity. }
  assert (HR : A mod B / P = T mod w).
  { rewrite HB, mod_pow_scaled, HT by assumption. reflexivity. }
  assert (HBpos : 0 < B) by (rewrite HB; apply Z.mul_pos_pos; lia).
  pose proof (Z.mod_pos_bound A B HBpos) as Hrb.
  pose proof (Z.div_mod A B ltac:(lia)) as Hdm.
  assert (HTnn : 0 <= T) by (rewrite <- HT; apply Z.div_pos; lia).
  assert (HQnn : 0 <= T / w) by (apply Z.div_pos; lia).
  assert (HVle : w * (T / w) <= T).
  { pose proof (Z.div_mod T w ltac:(lia)). pose proof (Z.mod_pos_bound T w Hw). lia. }
  assert (HVnn : 0 <= w * (T / w)) by (apply Z.mul_nonneg_nonneg; lia).
  assert (HdV : Zdigits2 (w * (T / w)) <= 53).
  { pose proof (Zdigits2_mono (w * (T / w)) T ltac:(lia)). unfold T in *. lia. }
  destruct (Z.eq_dec (A mod B) 0) as [Hz|Hnz].
  - (* the dividend is a multiple of w *)
    rewrite Hz. cbn [binary_normalize].
    split; [left; reflexivity|]. split.
    + rewrite <- HR, Hz, Z.div_0_l by lia. reflexivity.
    + unfold sub. cbn [SFsub]. rewrite <- (round_valid m e Hvalid).
      assert (HAV : A = w * (T / w) * P).
      { rewrite <- HQ. rewrite Hz in Hdm. rewrite HB in Hdm at 1. lia. }
      assert (HVpos : 0 < w * (T / w)).
      { destruct (Z.eq_dec (w * (T / w)) 0) as [H0|H0]; [|lia].
        rewrite H0 in HAV. lia. }
      rewrite (of_Z_pos _ HVpos HdV). apply round_int; try assumption.
      * intros He. unfold A, P in HAV.
        rewrite <- (mul_pow_pow (Z.pos m) e (- e0) (e - e0)) in HAV by lia.
        apply Z.mul_reg_r in HAV; [symmetry; exact HAV | lia].
      * intros He. unfold A, P in HAV.
        replace (2 ^ (- e0)) with (2 ^ (- e) * 2 ^ (e - e0)) in HAV
          by (rewrite <- pow2_split by (unfold e0; lia); f_equal; lia).
        rewrite Z.mul_assoc in HAV.
        apply Z.mul_reg_r in HAV; [exact HAV|].
        pose proof (pow2_pos (e - e0)). unfold e0 in *. lia.
  - (* a remainder is left *)
    assert (Hr : 0 < A mod B) by lia.
    destruct (A mod B) as [|r|r] eqn:Hreq; try lia. cbn [binary_normalize].
    assert (Hdr : Zdigits2 (Z.pos r) <= 53).
    { destruct (Z.le_gt_cases e eW) as [Hle|Hgt].
      - assert (A = Z.pos m).
        { unfold A. replace (e - e0) with 0 by (unfold e0; lia). lia. }
        pose proof (Z.mod_le A B ltac:(lia) HBpos) as Hle'.
        pose proof (Zdigits2_mono (Z.pos r) (Z.pos m) ltac:(lia)). lia.
      - assert (HBm : B = Z.pos mW).
        { unfold B. replace (eW - e0) with 0 by (unfold e0; lia). lia. }
        pose proof (Zdigits2_mono (Z.pos r) (Z.pos mW) ltac:(lia)) as Hmo.
        rewrite HmW, Zdigits2_mul_pow in Hmo by lia. lia. }
    destruct (round_left r e0 (Z.max (Zdigits2 (Z.pos r) + e0 - 53) (-1074))
                Hdr He0' ltac:(unfold emax, prec; lia) eq_refl)
      as (m' & Hmd & Hm' & Hvm).
    set (f := Z.max (Zdigits2 (Z.pos r) + e0 - 53) (-1074)) in *.
    assert (Hf : f <= e0) by (unfold f; lia).
    assert (Hf' : -1074 <= f) by (unfold f; lia).
    rewrite Hmd.
    split; [right; exists m', f; split; [reflexivity | exact Hvm]|]. split.
    + cbn [py_int_of_float truncZ cond_Zopp]. rewrite shiftl_neg by lia.
      rewrite Hm', <- HR. f_equal. unfold P.
      replace (2 ^ (- f)) with (2 ^ (e0 - f) * 2 ^ (- e0))
        by (rewrite <- pow2_split by lia; f_equal; lia).
      rewrite (Z.mul_comm (Z.pos r)).
      apply Z.div_mul_cancel_l.
      * pose proof (pow2_pos (- e0)). lia.
      * pose proof (pow2_pos (e0 - f)). lia.
    + unfold sub. cbn [SFsub cond_Zopp].
      assert (Hef : f <= e) by (unfold e0 in *; lia).
      replace (Z.min e f) with f by lia.
      pose proof (shl_align_spec m e f) as [_ H1].
      pose proof (shl_align_spec m' f f) as [_ H2].
      replace (Z.min e f) with f in H1 by lia.
      rewrite Z.min_id, Z.sub_diag, Z.pow_0_r, Z.mul_1_r in H2.
      rewrite H1, H2, Hm'.
      assert (HD : Z.pos m * 2 ^ (e - f) - Z.pos r * 2 ^ (e0 - f)
                   = w * (T / w) * 2 ^ (- f)).
      { rewrite <- (mul_pow_pow (Z.pos m) (e - e0) (e0 - f) (e - f))
          by (unfold e0 in *; lia).
        fold A. rewrite <- Z.mul_sub_distr_r.
        replace (A - Z.pos r) with (B * (A / B)) by lia.
        rewrite HQ, HB. unfold P.
        rewrite <- (mul_pow_pow (w * (T / w)) (- e0) (e0 - f) (- f)) by lia.
        ring. }
      rewrite HD. apply normalize_int; [lia | exact HdV | |].
      * intros Hf0. replace f with 0 by lia. rewrite Z.pow_0_r. ring.
      * intros _. reflexivity.
Qed.

End DivMod.

(** ** Floor division and remainder by the float of an integer *)

Lemma nonneg_finite (s : bool) (m : positive) (e : Z) :
  leb zero (S754_finite s m e) = true -> s = false.
Proof. destruct s; [discriminate | reflexivity]. Qed.

(** On a non-negative float whose whole part [T] fits the mantissa,
    [x // w] is the float of [T / w], and [x % w] is a non-negative float
    whose whole part is [T mod w]. *)
Lemma float_div_mod_exact (x : float) (w T : Z) :
  valid x = true -> is_finite x = true -> leb zero x = true ->
  py_int_of_float x = Ok T -> Zdigits2 T <= 53 ->
  0 < w -> Zdigits2 w <= 53 ->
  py_int_of_float (fst (float_div_mod x (of_Z w))) = Ok (T / w)
  /\ valid (snd (float_div_mod x (of_Z w))) = true
  /\ is_finite (snd (float_div_mod x (of_Z w))) = true
  /\ leb zero (snd (float_div_mod x (of_Z w))) = true
  /\ py_int_of_float (snd (float_div_mod x (of_Z w))) = Ok (T mod w).
Proof.
  intros Hv Hf Hp HT HdT Hw Hdw.
  destruct (of_Z_parts w Hw Hdw) as (mW & EW & HmW).
  assert (Hhalf : ltb (ratio 1 2) (S754_zero false) = false) by (vm_compute; reflexivity).
  destruct x as [s| | |s m e]; try discriminate Hf.
  - (* zero *)
    cbn [py_int_of_float] in HT.
    assert (T = 0) by congruence. subst T.
    rewrite Z.div_0_l, Z.mod_0_l by lia.
    unfold float_div_mod. rewrite EW. destruct s; cbn; repeat split; reflexivity.
  - pose proof (nonneg_finite s m e Hp). subst s.
    cbn [py_int_of_float truncZ cond_Zopp] in HT.
    assert (HTe : Z.shiftl (Z.pos m) e = T) by congruence.
    rewrite <- HTe in HdT.
    destruct (fmod_sub_exact m e w Hv Hw Hdw HdT) as (Hmd & Hint & Hsub).
    rewrite HTe in Hint, Hsub.
    assert (HTnn : 0 <= T).
    { rewrite <- HTe. apply Z.shiftl_nonneg. lia. }
    assert (HQnn : 0 <= T / w) by (apply Z.div_pos; lia).
    assert (HVle : w * (T / w) <= T).
    { pose proof (Z.div_mod T w ltac:(lia)). pose proof (Z.mod_pos_bound T w Hw). lia. }
    rewrite HTe in HdT.
    assert (HdV : Zdigits2 (w * (T / w)) <= 53).
    { pose proof (Zdigits2_mono (w * (T / w)) T
                    ltac:(split; [apply Z.mul_nonneg_nonneg; lia | exact HVle])). lia. }
    (* the quotient *)
    assert (Hdv : div (sub (S754_finite false m e)
                           (fmod (S754_finite false m e) (of_Z w))) (of_Z w)
                  = of_Z (T / w)).
    { rewrite Hsub. destruct (Z.eq_dec (T / w) 0) as [Hz|Hnz].
      - rewrite Hz, Z.mul_0_r, EW. reflexivity.
      - apply div_of_Z; [exact Hw | lia | exact HdV]. }
    assert (Hfl : py_int_of_float
                    (if nonzero (of_Z (T / w))
                     then
                       if ltb (ratio 1 2) (sub (of_Z (T / w)) (floor (of_Z (T / w))))
                       then add (floor (of_Z (T / w))) (of_Z 1)
                       else floor (of_Z (T / w))
                     else copysign_zero (div (S754_finite false m e) (of_Z w)))
                  = Ok (T / w)).
    { destruct (Z.eq_dec (T / w) 0) as [Hz|Hnz].
      - rewrite Hz. change (nonzero (of_Z 0)) with false. cbv iota.
        unfold copysign_zero. reflexivity.
      - assert (HQ : 0 < T / w) by lia.
        assert (HdQ : Zdigits2 (T / w) <= 53).
        { pose proof (Zdigits2_factor w (T / w) Hw HQ). lia. }
        rewrite (floor_of_Z _ HQ HdQ).
        destruct (of_Z_parts (T / w) HQ HdQ) as (mq & Eq & _).
        rewrite Eq. rewrite sub_finite_self, Hhalf.
        change (nonzero (S754_finite false mq (Zdigits2 (T / w) - 53))) with true.
        cbv iota. rewrite <- Eq. apply trunc_of_Z; assumption. }
    unfold float_div_mod. rewrite Hdv. cbv zeta.
    destruct Hmd as [Hmd|(m' & f & Hmd & Hvm)].
    + rewrite Hmd in *. change (nonzero (S754_zero false)) with false. cbv iota.
      cbn [fst snd]. split; [exact Hfl|]. rewrite EW. cbn [copysign_zero signbit].
      repeat split; try reflexivity. exact Hint.
    + rewrite Hmd in *.
      change (nonzero (S754_finite false m' f)) with true. cbv iota.
      assert (HltW : ltb (of_Z w) zero = false) by (rewrite EW; reflexivity).
      rewrite HltW.
      change (ltb (S754_finite false m' f) zero) with false. cbn [xorb]. cbv iota.
      cbn [fst snd]. split; [exact Hfl|]. split; [exact Hvm|].
      split; [reflexivity|]. split; [reflexivity | exact Hint].
Qed.

(** ** The fields of [format_duration] *)

(** On a non-negative float whose whole seconds [T] fit the mantissa, the
    first three fields are the hours, minutes and seconds of [T]. *)
Lemma format_duration_whole (x : float) (T : Z) :
  valid x = true -> is_finite x = true -> leb zero x = true ->
  py_int_of_float x = Ok T -> Zdigits2 T <= 53 ->
  exists frames : Z,
    subsecond_frames (PyFloat x) = Ok frames
    /\ format_duration (PyFloat x)
       = Ok (format_02d (T / 3600) ++ colon ++ format_02d (T mod 3600 / 60) ++ colon
             ++ format_02d (T mod 60) ++ colon ++ format_02d frames).
Proof.
  intros Hv Hf Hpos HT HdT.
  set (w3600 := S754_finite false 7916483719987200 (-41)).
  set (w60 := S754_finite false 8444249301319680 (-47)).
  set (w1 := S754_finite false 4503599627370496 (-52)).
  set (w24 := S754_finite false 6755399441055744 (-48)).
  assert (E3600 : of_Z 3600 = w3600) by (vm_compute; reflexivity).
  assert (E60 : of_Z 60 = w60) by (vm_compute; reflexivity).
  assert (D3600 : Zdigits2 3600 <= 53) by (cbn; lia).
  assert (D60 : Zdigits2 60 <= 53) by (cbn; lia).
  destruct (float_div_mod_exact x 3600 T Hv Hf Hpos HT HdT ltac:(lia) D3600)
    as (Hhours & Hrv & Hrf & Hrp & Hri).
  rewrite E3600 in Hhours, Hrv, Hrf, Hrp, Hri.
  set (r := snd (float_div_mod x w3600)) in *.
  assert (HdR : Zdigits2 (T mod 3600) <= 53).
  { pose proof (Z.mod_pos_bound T 3600 ltac:(lia)) as Hb.
    pose proof (Zdigits2_le (T mod 3600) 12 ltac:(lia) ltac:(lia) ltac:(lia)). lia. }
  destruct (float_div_mod_exact r 60 (T mod 3600) Hrv Hrf Hrp Hri HdR ltac:(lia) D60)
    as (Hminutes & _).
  destruct (float_div_mod_exact x 60 T Hv Hf Hpos HT HdT ltac:(lia) D60)
    as (_ & _ & _ & _ & Hsecs).
  rewrite E60 in Hminutes, Hsecs.
  destruct (DurationFacts.subsecond_float x Hv Hf Hpos) as (frames & Hfr1 & Hfr2).
  fold w1 w24 in Hfr1, Hfr2.
  change (py_int_of_float (fst (float_div_mod x w3600)))
    with (py_int (PyFloat (fst (float_div_mod x w3600)))) in Hhours.
  change (py_int_of_float (fst (float_div_mod r w60)))
    with (py_int (PyFloat (fst (float_div_mod r w60)))) in Hminutes.
  change (py_int_of_float (snd (float_div_mod x w60)))
    with (py_int (PyFloat (snd (float_div_mod x w60)))) in Hsecs.
  exists frames. unfold subsecond_frames, format_duration.
  rewrite (DurationFacts.py_floordiv_float x w3600 3600 eq_refl eq_refl).
  rewrite (DurationFacts.py_mod_float x w3600 3600 eq_refl eq_refl).
  rewrite (DurationFacts.py_mod_float x w60 60 eq_refl eq_refl).
  rewrite (DurationFacts.py_mod_float x w1 1 eq_refl eq_refl).
  cbn [rbind]. fold r. rewrite Hhours. cbn [rbind].
  rewrite (DurationFacts.py_floordiv_float r w60 60 eq_refl eq_refl). cbn [rbind].
  rewrite Hminutes. cbn [rbind]. rewrite Hsecs. cbn [rbind].
  assert (Hmul : py_mul (PyFloat (snd (float_div_mod x w1))) (PyInt 24)
                 = Ok (PyFloat (mul (snd (float_div_mod x w1)) w24))) by reflexivity.
  rewrite Hmul. cbn [rbind]. rewrite Hfr1, Hfr2. cbn [rbind].
  split; reflexivity.
Qed.

End F64Exact.

(* ===================================================================== *)
(** * Facts about decimal text *)
(* ===================================================================== *)

Module TextFacts.

Lemma uint_of_str_of_uint (d : Decimal.uint) : uint_of_str (str_of_uint d) = Some d.
Proof. induction d; cbn [str_of_uint uint_of_str]; try rewrite IHd; reflexivity. Qed.

Lemma str_of_uint_digits (d : Decimal.uint) : forallb is_digit (str_of_uint d) = true.
Proof. induction d; cbn [str_of_uint forallb]; try rewrite IHd; reflexivity. Qed.

Lemma nzhead_head (d : Decimal.uint) :
  match Decimal.nzhead d with
  | Decimal.D0 _ => False
  | _ => True
  end.
Proof. induction d; cbn [Decimal.nzhead]; auto. Qed.

(** The digits of a number start with a zero only when the number is
    zero. *)
Lemma to_uint_canonical (n : N) :
  match N.to_uint n with
  | Decimal.Nil => False
  | Decimal.D0 d => d = Decimal.Nil
  | _ => True
  end.
Proof.
  pose proof (DecimalN.Unsigned.to_of (N.to_uint n)) as H.
  rewrite DecimalN.Unsigned.of_to in H.
  destruct (N.to_uint n) as [|d| | | | | | | | |] eqn:E; auto.
  - destruct n; [discriminate|]. cbn [N.to_uint] in E.
    exact (DecimalPos.Unsigned.to_uint_nonnil _ E).
  - unfold Decimal.unorm in H. cbn [Decimal.nzhead] in H.
    pose proof (nzhead_head d) as Hh.
    destruct (Decimal.nzhead d); try contradiction; congruence.
Qed.

Lemma span_digits_app (t rest : str) :
  forallb is_digit t = true ->
  match rest with [] => True | c :: _ => is_digit c = false end ->
  span_digits (t ++ rest) = (t, rest).
Proof.
  intros Ht Hr. induction t as [|c t IH]; cbn [app].
  - destruct rest as [|c r]; [reflexivity|]. cbn [span_digits]. rewrite Hr. reflexivity.
  - cbn [forallb] in Ht. apply andb_true_iff in Ht. destruct Ht as [Hc Ht].
    cbn [span_digits]. rewrite Hc, (IH Ht). reflexivity.
Qed.

Lemma safe_follow_not_digit (rest : str) :
  safe_follow rest = true ->
  match rest with [] => True | c :: _ => is_digit c = false end.
Proof.
  destruct rest as [|c r]; [auto|]. cbn [safe_follow]. unfold is_digit.
  intros H. repeat (apply orb_true_iff in H; destruct H as [H|H]);
    apply N.eqb_eq in H; subst c; reflexivity.
Qed.

Lemma scan_fraction_safe (rest : str) :
  safe_follow rest = true -> scan_fraction rest = ([], rest).
Proof.
  destruct rest as [|c r]; [reflexivity|]. cbn [safe_follow]. intros Hs.
  repeat (apply orb_true_iff in Hs; destruct Hs as [Hs|Hs]);
    apply N.eqb_eq in Hs; subst c; destruct r; reflexivity.
Qed.

Lemma scan_exponent_safe (rest : str) :
  safe_follow rest = true -> scan_exponent rest = ([], rest).
Proof.
  destruct rest as [|c r]; [reflexivity|]. cbn [safe_follow]. intros Hs.
  repeat (apply orb_true_iff in Hs; destruct Hs as [Hs|Hs]);
    apply N.eqb_eq in Hs; subst c; reflexivity.
Qed.

Lemma str_of_N_scan_digits (n : N) (rest : str) :
  match rest with [] => True | c :: _ => is_digit c = false end ->
  scan_integer (str_of_N n ++ rest) = Some (str_of_N n, rest).
Proof.
  intros Hnd. unfold str_of_N.
  pose proof (to_uint_canonical n) as Hc.
  pose proof (str_of_uint_digits (N.to_uint n)) as Hd.
  destruct (N.to_uint n) as [|d|d|d|d|d|d|d|d|d|d]; try contradiction;
    cbn [str_of_uint app scan_integer forallb] in *;
    try (subst d; reflexivity);
    cbn [N.eqb Pos.eqb is_digit N.leb N.compare Pos.compare Pos.compare_cont andb];
    rewrite (span_digits_app _ _ Hd Hnd); reflexivity.
Qed.

Lemma str_of_N_scan_integer (n : N) (rest : str) :
  safe_follow rest = true ->
  scan_integer (str_of_N n ++ rest) = Some (str_of_N n, rest).
Proof. intros Hs. apply str_of_N_scan_digits, safe_follow_not_digit, Hs. Qed.

Lemma str_of_N_scan (n : N) (rest : str) :
  safe_follow rest = true ->
  scan_number (str_of_N n ++ rest) = Some (str_of_N n, false, rest).
Proof.
  intros Hs. unfold scan_number.
  assert (Hh : scan_sign (str_of_N n ++ rest) = ([], str_of_N n ++ rest)).
  { unfold str_of_N. pose proof (to_uint_canonical n) as Hc.
    destruct (N.to_uint n); try contradiction; reflexivity. }
  rewrite Hh, (str_of_N_scan_integer n rest Hs).
  rewrite (scan_fraction_safe rest Hs), (scan_exponent_safe rest Hs).
  cbn [app]. rewrite List.app_nil_r. reflexivity.
Qed.

Lemma str_of_Z_scan (z : Z) (rest : str) :
  safe_follow rest = true ->
  scan_number (str_of_Z z ++ rest) = Some (str_of_Z z, false, rest).
Proof.
  intros Hs. destruct z as [|p|p]; cbn [str_of_Z].
  - apply (str_of_N_scan 0 rest Hs).
  - apply (str_of_N_scan (N.pos p) rest Hs).
  - unfold scan_number. cbn [app scan_sign N.eqb Pos.eqb].
    rewrite (str_of_N_scan_integer (N.pos p) rest Hs).
    rewrite (scan_fraction_safe rest Hs), (scan_exponent_safe rest Hs).
    cbn [app]. rewrite List.app_nil_r. reflexivity.
Qed.

Lemma str_of_N_nonempty (n : N) : exists c r, str_of_N n = c :: r /\ is_digit c = true.
Proof.
  unfold str_of_N. pose proof (to_uint_canonical n) as Hc.
  destruct (N.to_uint n); try contradiction; cbn [str_of_uint]; eauto.
Qed.

Lemma digit_not_sign (c : N) :
  is_digit c = true -> (c =? 45)%N = false /\ (c =? 43)%N = false.
Proof.
  unfold is_digit. intros H. apply andb_true_iff in H. destruct H as [H1 H2].
  apply N.leb_le in H1. apply N.leb_le in H2.
  split; apply N.eqb_neq; lia.
Qed.

Lemma py_int_of_str_of_N (n : N) : py_int_of_str (str_of_N n) = Ok (Z.of_N n).
Proof.
  destruct (str_of_N_nonempty n) as (c & r & E & Hc).
  assert (Hu : uint_of_str (c :: r) = Some (N.to_uint n)).
  { rewrite <- E. apply uint_of_str_of_uint. }
  destruct (digit_not_sign c Hc) as [H45 H43].
  unfold py_int_of_str. rewrite E, H45, H43, Hu, DecimalN.Unsigned.of_to.
  reflexivity.
Qed.

Lemma py_int_of_str_of_Z (z : Z) : py_int_of_str (str_of_Z z) = Ok z.
Proof.
  destruct z as [|p|p]; cbn [str_of_Z].
  - apply (py_int_of_str_of_N 0).
  - apply (py_int_of_str_of_N (N.pos p)).
  - destruct (str_of_N_nonempty (N.pos p)) as (c & r & E & Hc).
    assert (Hu : uint_of_str (c :: r) = Some (N.to_uint (N.pos p))).
    { rewrite <- E. apply uint_of_str_of_uint. }
    unfold py_int_of_str. cbn [N.eqb Pos.eqb].
    rewrite E, Hu, DecimalN.Unsigned.of_to. reflexivity.
Qed.

(** ** Hexadecimal escapes *)

(** Linear arithmetic with division and remainder by constants. *)
Ltac dlia := zify; Z.to_euclidean_division_equations; lia.

Lemma hex_value_digit (d : N) : (d < 16)%N -> hex_value (hex_digit d) = Some d.
Proof.
  intros H.
  assert (d = 0 \/ d = 1 \/ d = 2 \/ d = 3 \/ d = 4 \/ d = 5 \/ d = 6 \/ d = 7
          \/ d = 8 \/ d = 9 \/ d = 10 \/ d = 11 \/ d = 12 \/ d = 13 \/ d = 14
          \/ d = 15)%N as Hd by lia.
  repeat (destruct Hd as [->|Hd]; [reflexivity|]). subst d. reflexivity.
Qed.

Lemma unhex4_hex4 (n : N) :
  (n < 65536)%N ->
  unhex4 (hex_digit (n / 4096 mod 16)) (hex_digit (n / 256 mod 16))
         (hex_digit (n / 16 mod 16)) (hex_digit (n mod 16)) = Some n.
Proof.
  intros H. unfold unhex4.
  rewrite !hex_value_digit by (apply N.mod_lt; discriminate).
  f_equal. dlia.
Qed.

Lemma lor_shiftl_10 (a b : N) :
  (b < 1024)%N -> N.lor (N.shiftl a 10) b = (a * 1024 + b)%N.
Proof.
  intros Hb.
  assert (Hand : N.land (N.shiftl a 10) b = 0%N).
  { apply N.bits_inj. intros i. rewrite N.land_spec, N.bits_0.
    destruct (N.lt_ge_cases i 10) as [Hi|Hi].
    - rewrite N.shiftl_spec_low by exact Hi. reflexivity.
    - assert (Hbi : N.testbit b i = false).
      { destruct (N.eq_dec b 0) as [->|Hnz]; [apply N.bits_0|].
        apply N.bits_above_log2.
        assert (N.log2 b < 10)%N by (apply N.log2_lt_pow2; lia). lia. }
      rewrite Hbi. apply andb_false_r. }
  rewrite <- N.lxor_lor by exact Hand.
  rewrite <- N.add_nocarry_lxor by exact Hand.
  rewrite N.shiftl_mul_pow2. reflexivity.
Qed.

(** ** Reading back an escaped string *)

Abbreviation consing c := (option_map (fun p : str * str => (c :: fst p, snd p))).

Lemma scan_string_plain (c : N) (r : str) :
  c <> 34%N -> c <> 92%N -> (32 <= c)%N ->
  scan_string (c :: r) = consing c (scan_string r).
Proof.
  intros H1 H2 H3. cbn [scan_string].
  apply N.eqb_neq in H1. apply N.eqb_neq in H2. rewrite H1, H2.
  assert (H4 : (c <? 32)%N = false) by (apply N.ltb_ge; exact H3).
  rewrite H4. reflexivity.
Qed.

Lemma scan_string_u (h1 h2 h3 h4 u : N) (r : str) :
  unhex4 h1 h2 h3 h4 = Some u -> is_high_surrogate u = false ->
  scan_string (92 :: 117 :: h1 :: h2 :: h3 :: h4 :: r)%N = consing u (scan_string r).
Proof.
  intros Hu Hh. cbn [scan_string N.eqb Pos.eqb]. rewrite Hu, Hh. reflexivity.
Qed.

Lemma scan_string_pair (h1 h2 h3 h4 g1 g2 g3 g4 u u2 : N) (r : str) :
  unhex4 h1 h2 h3 h4 = Some u -> is_high_surrogate u = true ->
  unhex4 g1 g2 g3 g4 = Some u2 -> is_low_surrogate u2 = true ->
  scan_string (92 :: 117 :: h1 :: h2 :: h3 :: h4
               :: 92 :: 117 :: g1 :: g2 :: g3 :: g4 :: r)%N
  = consing (65536 + N.lor (N.shiftl (u - 55296) 10) (u2 - 56320))%N (scan_string r).
Proof.
  intros Hu Hh Hu2 Hl. cbn [scan_string N.eqb Pos.eqb andb].
  rewrite Hu, Hh, Hu2, Hl. reflexivity.
Qed.

Lemma escape_char_scan (ensure_ascii : bool) (c : N) (rest : str) :
  is_scalar c = true ->
  scan_string (escape_char ensure_ascii c ++ rest) = consing c (scan_string rest).
Proof.
  intros Hsc. unfold is_scalar, is_surrogate in Hsc.
  apply andb_true_iff in Hsc. destruct Hsc as [Hmax Hns].
  apply N.ltb_lt in Hmax.
  unfold escape_char.
  destruct (N.eqb_spec c 34) as [->|N34]; [reflexivity|].
  destruct (N.eqb_spec c 92) as [->|N92]; [reflexivity|].
  destruct (N.eqb_spec c 10) as [->|N10]; [reflexivity|].
  destruct (N.eqb_spec c 13) as [->|N13]; [reflexivity|].
  destruct (N.eqb_spec c 9) as [->|N9]; [reflexivity|].
  destruct (N.eqb_spec c 8) as [->|N8]; [reflexivity|].
  destruct (N.eqb_spec c 12) as [->|N12]; [reflexivity|].
  destruct (N.ltb_spec c 32) as [L32|G32].
  - change (lit "\u" ++ hex4 c ++ rest)
      with (92 :: 117 :: hex_digit (c / 4096 mod 16) :: hex_digit (c / 256 mod 16)
            :: hex_digit (c / 16 mod 16) :: hex_digit (c mod 16) :: rest)%N.
    apply scan_string_u; [apply unhex4_hex4; lia|].
    unfold is_high_surrogate. apply andb_false_iff. left. apply N.leb_gt. lia.
  - destruct (negb ensure_ascii || (c <? 127)%N) eqn:Hplain.
    + apply scan_string_plain; assumption.
    + apply orb_false_iff in Hplain. destruct Hplain as [_ H127].
      apply N.ltb_ge in H127.
      destruct (N.ltb_spec c 65536) as [L16|G16].
      * change (lit "\u" ++ hex4 c ++ rest)
          with (92 :: 117 :: hex_digit (c / 4096 mod 16) :: hex_digit (c / 256 mod 16)
                :: hex_digit (c / 16 mod 16) :: hex_digit (c mod 16) :: rest)%N.
        apply scan_string_u; [apply unhex4_hex4; lia|].
        unfold is_high_surrogate.
        apply negb_true_iff in Hns. apply andb_false_iff in Hns.
        apply andb_false_iff. destruct Hns as [Hns|Hns]; [left; exact Hns|].
        right. apply N.leb_gt in Hns. apply N.leb_gt. lia.
      * set (v := (c - 65536)%N).
        set (hi := (55296 + v / 1024 mod 1024)%N).
        set (lo := (56320 + v mod 1024)%N).
        change ((lit "\u" ++ hex4 hi ++ lit "\u" ++ hex4 lo) ++ rest)
          with (92 :: 117 :: hex_digit (hi / 4096 mod 16) :: hex_digit (hi / 256 mod 16)
                :: hex_digit (hi / 16 mod 16) :: hex_digit (hi mod 16)
                :: 92 :: 117 :: hex_digit (lo / 4096 mod 16) :: hex_digit (lo / 256 mod 16)
                :: hex_digit (lo / 16 mod 16) :: hex_digit (lo mod 16) :: rest)%N.
        assert (Hv : (v < 1048576)%N) by (unfold v; lia).
        assert (Hhi : (55296 <= hi <= 56319)%N) by (unfold hi; dlia).
        assert (Hlo : (56320 <= lo <= 57343)%N) by (unfold lo; dlia).
        rewrite (scan_string_pair _ _ _ _ _ _ _ _ hi lo).
        -- rewrite lor_shiftl_10 by lia.
           replace (65536 + ((hi - 55296) * 1024 + (lo - 56320)))%N with c
             by (unfold hi, lo, v; dlia).
           reflexivity.
        -- apply unhex4_hex4. lia.
        -- unfold is_high_surrogate. apply andb_true_iff.
           split; apply N.leb_le; lia.
        -- apply unhex4_hex4. lia.
        -- unfold is_low_surrogate. apply andb_true_iff.
           split; apply N.leb_le; lia.
Qed.

Lemma escaped_scan (ensure_ascii : bool) (s rest : str) :
  scalar_str s = true ->
  scan_string (flat_map (escape_char ensure_ascii) s ++ 34%N :: rest) = Some (s, rest).
Proof.
  induction s as [|c s IH]; intros Hs.
  - reflexivity.
  - cbn [scalar_str forallb] in Hs. apply andb_true_iff in Hs. destruct Hs as [Hc Hs].
    cbn [flat_map]. rewrite <- List.app_assoc, escape_char_scan by exact Hc.
    rewrite (IH Hs). reflexivity.
Qed.

Lemma encode_str_scan (ensure_ascii : bool) (s rest : str) :
  scalar_str s = true ->
  exists body, encode_str ensure_ascii s ++ rest = 34%N :: body
               /\ scan_string body = Some (s, rest).
Proof.
  intros Hs. unfold encode_str.
  exists (flat_map (escape_char ensure_ascii) s ++ 34%N :: rest). split.
  - cbn [app]. rewrite <- List.app_assoc. reflexivity.
  - apply escaped_scan. exact Hs.
Qed.

End TextFacts.

(* ===================================================================== *)
(** * [json.loads] reads back what [json.dumps] writes *)
(* ===================================================================== *)

Module JsonFacts.
Import TextFacts.

Lemma str_eqb_eq (a b : str) : str_eqb a b = true <-> a = b.
Proof.
  revert b. induction a as [|x a IH]; intros [|y b]; cbn [str_eqb];
    try (split; [discriminate | discriminate]); [split; reflexivity|].
  rewrite andb_true_iff, N.eqb_eq, IH. split.
  - intros [-> ->]. reflexivity.
  - intros H. injection H as -> ->. split; reflexivity.
Qed.

Lemma str_eqb_refl (a : str) : str_eqb a a = true.
Proof. apply str_eqb_eq. reflexivity. Qed.

Lemma str_eqb_neq (a b : str) : a <> b -> str_eqb a b = false.
Proof.
  intros H. destruct (str_eqb a b) eqn:Heq; [|reflexivity].
  apply str_eqb_eq in Heq. contradiction.
Qed.

Lemma starts_with_app (p r : str) : starts_with p (p ++ r) = Some r.
Proof.
  unfold starts_with.
  rewrite firstn_app, Nat.sub_diag, firstn_all. cbn [firstn]. rewrite List.app_nil_r.
  rewrite str_eqb_refl, skipn_app, Nat.sub_diag, skipn_all. reflexivity.
Qed.

Lemma starts_with_head (c d : N) (p s : str) :
  c <> d -> starts_with (c :: p) (d :: s) = None.
Proof.
  intros H. unfold starts_with. cbn [List.length firstn].
  rewrite str_eqb_neq; [reflexivity | congruence].
Qed.

(** ** Dicts with distinct keys *)

Lemma dict_set_fresh (k : str) (v : value) (d : list (str * value)) :
  existsb (str_eqb k) (map fst d) = false -> dict_set k v d = d ++ [(k, v)].
Proof.
  induction d as [|[k' v'] d IH]; cbn [map fst existsb dict_set app]; intros H.
  - reflexivity.
  - apply orb_false_iff in H. destruct H as [Hk Hd].
    rewrite Hk, (IH Hd). reflexivity.
Qed.

Lemma existsb_app_false (k : str) (a b : list str) :
  existsb (str_eqb k) a = false -> existsb (str_eqb k) b = false ->
  existsb (str_eqb k) (a ++ b) = false.
Proof. intros Ha Hb. rewrite existsb_app, Ha, Hb. reflexivity. Qed.

Lemma str_eqb_sym (a b : str) : str_eqb a b = str_eqb b a.
Proof.
  destruct (str_eqb b a) eqn:H.
  - apply str_eqb_eq in H. subst. apply str_eqb_refl.
  - apply str_eqb_neq. intros ->. rewrite str_eqb_refl in H. discriminate.
Qed.

Lemma fold_dict_set (d acc : list (str * value)) :
  nodupb (map fst d) = true ->
  (forall k, In k (map fst d) -> existsb (str_eqb k) (map fst acc) = false) ->
  fold_left (fun a kv => dict_set (fst kv) (snd kv) a) d acc = acc ++ d.
Proof.
  revert acc. induction d as [|[k v] d IH]; intros acc Hnd Hacc; cbn [fold_left].
  - rewrite List.app_nil_r. reflexivity.
  - cbn [map fst nodupb] in Hnd. apply andb_true_iff in Hnd. destruct Hnd as [Hk Hnd].
    apply negb_true_iff in Hk. cbn [fst snd].
    rewrite dict_set_fresh by (apply Hacc; left; reflexivity).
    rewrite IH.
    + rewrite <- List.app_assoc. reflexivity.
    + exact Hnd.
    + intros k' Hin. rewrite map_app. apply existsb_app_false.
      * apply Hacc. right. exact Hin.
      * cbn [map fst existsb]. rewrite orb_false_r.
        apply str_eqb_neq. intros ->.
        assert (existsb (str_eqb k) (map fst d) = true) as Hex.
        { apply existsb_exists. exists k. split; [exact Hin | apply str_eqb_refl]. }
        congruence.
Qed.

Lemma dict_of_pairs_nodup (d : list (str * value)) :
  nodupb (map fst d) = true -> dict_of_pairs d = d.
Proof.
  intros H. unfold dict_of_pairs. rewrite fold_dict_set; [reflexivity | exact H |].
  intros k _. reflexivity.
Qed.

(** ** White space *)

Lemma skip_ws_nonws (c : N) (r : str) : is_ws c = false -> skip_ws (c :: r) = c :: r.
Proof. intros H. cbn [skip_ws]. rewrite H. reflexivity. Qed.

Lemma skip_ws_app (a s : str) : forallb is_ws a = true -> skip_ws (a ++ s) = skip_ws s.
Proof.
  induction a as [|c a IH]; cbn [app forallb]; intros H; [reflexivity|].
  apply andb_true_iff in H. destruct H as [Hc Ha].
  cbn [skip_ws]. rewrite Hc. apply IH. exact Ha.
Qed.

Lemma repeat_space_ws (n : nat) : forallb is_ws (repeat 32%N n) = true.
Proof. induction n; cbn [repeat forallb]; [reflexivity | rewrite IHn; reflexivity]. Qed.

Section WithEnv.
Context {E : Env}.

Lemma newline_indent_ws (indent : option nat) (level : nat) :
  forallb is_ws (newline_indent indent level) = true.
Proof.
  destruct indent as [n|]; cbn [newline_indent forallb]; [|reflexivity].
  rewrite repeat_space_ws. reflexivity.
Qed.

Lemma skip_ws_newline (indent : option nat) (level : nat) (s : str) :
  skip_ws (newline_indent indent level ++ s) = skip_ws s.
Proof. apply skip_ws_app, newline_indent_ws. Qed.

Lemma item_separator_spec (indent : option nat) :
  exists ws, item_separator indent = 44%N :: ws /\ forallb is_ws ws = true.
Proof. destruct indent; [exists [] | exists [32%N]]; split; reflexivity. Qed.

Lemma safe_newline_indent (indent : option nat) (level : nat) (c : N) (r : str) :
  safe_follow (c :: r) = true -> safe_follow (newline_indent indent level ++ c :: r) = true.
Proof. destruct indent; intros H; [reflexivity | exact H]. Qed.

Lemma scan_number_head (s t r : str) (b : bool) :
  scan_number s = Some (t, b, r) ->
  exists c s', s = c :: s' /\ (c = 45%N \/ is_digit c = true).
Proof.
  unfold scan_number. destruct s as [|c s']; [discriminate|].
  intros H. exists c, s'. split; [reflexivity|].
  cbn [scan_sign] in H. destruct (N.eqb_spec c 45) as [->|Hne]; [left; reflexivity|].
  right. cbn [scan_integer] in H.
  destruct (N.eqb_spec c 48) as [->|H48]; [reflexivity|].
  destruct (is_digit c); [reflexivity | discriminate].
Qed.

Lemma head_not_bracket (c : N) :
  c = 45%N \/ is_digit c = true ->
  (c =? 34)%N = false /\ (c =? 123)%N = false /\ (c =? 91)%N = false
  /\ c <> 110%N /\ c <> 116%N /\ c <> 102%N
  /\ is_ws c = false /\ (c =? 93)%N = false.
Proof.
  intros [->|H]; [repeat split; discriminate|].
  unfold is_digit in H. apply andb_true_iff in H. destruct H as [H1 H2].
  apply N.leb_le in H1. apply N.leb_le in H2.
  unfold is_ws.
  repeat split;
    try (apply N.eqb_neq; lia); try lia;
    repeat (apply orb_false_iff; split); apply N.eqb_neq; lia.
Qed.

Lemma parse_value_other (fuel : nat) (c : N) (r : str) :
  (c =? 34)%N = false -> (c =? 123)%N = false -> (c =? 91)%N = false ->
  parse_value (S fuel) (c :: r) =
    match starts_with (lit "null") (c :: r), starts_with (lit "true") (c :: r),
          starts_with (lit "false") (c :: r) with
    | Some r1, _, _ => Some (VNone, r1)
    | _, Some r1, _ => Some (VBool true, r1)
    | _, _, Some r1 => Some (VBool false, r1)
    | _, _, _ =>
        match scan_number (c :: r) with
        | Some (text, true, r1) => Some (VFloat (float_of_str text), r1)
        | Some (text, false, r1) =>
            match py_int_of_str text with
            | Ok z => Some (VInt z, r1)
            | Raise _ => None
            end
        | None =>
            match starts_with (lit "NaN") (c :: r), starts_with (lit "Infinity") (c :: r),
                  starts_with (lit "-Infinity") (c :: r) with
            | Some r1, _, _ => Some (VFloat S754_nan, r1)
            | _, Some r1, _ => Some (VFloat (S754_infinity false), r1)
            | _, _, Some r1 => Some (VFloat (S754_infinity true), r1)
            | _, _, _ => None
            end
        end
    end.
Proof. intros H1 H2 H3. cbn [parse_value]. rewrite H1, H2, H3. reflexivity. Qed.

Lemma parse_value_number (fuel : nat) (s t r : str) (b : bool) :
  scan_number s = Some (t, b, r) ->
  parse_value (S fuel) s =
    if b then Some (VFloat (float_of_str t), r)
    else match py_int_of_str t with
         | Ok z => Some (VInt z, r)
         | Raise _ => None
         end.
Proof.
  intros H. destruct (scan_number_head _ _ _ _ H) as (c & s' & -> & Hc).
  destruct (head_not_bracket c Hc) as (H1 & H2 & H3 & Hn & Ht & Hf & _).
  rewrite parse_value_other by assumption.
  change (lit "null") with (110%N :: lit "ull").
  change (lit "true") with (116%N :: lit "rue").
  change (lit "false") with (102%N :: lit "alse").
  rewrite !starts_with_head by congruence.
  rewrite H. destruct b; reflexivity.
Qed.

Variable float_ok : float -> bool.
Hypothesis Hfloat :
  forall x : float,
    float_ok x = true -> F64.is_finite x = true ->
    float_of_str (float_repr x) = x
    /\ forall rest : str,
         safe_follow rest = true ->
         scan_number (float_repr x ++ rest) = Some (float_repr x, true, rest).

Lemma encode_head (ensure_ascii : bool) (indent : option nat) (level : nat) (v : value) :
  wf_value_with float_ok v = true ->
  exists c r, encode ensure_ascii indent level v = c :: r
              /\ is_ws c = false /\ (c =? 93)%N = false.
Proof.
  intros Hwf. destruct v as [|[|]|z|x|s|[|y l]|[|[k y] d]];
    try (eexists; eexists; split; [reflexivity | split; reflexivity]).
  - cbn [encode]. destruct z as [|p|p]; cbn [str_of_Z].
    + eexists; eexists; split; [reflexivity | split; reflexivity].
    + destruct (str_of_N_nonempty (Z.to_N (Z.pos p))) as (c & r & -> & Hc).
      exists c, r. split; [reflexivity|].
      destruct (head_not_bracket c (or_intror Hc)) as (_ & _ & _ & _ & _ & _ & Hw & Hb).
      split; assumption.
    + eexists; eexists; split; [reflexivity | split; reflexivity].
  - cbn [wf_value_with] in Hwf. cbn [encode]. unfold encode_float.
    assert (Hfin : forall x', is_true (F64.is_finite x') -> float_ok x' = true ->
                   exists c r, float_repr x' = c :: r /\ is_ws c = false /\ (c =? 93)%N = false).
    { intros x' Hf Hv. destruct (Hfloat x' Hv Hf) as [_ Hscan].
      specialize (Hscan [] eq_refl). rewrite List.app_nil_r in Hscan.
      destruct (scan_number_head _ _ _ _ Hscan) as (c & s' & Heq & Hc).
      exists c, s'. split; [exact Heq|].
      destruct (head_not_bracket c Hc) as (_ & _ & _ & _ & _ & _ & Hw & Hb).
      split; assumption. }
    destruct x as [s|[|]| |s m e];
      try (eexists; eexists; split; [reflexivity | split; reflexivity]).
    + apply Hfin; [reflexivity | exact Hwf].
    + apply Hfin; [reflexivity | exact Hwf].
Qed.

Lemma encode_list_cons ea indent level (x : value) (xs : list value) :
  encode ea indent level (VList (x :: xs))
  = 91%N :: newline_indent indent (S level) ++ encode ea indent (S level) x
    ++ encode_items ea indent level xs ++ newline_indent indent level ++ [93%N].
Proof. reflexivity. Qed.

Lemma encode_items_cons ea indent level (y : value) (r : list value) :
  encode_items ea indent level (y :: r)
  = item_separator indent ++ newline_indent indent (S level)
    ++ encode ea indent (S level) y ++ encode_items ea indent level r.
Proof. reflexivity. Qed.

Lemma encode_dict_cons ea indent level (k : str) (x : value) (kvs : list (str * value)) :
  encode ea indent level (VDict ((k, x) :: kvs))
  = 123%N :: newline_indent indent (S level) ++ encode_str ea k ++ key_separator
    ++ encode ea indent (S level) x
    ++ encode_pairs ea indent level kvs ++ newline_indent indent level ++ [125%N].
Proof. reflexivity. Qed.

Lemma encode_pairs_cons ea indent level (k : str) (y : value) (r : list (str * value)) :
  encode_pairs ea indent level ((k, y) :: r)
  = item_separator indent ++ newline_indent indent (S level)
    ++ encode_str ea k ++ key_separator
    ++ encode ea indent (S level) y ++ encode_pairs ea indent level r.
Proof. reflexivity. Qed.

Lemma parse_items_step (fuel : nat) (s : str) :
  parse_items (S fuel) s =
    match parse_value fuel s with
    | None => None
    | Some (v, r) =>
        match skip_ws r with
        | c :: r1 =>
            if (c =? 44)%N then
              option_map (fun p => (v :: fst p, snd p)) (parse_items fuel (skip_ws r1))
            else if (c =? 93)%N then Some ([v], r1)
            else None
        | [] => None
        end
    end.
Proof. reflexivity. Qed.

Lemma parse_pairs_step (fuel : nat) (r : str) :
  parse_pairs (S fuel) (34%N :: r) =
    match scan_string r with
    | None => None
    | Some (k, r1) =>
        match skip_ws r1 with
        | c :: r2 =>
            if (c =? 58)%N then
              match parse_value fuel (skip_ws r2) with
              | None => None
              | Some (v, r3) =>
                  match skip_ws r3 with
                  | c' :: r4 =>
                      if (c' =? 44)%N then
                        option_map (fun p => ((k, v) :: fst p, snd p))
                                   (parse_pairs fuel (skip_ws r4))
                      else if (c' =? 125)%N then Some ([(k, v)], r4)
                      else None
                  | [] => None
                  end
              end
            else None
        | [] => None
        end
    end.
Proof. reflexivity. Qed.

Lemma parse_value_list (fuel : nat) (r : str) :
  parse_value (S fuel) (91%N :: r) =
    match skip_ws r with
    | c1 :: r1 =>
        if (c1 =? 93)%N then Some (VList [], r1)
        else option_map (fun p => (VList (fst p), snd p)) (parse_items fuel (c1 :: r1))
    | [] => None
    end.
Proof. reflexivity. Qed.

Lemma parse_value_dict (fuel : nat) (r : str) :
  parse_value (S fuel) (123%N :: r) =
    match skip_ws r with
    | c1 :: r1 =>
        if (c1 =? 125)%N then Some (VDict [], r1)
        else option_map (fun p => (VDict (dict_of_pairs (fst p)), snd p))
                        (parse_pairs fuel (c1 :: r1))
    | [] => None
    end.
Proof. reflexivity. Qed.

Lemma parse_value_str (fuel : nat) (r : str) :
  parse_value (S fuel) (34%N :: r)
  = option_map (fun p => (VStr (fst p), snd p)) (scan_string r).
Proof. reflexivity. Qed.

(** Skipping the white space in front of an encoded value. *)
Lemma skip_ws_encode ea indent level (v : value) (ws rest : str) :
  wf_value_with float_ok v = true -> forallb is_ws ws = true ->
  skip_ws (ws ++ encode ea indent level v ++ rest) = encode ea indent level v ++ rest.
Proof.
  intros Hwf Hws. rewrite skip_ws_app by exact Hws.
  destruct (encode_head ea indent level v Hwf) as (c & r & -> & Hc & _).
  cbn [app]. apply skip_ws_nonws. exact Hc.
Qed.

Lemma parse_items_encode ea indent level (rest : str) (xs : list value) :
  forall (x : value) (fuel : nat),
    reads_back float_ok x -> Forall (reads_back float_ok) xs ->
    wf_value_with float_ok x = true -> forallb (wf_value_with float_ok) xs = true ->
    (List.length (encode ea indent (S level) x)
     + List.length (encode_items ea indent level xs) < fuel)%nat ->
    parse_items fuel
      (encode ea indent (S level) x ++ encode_items ea indent level xs
       ++ newline_indent indent level ++ 93%N :: rest)
    = Some (x :: xs, rest).
Proof.
  induction xs as [|y ys IH]; intros x fuel Hx Hxs Hwx Hwxs Hfuel.
  - destruct fuel as [|fuel]; [lia|]. rewrite parse_items_step.
    cbn [encode_items app].
    rewrite (Hx ea indent (S level) fuel _ Hwx); [|apply safe_newline_indent; reflexivity | cbn [encode_items List.length] in Hfuel; lia].
    rewrite skip_ws_newline, skip_ws_nonws by reflexivity.
    reflexivity.
  - destruct fuel as [|fuel]; [lia|]. rewrite parse_items_step.
    rewrite encode_items_cons.
    destruct (item_separator_spec indent) as (ws & Hsep & Hws). rewrite Hsep.
    cbn [forallb] in Hwxs. apply andb_true_iff in Hwxs. destruct Hwxs as [Hwy Hwys].
    inversion Hxs as [|? ? Hy Hys]; subst.
    rewrite encode_items_cons, Hsep in Hfuel.
    cbn [List.length app] in Hfuel. rewrite !length_app in Hfuel.
    cbn [app]. rewrite <- !List.app_assoc.
    rewrite (Hx ea indent (S level) fuel _ Hwx); [|reflexivity | lia].
    rewrite skip_ws_nonws by reflexivity.
    cbn [N.eqb Pos.eqb].
    replace (ws ++ newline_indent indent (S level)
             ++ encode ea indent (S level) y ++ encode_items ea indent level ys
             ++ newline_indent indent level ++ 93%N :: rest)
      with ((ws ++ newline_indent indent (S level))
            ++ encode ea indent (S level) y ++ (encode_items ea indent level ys
            ++ newline_indent indent level ++ 93%N :: rest))
      by (rewrite <- !List.app_assoc; reflexivity).
    rewrite skip_ws_encode;
      [|exact Hwy | rewrite forallb_app, Hws, newline_indent_ws; reflexivity].
    rewrite (IH y fuel Hy Hys Hwy Hwys) by lia.
    reflexivity.
Qed.

Lemma encode_str_length ea (k : str) : (2 <= List.length (encode_str ea k))%nat.
Proof. unfold encode_str. cbn [app List.length]. rewrite length_app. cbn [List.length]. lia. Qed.

Lemma skip_space_encode ea indent level (v : value) (rest : str) :
  wf_value_with float_ok v = true ->
  skip_ws (32%N :: encode ea indent level v ++ rest) = encode ea indent level v ++ rest.
Proof. intros Hwf. apply (skip_ws_encode ea indent level v [32%N] rest Hwf eq_refl). Qed.

Lemma skip_key_separator (s : str) :
  skip_ws (key_separator ++ s) = 58%N :: 32%N :: s.
Proof. reflexivity. Qed.

Lemma parse_pairs_encode ea indent level (rest : str) (kvs : list (str * value)) :
  forall (k : str) (x : value) (fuel : nat),
    reads_back float_ok x -> Forall (fun kv => reads_back float_ok (snd kv)) kvs ->
    scalar_str k = true -> wf_value_with float_ok x = true ->
    forallb (fun kv => scalar_str (fst kv) && wf_value_with float_ok (snd kv)) kvs = true ->
    (List.length (encode ea indent (S level) x)
     + List.length (encode_pairs ea indent level kvs) < fuel)%nat ->
    parse_pairs fuel
      (encode_str ea k ++ key_separator ++ encode ea indent (S level) x
       ++ encode_pairs ea indent level kvs
       ++ newline_indent indent level ++ 125%N :: rest)
    = Some ((k, x) :: kvs, rest).
Proof.
  induction kvs as [|[k' y] kvs IH]; intros k x fuel Hx Hxs Hk Hwx Hwxs Hfuel.
  - destruct fuel as [|fuel]; [lia|].
    destruct (encode_str_scan ea k
                (key_separator ++ encode ea indent (S level) x
                 ++ encode_pairs ea indent level []
                 ++ newline_indent indent level ++ 125%N :: rest) Hk)
      as (body & -> & Hbody).
    rewrite parse_pairs_step, Hbody, skip_key_separator.
    cbn [N.eqb Pos.eqb].
    rewrite (skip_space_encode ea indent (S level) x _ Hwx).
    rewrite (Hx ea indent (S level) fuel _ Hwx);
      [|apply safe_newline_indent; reflexivity | cbn [encode_pairs List.length] in Hfuel; lia].
    cbn [encode_pairs app].
    rewrite skip_ws_newline, skip_ws_nonws by reflexivity.
    reflexivity.
  - destruct fuel as [|fuel]; [lia|].
    destruct (encode_str_scan ea k
                (key_separator ++ encode ea indent (S level) x
                 ++ encode_pairs ea indent level ((k', y) :: kvs)
                 ++ newline_indent indent level ++ 125%N :: rest) Hk)
      as (body & -> & Hbody).
    rewrite parse_pairs_step, Hbody, skip_key_separator.
    cbn [N.eqb Pos.eqb].
    rewrite (skip_space_encode ea indent (S level) x _ Hwx).
    rewrite encode_pairs_cons.
    destruct (item_separator_spec indent) as (ws & Hsep & Hws). rewrite Hsep.
    cbn [forallb fst snd] in Hwxs. apply andb_true_iff in Hwxs.
    destruct Hwxs as [Hky Hwys]. apply andb_true_iff in Hky. destruct Hky as [Hk' Hwy].
    inversion Hxs as [|? ? Hy Hys]; subst. cbn [snd] in Hy.
    rewrite encode_pairs_cons, Hsep in Hfuel.
    cbn [List.length app] in Hfuel. rewrite !length_app in Hfuel.
    pose proof (encode_str_length ea k') as Hlen.
    cbn [app]. rewrite <- !List.app_assoc.
    rewrite (Hx ea indent (S level) fuel _ Hwx); [|reflexivity | lia].
    rewrite skip_ws_nonws by reflexivity.
    cbn [N.eqb Pos.eqb].
    assert (Hskip :
      skip_ws (ws ++ newline_indent indent (S level) ++ encode_str ea k'
               ++ key_separator ++ encode ea indent (S level) y
               ++ encode_pairs ea indent level kvs
               ++ newline_indent indent level ++ 125%N :: rest)
      = encode_str ea k' ++ key_separator ++ encode ea indent (S level) y
        ++ encode_pairs ea indent level kvs
        ++ newline_indent indent level ++ 125%N :: rest).
    { rewrite skip_ws_app by exact Hws. rewrite skip_ws_newline.
      unfold encode_str. cbn [app]. apply skip_ws_nonws. reflexivity. }
    rewrite Hskip.
    rewrite (IH k' y fuel Hy Hys Hk' Hwy Hwys) by lia.
    reflexivity.
Qed.

Lemma lit_app_cons (c : N) (p rest : str) : (c :: p) ++ rest = c :: (p ++ rest).
Proof. reflexivity. Qed.

Theorem parse_encode (v : value) : reads_back float_ok v.
Proof.
  induction v using value_rect'; unfold reads_back;
    intros ea indent level fuel rest Hwf Hsafe Hfuel.
  - (* None *)
    destruct fuel as [|fuel]; [cbn in Hfuel; lia|].
    cbn [encode]. change (lit "null" ++ rest) with (110%N :: (lit "ull" ++ rest)).
    rewrite parse_value_other by reflexivity.
    change (110%N :: (lit "ull" ++ rest)) with (lit "null" ++ rest).
    rewrite starts_with_app. reflexivity.
  - (* bool *)
    destruct fuel as [|fuel]; [destruct b; cbn in Hfuel; lia|].
    destruct b; cbn [encode].
    + change (lit "true" ++ rest) with (116%N :: (lit "rue" ++ rest)).
      rewrite parse_value_other by reflexivity.
      change (lit "null") with (110%N :: lit "ull").
      rewrite starts_with_head by discriminate.
      change (116%N :: (lit "rue" ++ rest)) with (lit "true" ++ rest).
      rewrite starts_with_app. reflexivity.
    + change (lit "false" ++ rest) with (102%N :: (lit "alse" ++ rest)).
      rewrite parse_value_other by reflexivity.
      change (lit "null") with (110%N :: lit "ull").
      change (lit "true") with (116%N :: lit "rue").
      rewrite !starts_with_head by discriminate.
      change (102%N :: (lit "alse" ++ rest)) with (lit "false" ++ rest).
      rewrite starts_with_app. reflexivity.
  - (* int *)
    cbn [encode] in *.
    destruct fuel as [|fuel].
    { destruct (encode_head ea indent level (VInt z) eq_refl) as (c & r & Heq & _).
      cbn [encode] in Heq. rewrite Heq in Hfuel. cbn in Hfuel. lia. }
    rewrite (parse_value_number fuel _ _ _ _ (str_of_Z_scan z rest Hsafe)).
    rewrite py_int_of_str_of_Z. reflexivity.
  - (* float *)
    cbn [encode wf_value_with] in *.
    destruct fuel as [|fuel].
    { destruct (encode_head ea indent level (VFloat x) Hwf) as (c & r & Heq & _).
      cbn [encode] in Heq. rewrite Heq in Hfuel. cbn in Hfuel. lia. }
    assert (Hfin : F64.is_finite x = true ->
                   parse_value (S fuel) (float_repr x ++ rest) = Some (VFloat x, rest)).
    { intros Hf. destruct (Hfloat x Hwf Hf) as [Hback Hscan].
      rewrite (parse_value_number fuel _ _ _ _ (Hscan rest Hsafe)).
      rewrite Hback. reflexivity. }
    unfold encode_float.
    destruct x as [s|[|]| |s m e]; try (apply Hfin; reflexivity).
    + change (lit "-Infinity" ++ rest) with (45%N :: (lit "Infinity" ++ rest)).
      rewrite parse_value_other by reflexivity.
      reflexivity.
    + change (lit "Infinity" ++ rest) with (73%N :: (lit "nfinity" ++ rest)).
      rewrite parse_value_other by reflexivity.
      change (lit "null") with (110%N :: lit "ull").
      change (lit "true") with (116%N :: lit "rue").
      change (lit "false") with (102%N :: lit "alse").
      change (lit "NaN") with (78%N :: lit "aN").
      rewrite !starts_with_head by discriminate.
      change (scan_number (73%N :: (lit "nfinity" ++ rest))) with (@None (str * bool * str)).
      change (73%N :: (lit "nfinity" ++ rest)) with (lit "Infinity" ++ rest).
      rewrite starts_with_app. reflexivity.
    + change (lit "NaN" ++ rest) with (78%N :: (lit "aN" ++ rest)).
      rewrite parse_value_other by reflexivity.
      change (lit "null") with (110%N :: lit "ull").
      change (lit "true") with (116%N :: lit "rue").
      change (lit "false") with (102%N :: lit "alse").
      rewrite !starts_with_head by discriminate.
      change (scan_number (78%N :: (lit "aN" ++ rest))) with (@None (str * bool * str)).
      change (78%N :: (lit "aN" ++ rest)) with (lit "NaN" ++ rest).
      rewrite starts_with_app. reflexivity.
  - (* str *)
    cbn [encode wf_value_with] in *.
    destruct fuel as [|fuel]; [pose proof (encode_str_length ea s); lia|].
    destruct (encode_str_scan ea s rest Hwf) as (body & -> & Hbody).
    rewrite parse_value_str, Hbody. reflexivity.
  - (* list *)
    destruct l as [|x xs].
    + destruct fuel as [|fuel]; [cbn in Hfuel; lia|].
      cbn [encode]. change (lit "[]" ++ rest) with (91%N :: 93%N :: rest).
      rewrite parse_value_list. reflexivity.
    + rewrite encode_list_cons in *.
      destruct fuel as [|fuel]; [cbn in Hfuel; lia|].
      cbn [wf_value_with forallb] in Hwf. apply andb_true_iff in Hwf. destruct Hwf as [Hwx Hwxs].
      inversion H as [|? ? Hx Hxs]; subst.
      cbn [List.length] in Hfuel. rewrite !length_app in Hfuel. cbn [List.length] in Hfuel.
      rewrite lit_app_cons, parse_value_list.
      rewrite <- !List.app_assoc.
      rewrite skip_ws_newline.
      destruct (encode_head ea indent (S level) x Hwx) as (c & r & Heq & Hc & Hb).
      pose proof (parse_items_encode ea indent level rest xs x fuel Hx Hxs Hwx Hwxs
                    ltac:(lia)) as Hp.
      rewrite Heq in Hp |- *. cbn [app] in Hp |- *.
      rewrite skip_ws_nonws by exact Hc. rewrite Hb, Hp. reflexivity.
  - (* dict *)
    destruct d as [|[k x] kvs].
    + destruct fuel as [|fuel]; [cbn in Hfuel; lia|].
      cbn [encode]. change (lit "{}" ++ rest) with (123%N :: 125%N :: rest).
      rewrite parse_value_dict. reflexivity.
    + rewrite encode_dict_cons in *.
      destruct fuel as [|fuel]; [cbn in Hfuel; lia|].
      pose proof Hwf as Hwf0.
      cbn [wf_value_with forallb fst snd] in Hwf. apply andb_true_iff in Hwf.
      destruct Hwf as [Hnd Hwf]. apply andb_true_iff in Hwf.
      destruct Hwf as [Hkx Hwxs]. apply andb_true_iff in Hkx. destruct Hkx as [Hk Hwx].
      inversion H as [|? ? Hx Hxs]; subst. cbn [snd] in Hx.
      cbn [List.length] in Hfuel. rewrite !length_app in Hfuel. cbn [List.length] in Hfuel.
      pose proof (encode_str_length ea k) as Hlen.
      rewrite lit_app_cons, parse_value_dict.
      rewrite <- !List.app_assoc.
      rewrite skip_ws_newline.
      pose proof (parse_pairs_encode ea indent level rest kvs k x fuel Hx Hxs Hk Hwx Hwxs) as Hp.
      unfold encode_str in Hp |- * at 1. cbn [app] in Hp |- *.
      rewrite skip_ws_nonws by reflexivity.
      cbn [N.eqb Pos.eqb].
      rewrite Hp
        by (change key_separator with [58%N; 32%N] in Hfuel; cbn [List.length] in Hfuel; lia).
      cbn [option_map fst snd].
      rewrite dict_of_pairs_nodup by exact Hnd. reflexivity.
Qed.

(** [json.loads(json.dumps(obj))] gives [obj] back. *)
Theorem json_loads_dumps_with (ensure_ascii : bool) (indent : option nat) (obj : value) :
  wf_value_with float_ok obj = true ->
  json_loads (json_dumps ensure_ascii indent obj) = Some obj.
Proof.
  intros Hwf. unfold json_loads, json_dumps.
  destruct (encode_head ensure_ascii indent 0 obj Hwf) as (c & r & Heq & Hc & _).
  rewrite Heq at 2. rewrite skip_ws_nonws by exact Hc. rewrite <- Heq.
  pose proof (parse_encode obj ensure_ascii indent 0%nat
                (S (List.length (encode ensure_ascii indent 0 obj))) [] Hwf eq_refl
                ltac:(lia)) as Hp.
  rewrite List.app_nil_r in Hp. rewrite Hp. reflexivity.
Qed.

End WithEnv.

(** [json.loads(json.dumps(obj))] is [obj], given the contract on the text
    of floats. *)
Lemma json_loads_dumps {E : Env} (ensure_ascii : bool) (indent : option nat) (obj : value) :
  float_text_contract -> wf_value obj = true ->
  json_loads (json_dumps ensure_ascii indent obj) = Some obj.
Proof. intros Hc. apply (json_loads_dumps_with F64.valid Hc). Qed.

(** The same for a value without floats, whatever the text of floats is. *)
Lemma json_loads_dumps_plain {E : Env} (ensure_ascii : bool) (indent : option nat)
      (obj : value) :
  float_free obj = true -> json_loads (json_dumps ensure_ascii indent obj) = Some obj.
Proof. apply (json_loads_dumps_with (fun _ => false)). intros x Hx. discriminate. Qed.

End JsonFacts.

(* ===================================================================== *)
(** * UTF-8 decoding reads back what encoding writes *)
(* ===================================================================== *)

Module Utf8Facts.
Import TextFacts.

Ltac btest :=
  repeat match goal with
         | |- context [(?a <? ?b)%N] =>
             first [ replace (a <? b)%N with true by (symmetry; apply N.ltb_lt; dlia)
                   | replace (a <? b)%N with false by (symmetry; apply N.ltb_ge; dlia) ]
         | |- context [(?a <=? ?b)%N] =>
             first [ replace (a <=? b)%N with true by (symmetry; apply N.leb_le; dlia)
                   | replace (a <=? b)%N with false by (symmetry; apply N.leb_gt; dlia) ]
         end.

Lemma Some_eq {A : Type} (a b : A) : Some a = Some b -> a = b.
Proof. intros H. congruence. Qed.

Lemma to_N_byte_of_N (n : N) : (n < 256)%N -> Byte.to_N (byte_of_N n) = n.
Proof.
  intros Hn. unfold byte_of_N. destruct (Byte.of_N n) as [b|] eqn:Hb.
  - apply Byte.to_of_N. exact Hb.
  - apply Byte.of_N_None_iff in Hb. lia.
Qed.

Lemma utf8_encode_char_bytes (c : N) (bs : list N) :
  utf8_encode_char c = Some bs -> Forall (fun b => (b < 256)%N) bs.
Proof.
  unfold utf8_encode_char, is_surrogate. intros H.
  destruct (c <? 128)%N eqn:H1; [apply Some_eq in H; subst bs; apply N.ltb_lt in H1; repeat (apply Forall_cons; [cbv beta; dlia|]); apply Forall_nil|].
  destruct (c <? 2048)%N eqn:H2;
    [apply Some_eq in H; subst bs; apply N.ltb_lt in H2; repeat (apply Forall_cons; [cbv beta; dlia|]); apply Forall_nil|].
  destruct ((55296 <=? c) && (c <=? 57343))%N; [discriminate|].
  destruct (c <? 65536)%N eqn:H3;
    [apply Some_eq in H; subst bs; apply N.ltb_lt in H3; repeat (apply Forall_cons; [cbv beta; dlia|]); apply Forall_nil|].
  destruct (c <? 1114112)%N eqn:H4; [|discriminate].
  apply Some_eq in H; subst bs; apply N.ltb_lt in H4; repeat (apply Forall_cons; [cbv beta; dlia|]); apply Forall_nil.
Qed.

Lemma utf8_decode_char (c : N) (bs rest : list N) :
  utf8_encode_char c = Some bs ->
  utf8_decode_N (bs ++ rest) = option_map (cons c) (utf8_decode_N rest).
Proof.
  unfold utf8_encode_char, is_surrogate. intros H.
  destruct (c <? 128)%N eqn:H1.
  { apply Some_eq in H; subst bs. cbn [app utf8_decode_N]. rewrite H1. reflexivity. }
  apply N.ltb_ge in H1.
  destruct (c <? 2048)%N eqn:H2.
  { apply Some_eq in H; subst bs. apply N.ltb_lt in H2. cbn [app utf8_decode_N]. unfold is_cont.
    btest. cbn [andb].
    replace ((192 + c / 64 - 192) * 64 + (128 + c mod 64 - 128))%N with c by dlia.
    reflexivity. }
  apply N.ltb_ge in H2.
  destruct ((55296 <=? c) && (c <=? 57343))%N; [discriminate|].
  destruct (c <? 65536)%N eqn:H3.
  { apply Some_eq in H; subst bs. apply N.ltb_lt in H3. cbn [app utf8_decode_N]. unfold is_cont.
    replace ((224 + c / 4096 - 224) * 4096 + (128 + c / 64 mod 64 - 128) * 64
             + (128 + c mod 64 - 128))%N with c by dlia.
    btest. cbn [andb]. reflexivity. }
  apply N.ltb_ge in H3.
  destruct (c <? 1114112)%N eqn:H4; [|discriminate].
  apply Some_eq in H; subst bs. apply N.ltb_lt in H4. cbn [app utf8_decode_N]. unfold is_cont.
  replace ((240 + c / 262144 - 240) * 262144 + (128 + c / 4096 mod 64 - 128) * 4096
           + (128 + c / 64 mod 64 - 128) * 64 + (128 + c mod 64 - 128))%N with c by dlia.
  btest. cbn [andb]. reflexivity.
Qed.

Lemma utf8_encode_N_bytes (s : str) (bs : list N) :
  utf8_encode_N s = Some bs -> Forall (fun b => (b < 256)%N) bs.
Proof.
  revert bs. induction s as [|c s IH]; intros bs H; cbn [utf8_encode_N] in H.
  - injection H as <-. constructor.
  - destruct (utf8_encode_char c) as [b|] eqn:Hc; [|discriminate].
    destruct (utf8_encode_N s) as [br|]; [|discriminate].
    injection H as <-. apply Forall_app. split.
    + exact (utf8_encode_char_bytes c b Hc).
    + apply IH. reflexivity.
Qed.

Lemma utf8_decode_encode_N (s : str) (bs : list N) :
  utf8_encode_N s = Some bs -> utf8_decode_N bs = Some s.
Proof.
  revert bs. induction s as [|c s IH]; intros bs H; cbn [utf8_encode_N] in H.
  - injection H as <-. reflexivity.
  - destruct (utf8_encode_char c) as [b|] eqn:Hc; [|discriminate].
    destruct (utf8_encode_N s) as [br|]; [|discriminate].
    injection H as <-. rewrite (utf8_decode_char c b br Hc), (IH br eq_refl). reflexivity.
Qed.

Lemma map_to_N_byte_of_N (bs : list N) :
  Forall (fun b => (b < 256)%N) bs -> map Byte.to_N (map byte_of_N bs) = bs.
Proof.
  induction 1 as [|b bs Hb _ IH]; cbn [map]; [reflexivity|].
  rewrite to_N_byte_of_N by exact Hb. rewrite IH. reflexivity.
Qed.

(** [b.decode('utf-8')] after [s.encode('utf-8')] is [s]. *)
Lemma utf8_decode_encode (s : str) (b : bytes) :
  utf8_encode s = Ok b -> utf8_decode b = Some s.
Proof.
  unfold utf8_encode, utf8_decode. destruct (utf8_encode_N s) as [bs|] eqn:H; [|discriminate].
  intros Hb. injection Hb as <-.
  rewrite (map_to_N_byte_of_N bs (utf8_encode_N_bytes s bs H)).
  exact (utf8_decode_encode_N s bs H).
Qed.

Lemma utf8_encode_char_scalar (c : N) :
  is_scalar c = true -> exists bs, utf8_encode_char c = Some bs.
Proof.
  unfold is_scalar, utf8_encode_char. intros H. apply andb_true_iff in H.
  destruct H as [H1 H2]. apply negb_true_iff in H2. rewrite H2, H1.
  destruct (c <? 128)%N; [eauto|]. destruct (c <? 2048)%N; [eauto|].
  destruct (c <? 65536)%N; eauto.
Qed.

(** Text without a lone surrogate can be encoded. *)
Lemma utf8_encode_scalar (s : str) :
  scalar_str s = true -> exists b, utf8_encode s = Ok b.
Proof.
  intros H. assert (exists bs, utf8_encode_N s = Some bs) as [bs Hbs].
  { induction s as [|c s IH]; [eexists; reflexivity|].
    cbn [scalar_str forallb] in H. apply andb_true_iff in H. destruct H as [Hc Hs].
    destruct (utf8_encode_char_scalar c Hc) as [b Hb]. destruct (IH Hs) as [br Hbr].
    exists (b ++ br). cbn [utf8_encode_N]. rewrite Hb, Hbr. reflexivity. }
  unfold utf8_encode. rewrite Hbs. eauto.
Qed.

(** The first bytes of encoded text are its first characters when these
    are ASCII. *)
Lemma utf8_encode_head (c1 c2 : N) (s : str) (b : bytes) :
  (c1 <? 128)%N = true -> (c2 <? 128)%N = true ->
  utf8_encode (c1 :: c2 :: s) = Ok b ->
  exists r, map Byte.to_N b = c1 :: c2 :: r.
Proof.
  intros H1 H2. unfold utf8_encode.
  destruct (utf8_encode_N (c1 :: c2 :: s)) as [bs|] eqn:H; [|discriminate].
  intros Hb. injection Hb as <-.
  rewrite (map_to_N_byte_of_N bs (utf8_encode_N_bytes _ bs H)).
  cbn [utf8_encode_N] in H. unfold utf8_encode_char in H at 1 2. rewrite H1, H2 in H.
  destruct (utf8_encode_N s) as [br|]; [|discriminate].
  injection H as <-. eexists. reflexivity.
Qed.

End Utf8Facts.

(* ===================================================================== *)
(** * The JSON export *)
(* ===================================================================== *)

Module ExportFacts.
Import TextFacts JsonFacts Utf8Facts.

Lemma ascii_scalar (c : N) : (c <? 128)%N = true -> is_scalar c = true.
Proof.
  intros H. apply N.ltb_lt in H. unfold is_scalar, is_surrogate.
  replace (c <? 1114112)%N with true by (symmetry; apply N.ltb_lt; lia).
  replace (55296 <=? c)%N with false by (symmetry; apply N.leb_gt; lia).
  reflexivity.
Qed.

Lemma digit_ascii (c : N) : is_digit c = true -> (c <? 128)%N = true.
Proof.
  unfold is_digit. intros H. apply andb_true_iff in H. destruct H as [_ H].
  apply N.leb_le in H. apply N.ltb_lt. lia.
Qed.

Lemma scalar_str_app (a b : str) : scalar_str (a ++ b) = scalar_str a && scalar_str b.
Proof. apply forallb_app. Qed.

Lemma digits_scalar (s : str) : forallb is_digit s = true -> scalar_str s = true.
Proof.
  induction s as [|c s IH]; [reflexivity|]. cbn [forallb scalar_str]. intros H.
  apply andb_true_iff in H. destruct H as [Hc Hs].
  rewrite (ascii_scalar c (digit_ascii c Hc)). exact (IH Hs).
Qed.

Lemma str_of_Z_scalar (z : Z) : scalar_str (str_of_Z z) = true.
Proof.
  destruct z as [|p|p]; cbn [str_of_Z]; unfold str_of_N;
    try (apply digits_scalar, str_of_uint_digits).
  change (scalar_str (45%N :: ?s)) with (scalar_str s).
  cbn [scalar_str forallb]. change (is_scalar 45) with true. cbn [andb].
  apply digits_scalar, str_of_uint_digits.
Qed.

Lemma span_digits_digits (s d r : str) : span_digits s = (d, r) -> forallb is_digit d = true.
Proof.
  revert d r. induction s as [|c s IH]; intros d r H; cbn [span_digits] in H.
  - injection H as <- _. reflexivity.
  - destruct (is_digit c) eqn:Hc.
    + destruct (span_digits s) as [d' r'] eqn:Hs. injection H as <- _.
      cbn [forallb]. rewrite Hc. exact (IH d' r' eq_refl).
    + injection H as <- _. reflexivity.
Qed.

Lemma span_digits_scalar (s d r : str) : span_digits s = (d, r) -> scalar_str d = true.
Proof. intros H. exact (digits_scalar d (span_digits_digits s d r H)). Qed.

Lemma scalar_cons (c : N) (s : str) :
  (c <? 128)%N = true -> scalar_str s = true -> scalar_str (c :: s) = true.
Proof. intros Hc Hs. cbn [scalar_str forallb]. rewrite (ascii_scalar c Hc). exact Hs. Qed.

Lemma scan_sign_scalar (s t r : str) : scan_sign s = (t, r) -> scalar_str t = true.
Proof.
  destruct s as [|c s]; cbn [scan_sign]; [intros H; injection H as <- _; reflexivity|].
  destruct (N.eqb_spec c 45) as [->|_]; intros H; injection H as <- _; reflexivity.
Qed.

Lemma scan_integer_scalar (s t r : str) : scan_integer s = Some (t, r) -> scalar_str t = true.
Proof.
  destruct s as [|c s]; cbn [scan_integer]; [discriminate|].
  destruct (N.eqb_spec c 48) as [->|_]; [intros H; injection H as <- _; reflexivity|].
  destruct (is_digit c) eqn:Hc; [|discriminate].
  destruct (span_digits s) as [d r'] eqn:Hs. intros H. injection H as <- _.
  apply scalar_cons; [exact (digit_ascii c Hc) | exact (span_digits_scalar s d r' Hs)].
Qed.

Lemma scan_fraction_scalar (s t r : str) : scan_fraction s = (t, r) -> scalar_str t = true.
Proof.
  destruct s as [|dot [|d s]]; cbn [scan_fraction];
    try (intros H; injection H as <- _; reflexivity).
  destruct (N.eqb_spec dot 46) as [->|_]; cbn [andb];
    [|intros H; injection H as <- _; reflexivity].
  destruct (is_digit d) eqn:Hd; [|intros H; injection H as <- _; reflexivity].
  destruct (span_digits s) as [ds r'] eqn:Hs. intros H. injection H as <- _.
  apply scalar_cons; [reflexivity|].
  apply scalar_cons; [exact (digit_ascii d Hd) | exact (span_digits_scalar s ds r' Hs)].
Qed.

Lemma scan_exponent_scalar (s t r : str) : scan_exponent s = (t, r) -> scalar_str t = true.
Proof.
  destruct s as [|e s]; cbn [scan_exponent]; [intros H; injection H as <- _; reflexivity|].
  destruct ((e =? 101) || (e =? 69))%N eqn:He; [|intros H; injection H as <- _; reflexivity].
  assert (Hea : (e <? 128)%N = true).
  { apply orb_true_iff in He. destruct He as [He|He]; apply N.eqb_eq in He; subst; reflexivity. }
  assert (Hsg : forall sg r1,
             match s with
             | c :: r' => if ((c =? 43) || (c =? 45))%N then ([c], r') else ([], s)
             | [] => ([], s)
             end = (sg, r1) -> scalar_str sg = true).
  { intros sg r1. destruct s as [|c r']; [intros H; injection H as <- _; reflexivity|].
    destruct ((c =? 43) || (c =? 45))%N eqn:Hc; intros H; injection H as <- _;
      [|reflexivity].
    apply orb_true_iff in Hc. destruct Hc as [Hc|Hc]; apply N.eqb_eq in Hc; subst; reflexivity. }
  destruct (match s with
            | c :: r' => if ((c =? 43) || (c =? 45))%N then ([c], r') else ([], s)
            | [] => ([], s)
            end) as [sg r1] eqn:Hs.
  specialize (Hsg sg r1 eq_refl).
  destruct r1 as [|d r2]; [intros H; injection H as <- _; reflexivity|].
  destruct (is_digit d) eqn:Hd; [|intros H; injection H as <- _; reflexivity].
  destruct (span_digits r2) as [ds r3] eqn:Hds. intros H. injection H as <- _.
  apply scalar_cons; [exact Hea|]. rewrite scalar_str_app, Hsg. cbn [andb].
  apply scalar_cons; [exact (digit_ascii d Hd) | exact (span_digits_scalar r2 ds r3 Hds)].
Qed.

(** The text the number scanner accepts is ASCII. *)
Lemma scan_number_scalar (s t r : str) (b : bool) :
  scan_number s = Some (t, b, r) -> scalar_str t = true.
Proof.
  unfold scan_number. destruct (scan_sign s) as [sg s1] eqn:H1.
  destruct (scan_integer s1) as [[ip s2]|] eqn:H2; [|discriminate].
  destruct (scan_fraction s2) as [fr s3] eqn:H3.
  destruct (scan_exponent s3) as [ex s4] eqn:H4.
  intros H. injection H as <- _ _.
  rewrite !scalar_str_app, (scan_sign_scalar _ _ _ H1), (scan_integer_scalar _ _ _ H2),
    (scan_fraction_scalar _ _ _ H3), (scan_exponent_scalar _ _ _ H4). reflexivity.
Qed.

Lemma hex_digit_ascii (n : N) : (n < 16)%N -> (hex_digit n <? 128)%N = true.
Proof. intros H. unfold hex_digit. destruct (n <? 10)%N; apply N.ltb_lt; lia. Qed.

Lemma hex4_scalar (n : N) : scalar_str (hex4 n) = true.
Proof.
  unfold hex4. repeat (apply scalar_cons; [apply hex_digit_ascii; dlia|]). reflexivity.
Qed.

Lemma escape_char_scalar (ensure_ascii : bool) (c : N) :
  is_scalar c = true -> scalar_str (escape_char ensure_ascii c) = true.
Proof.
  intros Hc. unfold escape_char.
  repeat match goal with
         | |- scalar_str (if ?b then _ else _) = true => destruct b
         end;
    try reflexivity;
    try (rewrite ?scalar_str_app, ?hex4_scalar; reflexivity).
  cbn [scalar_str forallb]. rewrite Hc. reflexivity.
Qed.

Lemma encode_str_scalar (ensure_ascii : bool) (s : str) :
  scalar_str s = true -> scalar_str (encode_str ensure_ascii s) = true.
Proof.
  intros Hs. unfold encode_str. rewrite !scalar_str_app.
  replace (scalar_str (flat_map (escape_char ensure_ascii) s)) with true; [reflexivity|].
  symmetry. induction s as [|c s IH]; [reflexivity|].
  cbn [scalar_str forallb] in Hs. apply andb_true_iff in Hs. destruct Hs as [Hc Hs].
  cbn [flat_map]. rewrite scalar_str_app, (escape_char_scalar ensure_ascii c Hc).
  exact (IH Hs).
Qed.

Lemma repeat_space_scalar (n : nat) : scalar_str (repeat 32%N n) = true.
Proof. induction n as [|n IH]; [reflexivity|]. exact IH. Qed.

Lemma newline_indent_scalar (indent : option nat) (level : nat) :
  scalar_str (newline_indent indent level) = true.
Proof.
  destruct indent as [n|]; [|reflexivity]. cbn [newline_indent].
  apply scalar_cons; [reflexivity | apply repeat_space_scalar].
Qed.

Lemma item_separator_scalar (indent : option nat) :
  scalar_str (item_separator indent) = true.
Proof. destruct indent; reflexivity. Qed.

Section WithEnv.
Context {E : Env}.
Hypothesis Hfloat : float_text_contract.

Lemma encode_float_scalar (x : float) :
  F64.valid x = true -> scalar_str (encode_float x) = true.
Proof.
  intros Hv.
  assert (Hfin : F64.is_finite x = true -> scalar_str (float_repr x) = true).
  { intros Hf. destruct (Hfloat x Hv Hf) as [_ Hscan].
    specialize (Hscan [] eq_refl). rewrite List.app_nil_r in Hscan.
    exact (scan_number_scalar _ _ _ _ Hscan). }
  unfold encode_float. destruct x as [s|[|]| |s m e]; try reflexivity; apply Hfin; reflexivity.
Qed.

(** The output of [json.dumps] holds no lone surrogate when the value holds
    none. *)
Lemma encode_scalar (v : value) :
  forall (ensure_ascii : bool) (indent : option nat) (level : nat),
    wf_value v = true -> scalar_str (encode ensure_ascii indent level v) = true.
Proof.
  unfold wf_value. induction v using value_rect'; intros ea indent level Hwf.
  - reflexivity.
  - destruct b; reflexivity.
  - apply str_of_Z_scalar.
  - apply encode_float_scalar. exact Hwf.
  - apply encode_str_scalar. exact Hwf.
  - destruct l as [|x xs]; [reflexivity|]. rewrite encode_list_cons.
    cbn [wf_value_with forallb] in Hwf. apply andb_true_iff in Hwf. destruct Hwf as [Hwx Hwxs].
    inversion H as [|? ? Hx Hxs]; subst.
    apply scalar_cons; [reflexivity|].
    rewrite !scalar_str_app, newline_indent_scalar, (Hx ea indent (S level) Hwx),
      newline_indent_scalar.
    cbn [andb]. rewrite andb_true_r. clear Hx Hwx H.
    induction xs as [|y ys IH]; [reflexivity|].
    rewrite encode_items_cons. cbn [forallb] in Hwxs. apply andb_true_iff in Hwxs.
    destruct Hwxs as [Hwy Hwys]. inversion Hxs as [|? ? Hy Hys]; subst.
    rewrite !scalar_str_app, item_separator_scalar, newline_indent_scalar,
      (Hy ea indent (S level) Hwy), (IH Hwys Hys). reflexivity.
  - destruct d as [|[k x] kvs]; [reflexivity|]. rewrite encode_dict_cons.
    cbn [wf_value_with forallb fst snd] in Hwf. apply andb_true_iff in Hwf.
    destruct Hwf as [_ Hwf]. apply andb_true_iff in Hwf.
    destruct Hwf as [Hkx Hwxs]. apply andb_true_iff in Hkx. destruct Hkx as [Hk Hwx].
    inversion H as [|? ? Hx Hxs]; subst. cbn [snd] in Hx.
    apply scalar_cons; [reflexivity|].
    rewrite !scalar_str_app, newline_indent_scalar, (encode_str_scalar ea k Hk),
      (Hx ea indent (S level) Hwx), newline_indent_scalar.
    cbn [andb]. rewrite andb_true_r.
    change (scalar_str key_separator) with true. cbn [andb]. clear Hx Hwx H Hk.
    induction kvs as [|[k' y] ys IH]; [reflexivity|].
    rewrite encode_pairs_cons. cbn [forallb fst snd] in Hwxs. apply andb_true_iff in Hwxs.
    destruct Hwxs as [Hky Hwys]. apply andb_true_iff in Hky. destruct Hky as [Hk' Hwy].
    inversion Hxs as [|? ? Hy Hys]; subst. cbn [snd] in Hy.
    rewrite !scalar_str_app, item_separator_scalar, newline_indent_scalar,
      (encode_str_scalar ea k' Hk'), (Hy ea indent (S level) Hwy), (IH Hwys Hys).
    reflexivity.
Qed.

(** The text of a dict starts with a brace and, when an indent is set, a
    brace or a line break: the bytes are recognised as UTF-8. *)
Lemma dumps_dict_head (ensure_ascii : bool) (n : nat) (d : list (str * value)) :
  exists c s, json_dumps ensure_ascii (Some n) (VDict d) = 123%N :: c :: s
              /\ (c = 125%N \/ c = 10%N).
Proof.
  unfold json_dumps. destruct d as [|[k x] kvs].
  - exists 125%N, []. split; [reflexivity | left; reflexivity].
  - rewrite encode_dict_cons. cbn [newline_indent app].
    eexists; eexists. split; [reflexivity | right; reflexivity].
Qed.

(** Exporting a record as JSON succeeds, and [json.loads] on the exported
    bytes gives the record back. *)
Lemma export_json_loads (self : MetadataManager) (d : list (str * value)) :
  structured_data self = Some (VDict d) -> wf_value (VDict d) = true ->
  exists b, export_metadata self (lit "json") = Ok (ExportBytes b)
            /\ json_loads_bytes b = Some (VDict d).
Proof.
  intros Hdata Hwf. unfold export_metadata, get_structured_output.
  rewrite Hdata. change (str_eqb (lit "json") (lit "json")) with true. cbv iota.
  destruct (utf8_encode_scalar (json_dumps false (Some 2%nat) (VDict d))) as [b Hb].
  { apply encode_scalar. exact Hwf. }
  exists b. rewrite Hb. split; [reflexivity|].
  unfold json_loads_bytes. rewrite (utf8_decode_encode _ _ Hb).
  destruct (dumps_dict_head false 2 d) as (c & s & Hhead & Hc).
  rewrite Hhead in Hb.
  destruct (utf8_encode_head 123 c s b eq_refl) as [r Hr];
    [destruct Hc; subst; reflexivity | exact Hb |].
  rewrite Hr. cbn [detect_utf8].
  replace (negb _) with true by (destruct Hc; subst; reflexivity).
  apply json_loads_dumps; assumption.
Qed.

End WithEnv.
End ExportFacts.

(* ===================================================================== *)
(** * The scripted environment keeps the contract on float text *)
(* ===================================================================== *)

Module DemoFacts.
Import TextFacts.

Lemma scan_sign_digit (c : N) (r : str) :
  is_digit c = true -> scan_sign (c :: r) = ([], c :: r).
Proof.
  intros Hc. cbn [scan_sign]. destruct (digit_not_sign c Hc) as [-> _]. reflexivity.
Qed.

Lemma scan_fraction_e (l : str) : scan_fraction (101%N :: l) = ([], 101%N :: l).
Proof. destruct l; reflexivity. Qed.

Lemma str_of_N_digits (n : N) : forallb is_digit (str_of_N n) = true.
Proof. apply str_of_uint_digits. Qed.

Lemma scan_exponent_int (z : Z) (rest : str) :
  safe_follow rest = true ->
  scan_exponent (101%N :: str_of_Z z ++ rest) = (101%N :: str_of_Z z, rest).
Proof.
  intros Hs. pose proof (safe_follow_not_digit rest Hs) as Hnd.
  assert (Hn : forall n sg,
             (let '(sg', r1) := (sg, str_of_N n ++ rest) in
              match r1 with
              | d :: r2 =>
                  if is_digit d
                  then let '(ds, rest') := span_digits r2 in
                       (101%N :: sg' ++ d :: ds, rest')
                  else ([], 101%N :: sg ++ str_of_N n ++ rest)
              | [] => ([], 101%N :: sg ++ str_of_N n ++ rest)
              end) = (101%N :: sg ++ str_of_N n, rest)).
  { intros n sg. pose proof (str_of_N_digits n) as Hd.
    destruct (str_of_N_nonempty n) as (c & r & Heq & Hc). rewrite Heq in *.
    cbn [forallb] in Hd. apply andb_true_iff in Hd. destruct Hd as [_ Hd].
    cbn [app]. rewrite Hc, (span_digits_app r rest Hd Hnd). reflexivity. }
  destruct z as [|p|p]; cbn [str_of_Z scan_exponent N.eqb Pos.eqb orb].
  - exact (Hn 0%N []).
  - destruct (str_of_N_nonempty (Z.to_N (Z.pos p))) as (c & r & Heq & Hc).
    pose proof (Hn (Z.to_N (Z.pos p)) []) as H. rewrite Heq in H |- *.
    cbn [app] in H |- *. destruct (digit_not_sign c Hc) as [H45 H43].
    rewrite H43, H45. cbn [orb]. exact H.
  - cbn [app N.eqb Pos.eqb orb]. exact (Hn (N.pos p) [45%N]).
Qed.

Lemma text_float_float_text (x : float) :
  F64.is_finite x = true -> Demo.text_float (Demo.float_text x) = x.
Proof.
  destruct x as [[|]|[|]| |s m e]; try discriminate; try reflexivity. intros _.
  unfold Demo.float_text, Demo.text_float.
  destruct (str_of_N_nonempty (N.pos m)) as (c & r & Heq & Hc).
  assert (Hsign : scan_sign ((if s then [45%N] else []) ++ str_of_N (N.pos m)
                             ++ [101%N] ++ str_of_Z e)
                  = ((if s then [45%N] else []),
                     str_of_N (N.pos m) ++ 101%N :: str_of_Z e)).
  { destruct s; [reflexivity|]. rewrite Heq. cbn [app]. apply scan_sign_digit, Hc. }
  rewrite Hsign.
  rewrite (span_digits_app (str_of_N (N.pos m)) (101%N :: str_of_Z e)
             (str_of_N_digits _) eq_refl).
  unfold str_of_N at 1. rewrite uint_of_str_of_uint. cbn [N.eqb Pos.eqb].
  rewrite DecimalN.Unsigned.of_to, py_int_of_str_of_Z.
  destruct s; reflexivity.
Qed.

Lemma float_text_scan (x : float) (rest : str) :
  F64.is_finite x = true -> safe_follow rest = true ->
  scan_number (Demo.float_text x ++ rest) = Some (Demo.float_text x, true, rest).
Proof.
  intros Hf Hs. pose proof (safe_follow_not_digit rest Hs) as Hnd.
  assert (Hbody : forall (sg : str) (n : N) (e : Z),
             scan_sign (sg ++ str_of_N n ++ 101%N :: str_of_Z e ++ rest)
             = (sg, str_of_N n ++ 101%N :: str_of_Z e ++ rest) ->
             scan_number (sg ++ str_of_N n ++ 101%N :: str_of_Z e ++ rest)
             = Some (sg ++ str_of_N n ++ 101%N :: str_of_Z e, true, rest)).
  { intros sg n e Hsign. unfold scan_number. rewrite Hsign.
    rewrite (str_of_N_scan_digits n (101%N :: str_of_Z e ++ rest) eq_refl).
    rewrite scan_fraction_e, (scan_exponent_int e rest Hs). reflexivity. }
  destruct x as [[|]|[|]| |s m e]; try discriminate.
  - exact (Hbody [45%N] 0%N 0%Z eq_refl).
  - exact (Hbody [] 0%N 0%Z eq_refl).
  - unfold Demo.float_text. rewrite <- !List.app_assoc. cbn [app].
    apply Hbody. destruct s; [reflexivity|].
    destruct (str_of_N_nonempty (N.pos m)) as (c & r & Heq & Hc).
    rewrite Heq. cbn [app]. apply scan_sign_digit, Hc.
Qed.

(** Reading the text of a finite float gives the float back, and the text
    is a JSON number with an exponent. *)
Lemma scripted_float_text (failing : list nat) :
  @float_text_contract (Demo.scripted failing).
Proof.
  intros x _ Hf. split.
  - exact (text_float_float_text x Hf).
  - intros rest Hs. exact (float_text_scan x rest Hf Hs).
Qed.

End DemoFacts.

(* ===================================================================== *)
(** * The frame sampler *)
(* ===================================================================== *)

Module SamplerFacts.
Import F64 F64Facts.

Lemma leb_zero_nonzero (x : float) : leb x zero = false -> eqb x zero = false.
Proof. destruct x as [[|]|[|]| |[|] m e]; cbn; congruence. Qed.

Lemma ltb_zero_nonzero (x : float) : ltb zero x = true -> eqb x zero = false.
Proof. destruct x as [[|]|[|]| |[|] m e]; cbn; congruence. Qed.

Lemma truncZ_digits (s : bool) (m : positive) (e k : Z) :
  Z.pos (digits2_pos m) + e <= k -> 0 <= k -> Zdigits2 (truncZ s m e) <= k.
Proof.
  intros Hk Hk0. unfold truncZ. rewrite Zdigits2_cond_Zopp.
  destruct (Z.le_gt_cases 0 e) as [He|He].
  - rewrite shiftl_pos_pow by exact He. rewrite Zdigits2_mul_pow by lia.
    cbn [Zdigits2]. lia.
  - rewrite <- (Z.opp_involutive e) at 1. rewrite Z.shiftl_opp_r.
    rewrite Z.shiftr_div_pow2 by lia.
    assert (Hq : 0 <= Z.pos m / 2 ^ (- e)) by (apply Z.div_pos; [lia | apply Z.pow_pos_nonneg; lia]).
    destruct (Z.eq_dec (Z.pos m / 2 ^ (- e)) 0) as [->|Hne]; [cbn; lia|].
    rewrite Zdigits2_div_pow by lia. cbn [Zdigits2]. lia.
Qed.

Lemma py_float_of_int_ok (z : Z) :
  Zdigits2 z <= 1023 -> py_float_of_int z = Ok (of_Z z) /\ mag 1024 (of_Z z).
Proof.
  intros Hz.
  assert (Hm : mag 1024 (of_Z z)).
  { apply (binary_normalize_coarse z 0 1023 false); unfold emax; lia. }
  split; [|exact Hm]. unfold py_float_of_int.
  destruct (of_Z z); cbn [mag] in Hm; try contradiction; reflexivity.
Qed.

Lemma index_digits (i : Z) : 0 <= i < 2 ^ 1023 -> Zdigits2 i <= 1023.
Proof. intros [H0 H1]. apply Zdigits2_le; lia. Qed.

Lemma raw_of_Z_mag (i k : Z) : Zdigits2 i <= k -> mag k (raw_of_Z i).
Proof. destruct i; cbn [raw_of_Z mag Zdigits2]; unfold emax, prec; lia. Qed.

(** The timestamp of a frame can be computed, whatever the rate is. *)
Lemma timestamp_ok (fps : float) (i : Z) :
  0 <= i < 2 ^ 1023 -> exists t, py_truediv (PyInt i) (fps_or_default fps) = Ok t.
Proof.
  intros Hi. pose proof (index_digits i Hi) as Hd. unfold fps_or_default.
  destruct (leb fps zero) eqn:Hle; cbn [py_truediv].
  - unfold py_int_truediv. cbn [Z.eqb raw_of_Z].
    pose proof (div_mag 1023 (raw_of_Z i) false 30 0 (raw_of_Z_mag i 1023 Hd)
                  ltac:(cbn; lia) ltac:(cbn; unfold emax; lia)) as Hm.
    destruct (div (raw_of_Z i) (S754_finite false 30 0)); cbn [mag] in Hm;
      try contradiction; eexists; reflexivity.
  - cbn [to_float]. destruct (py_float_of_int_ok i Hd) as [-> _]. cbn [rbind].
    unfold py_float_truediv. rewrite (leb_zero_nonzero fps Hle). eexists; reflexivity.
Qed.

(** A product below one in magnitude truncates to zero. *)
Lemma truncates_to_zero (p : float) :
  valid p = true -> ltb (of_Z (-1)) p = true -> ltb p (of_Z 1) = true ->
  py_int_of_float p = Ok 0.
Proof.
  intros Hv Hlo Hhi. destruct p as [s|s| |s m e]; try reflexivity;
    try (destruct s; discriminate); try discriminate.
  cbn [py_int_of_float]. f_equal. unfold truncZ.
  assert (Hz : Z.shiftl (Z.pos m) e = 0); [|rewrite Hz; destruct s; reflexivity].
  unfold valid, valid_binary, bounded, canonical_mantissa in Hv.
  apply andb_true_iff in Hv. destruct Hv as [Hc _]. apply Z.eqb_eq in Hc.
  rewrite fexp_eq in Hc.
  assert (Hd : Z.pos (digits2_pos m) <= 53) by (unfold prec in Hc; lia).
  pose proof (Zdigits2_spec (Z.pos m) ltac:(lia)) as [_ Hlt]. cbn [Zdigits2] in Hlt.
  assert (He : e < -52 \/ (e = -52 /\ Z.pos m < 2 ^ 52)).
  { change (of_Z 1) with (S754_finite false 4503599627370496 (-52)) in Hhi.
    change (of_Z (-1)) with (S754_finite true 4503599627370496 (-52)) in Hlo.
    unfold ltb, SFltb in Hlo, Hhi. cbn [SFcompare] in Hlo, Hhi.
    rewrite Pos.compare_cont_spec in Hlo, Hhi.
    destruct s.
    - destruct (Z.compare_spec (-52) e) as [Heq|Hl|Hg]; try discriminate; [|lia].
      right. split; [lia|].
      destruct (Pos.compare_spec 4503599627370496 m) as [Hm|Hm|Hm]; try discriminate.
      exact Hm.
    - destruct (Z.compare_spec e (-52)) as [Heq|Hl|Hg]; try discriminate; [|lia].
      right. split; [lia|].
      destruct (Pos.compare_spec m 4503599627370496) as [Hm|Hm|Hm]; try discriminate.
      exact Hm. }
  rewrite <- (Z.opp_involutive e). rewrite Z.shiftl_opp_r.
  rewrite Z.shiftr_div_pow2 by lia. apply Z.div_small. split; [lia|].
  destruct He as [He|[He Hm]].
  - assert (2 ^ Z.pos (digits2_pos m) <= 2 ^ (- e)) by (apply Z.pow_le_mono_r; lia). lia.
  - subst e. exact Hm.
Qed.

Section WithEnv.
Context {E : Env}.

Lemma sample_loop_spec (fi : Z) (fps : pynum) (stream : list image) :
  fi <> 0 ->
  forall (start : Z) (acc : Sampled),
    (forall i, start <= i < start + Z.of_nat (List.length stream) ->
               exists t, py_truediv (PyInt i) fps = Ok t) ->
    exists ts,
      sample_loop fi fps start stream acc
      = Ok {| frames :=
                frames acc
                ++ map (fun p => imencode_jpg_b64 (snd p))
                       (filter (fun p => fst p mod fi =? 0) (numbered start stream));
              timestamps := timestamps acc ++ ts;
              frame_images :=
                frame_images acc
                ++ map (fun p => cvtColor_BGR2RGB (snd p))
                       (filter (fun p => fst p mod fi =? 0) (numbered start stream));
              frame_numbers :=
                frame_numbers acc
                ++ map fst (filter (fun p => fst p mod fi =? 0) (numbered start stream)) |}
      /\ Forall2 (fun n t => py_truediv (PyInt n) fps = Ok t)
                 (map fst (filter (fun p => fst p mod fi =? 0) (numbered start stream))) ts.
Proof.
  intros Hfi. induction stream as [|frame rest IH]; intros start acc Hts.
  - exists []. cbn [sample_loop numbered filter map]. rewrite !List.app_nil_r.
    split; [destruct acc; reflexivity | constructor].
  - cbn [sample_loop numbered filter fst]. cbn [py_mod].
    replace (fi =? 0) with false by (symmetry; apply Z.eqb_neq; exact Hfi).
    cbn [rbind].
    assert (Hrest : forall i, start + 1 <= i < start + 1 + Z.of_nat (List.length rest) ->
                              exists t, py_truediv (PyInt i) fps = Ok t).
    { intros i Hi. apply Hts. cbn [List.length]. lia. }
    destruct (start mod fi) as [|r|r] eqn:Hr; cbn [Z.eqb rbind].
    + destruct (Hts start) as [t Ht]; [cbn [List.length]; lia|]. rewrite Ht. cbn [rbind].
      match goal with
      | |- context [sample_loop _ _ _ _ ?a] =>
          destruct (IH (start + 1) a Hrest) as (ts & Hloop & Hall)
      end.
      rewrite Hloop.
      exists (t :: ts). cbn [frames timestamps frame_images frame_numbers map snd fst].
      rewrite <- !List.app_assoc. split; [reflexivity|].
      constructor; assumption.
    + destruct (IH (start + 1) acc Hrest) as (ts & Hloop & Hall). rewrite Hloop.
      exists ts. split; [reflexivity | exact Hall].
    + destruct (IH (start + 1) acc Hrest) as (ts & Hloop & Hall). rewrite Hloop.
      exists ts. split; [reflexivity | exact Hall].
Qed.

Lemma sample_loop_zero (fps : pynum) (start : Z) (frame : image) (rest : list image)
      (acc : Sampled) :
  sample_loop 0 fps start (frame :: rest) acc
  = Raise (Exn ZeroDivisionError (lit "integer modulo by zero")).
Proof. reflexivity. Qed.

(** The part of [extract_frames] before the loop. *)
Lemma frame_count_ok (x : float) :
  mag 1023 x ->
  exists total, py_int_of_float x = Ok total /\ Zdigits2 total <= 1023.
Proof.
  destruct x as [s| | |s m e]; cbn [mag]; try contradiction.
  - intros _. exists 0. split; [reflexivity | cbn; lia].
  - intros [Hk _]. exists (truncZ s m e). split; [reflexivity|].
    apply truncZ_digits; lia.
Qed.

Lemma duration_ok (fps : float) (total : Z) :
  Zdigits2 total <= 1023 ->
  exists duration,
    (if ltb zero fps
     then rbind (py_truediv (PyInt total) (PyFloat fps)) (fun d => Ok (PyFloat d))
     else Ok (PyInt 0)) = Ok duration.
Proof.
  intros Hd. destruct (ltb zero fps) eqn:Hlt; [|eexists; reflexivity].
  cbn [py_truediv to_float]. destruct (py_float_of_int_ok total Hd) as [-> _].
  cbn [rbind]. unfold py_float_truediv. rewrite (ltb_zero_nonzero fps Hlt).
  eexists; reflexivity.
Qed.

End WithEnv.
End SamplerFacts.

(* ===================================================================== *)
(** * The remote calls and the aggregation *)
(* ===================================================================== *)

Module PipelineFacts.
Import TextFacts JsonFacts.

Lemma forallb_skipn {A} (f : A -> bool) (n : nat) (l : list A) :
  forallb f l = true -> forallb f (skipn n l) = true.
Proof.
  revert l. induction n as [|n IH]; intros l H; [exact H|].
  destruct l as [|a l]; [reflexivity|]. cbn [skipn]. apply IH.
  cbn [forallb] in H. apply andb_true_iff in H. tauto.
Qed.

Lemma digits_uint (s : str) :
  forallb is_digit s = true -> exists d, uint_of_str s = Some d.
Proof.
  induction s as [|c s IH]; intros H; [eexists; reflexivity|].
  cbn [forallb] in H. apply andb_true_iff in H. destruct H as [Hc Hs].
  destruct (IH Hs) as [d Hd]. cbn [uint_of_str]. rewrite Hd.
  unfold is_digit in Hc. apply andb_true_iff in Hc. destruct Hc as [H1 H2].
  apply N.leb_le in H1. apply N.leb_le in H2.
  assert (Hcases : (c = 48 \/ c = 49 \/ c = 50 \/ c = 51 \/ c = 52 \/ c = 53 \/ c = 54
                    \/ c = 55 \/ c = 56 \/ c = 57)%N) by lia.
  repeat (destruct Hcases as [->|Hcases]; [eexists; reflexivity|]).
  subst c. eexists; reflexivity.
Qed.

Lemma py_int_of_digits (s : str) :
  forallb is_digit s = true -> s <> [] -> exists z, py_int_of_str s = Ok z.
Proof.
  intros Hd Hne. destruct s as [|c r]; [contradiction|].
  destruct (digits_uint (c :: r) Hd) as [d Hu].
  cbn [forallb] in Hd. apply andb_true_iff in Hd. destruct Hd as [Hc _].
  destruct (digit_not_sign c Hc) as [H45 H43].
  unfold py_int_of_str. rewrite H45, H43, Hu. eexists; reflexivity.
Qed.

Lemma skipn_nonempty {A} (n : nat) (l : list A) : (n < List.length l)%nat -> skipn n l <> [].
Proof.
  intros H Hnil. pose proof (length_skipn n l) as Hl. rewrite Hnil in Hl.
  cbn [List.length] in Hl. lia.
Qed.

(** [int(str(t)[-8:])] never raises. *)
Lemma lls_kv_id_ok (t : Z) : exists z, py_int_of_str (last_chars 8 (str_of_Z t)) = Ok z.
Proof.
  unfold last_chars.
  destruct (Nat.le_gt_cases (List.length (str_of_Z t)) 8) as [Hle|Hgt].
  - replace (List.length (str_of_Z t) - 8)%nat with 0%nat by lia. cbn [skipn].
    exists t. apply py_int_of_str_of_Z.
  - assert (Hdig : forall n, forallb is_digit (str_of_N n) = true)
      by (intros n; apply str_of_uint_digits).
    destruct t as [|p|p]; cbn [str_of_Z] in *.
    + apply py_int_of_digits; [apply forallb_skipn, Hdig | apply skipn_nonempty; lia].
    + apply py_int_of_digits; [apply forallb_skipn, Hdig | apply skipn_nonempty; lia].
    + cbn [List.length] in Hgt |- *.
      replace (S (List.length (str_of_N (N.pos p))) - 8)%nat
        with (S (List.length (str_of_N (N.pos p)) - 8)) by lia.
      cbn [skipn].
      apply py_int_of_digits; [apply forallb_skipn, Hdig | apply skipn_nonempty; lia].
Qed.

Lemma map_result_length {A B} (f : A -> result B) (l : list A) (r : list B) :
  map_result f l = Ok r -> List.length r = List.length l.
Proof.
  revert r. induction l as [|a l IH]; intros r H; cbn [map_result] in H.
  - injection H as <-. reflexivity.
  - destruct (f a) as [b|e]; [|discriminate]. cbn [rbind] in H.
    destruct (map_result f l) as [bs|e]; [|discriminate]. cbn [rbind] in H.
    injection H as <-. cbn [List.length]. rewrite (IH bs eq_refl). reflexivity.
Qed.

Lemma make_rows_timestamps (ns : list Z) (ts : list float) (fs : list str)
      (ds os ss : list value) :
  List.length ns = List.length ts -> List.length fs = List.length ts ->
  List.length ds = List.length ts -> List.length os = List.length ts ->
  List.length ss = List.length ts ->
  map row_timestamp (make_rows ns ts fs ds os ss) = ts.
Proof.
  revert ns fs ds os ss. induction ts as [|t ts IH]; intros ns fs ds os ss H1 H2 H3 H4 H5.
  - destruct ns, fs, ds, os, ss; reflexivity.
  - destruct ns as [|n ns], fs as [|f fs], ds as [|d ds], os as [|o os], ss as [|s ss];
      try discriminate.
    cbn [make_rows map row_timestamp]. f_equal.
    apply IH; cbn [List.length] in *; lia.
Qed.

Section WithEnv.
Context {E : Env}.

(** The rows of the frame carry the timestamps, in order. *)
Lemma build_dataframe_timestamps (frame_numbers : list Z) (timestamps : list float)
      (parsed_metadata : list value) (df : DataFrame) :
  build_dataframe frame_numbers timestamps parsed_metadata = Ok df ->
  map row_timestamp df = timestamps.
Proof.
  unfold build_dataframe. intros H.
  destruct (map_result _ timestamps) as [fs|e] eqn:Hf; [|discriminate]. cbn [rbind] in H.
  destruct (map_result _ parsed_metadata) as [ds|e] eqn:Hd; [|discriminate].
  cbn [rbind] in H.
  destruct (map_result (fun m => subscript m (lit "objects_detected")) parsed_metadata)
    as [os|e] eqn:Ho; [|discriminate].
  cbn [rbind] in H.
  destruct (map_result (fun m => subscript m (lit "scene_type")) parsed_metadata)
    as [ss|e] eqn:Hs; [|discriminate].
  cbn [rbind] in H.
  destruct ((List.length frame_numbers =? List.length timestamps)%nat
            && (List.length timestamps =? List.length parsed_metadata)%nat) eqn:Hlen;
    [|discriminate].
  apply andb_true_iff in Hlen. destruct Hlen as [H1 H2].
  apply Nat.eqb_eq in H1. apply Nat.eqb_eq in H2.
  injection H as <-. apply make_rows_timestamps.
  - exact H1.
  - exact (map_result_length _ _ _ Hf).
  - rewrite (map_result_length _ _ _ Hd). lia.
  - rewrite (map_result_length _ _ _ Ho). lia.
  - rewrite (map_result_length _ _ _ Hs). lia.
Qed.

(** The aggregation completes once the frame is built and the duration is
    formatted; the record holds the events of the rows and the subtitles. *)
Lemma create_metadata_df_ok (self : MetadataManager) (frame_metadata : list str)
      (timestamps : list float) (audio_data : value) (video_metadata : VideoInfo)
      (frame_numbers : list Z) (df : DataFrame) (duration : str) (w : world) :
  build_dataframe frame_numbers timestamps (map parse_frame_metadata frame_metadata)
  = Ok df ->
  format_duration (info_duration video_metadata) = Ok duration ->
  exists (d : list (str * value)) (w' : world),
    create_metadata_df self frame_metadata timestamps audio_data video_metadata
      frame_numbers w
    = ({| metadata_df := Some df; video_metadata := Some video_metadata;
          structured_data := Some (VDict d) |}, Ok tt, w')
    /\ record_events (VDict d) = Ok (VList (map event_of_row df))
    /\ record_subtitles (VDict d) = Ok (subtitles_of audio_data).
Proof.
  intros Hdf Hdur. unfold create_metadata_df. rewrite Hdf.
  unfold build_structured_data, bind, ret.
  destruct (time_time w) as [t1 w1]. destruct (time_time w1) as [t2 w2].
  destruct (uuid4 w2) as [u1 w3]. destruct (time_time w3) as [t3 w4].
  destruct (time_time w4) as [t4 w5].
  destruct (lls_kv_id_ok t2) as [z Hz]. rewrite Hz, Hdur.
  destruct (time_time w5) as [t5 w6]. destruct (uuid4 w6) as [u2 w7].
  destruct (time_time w7) as [t6 w8].
  eexists; eexists. split; [reflexivity|]. split; reflexivity.
Qed.

(** What a completed aggregation has built. *)
Lemma create_metadata_df_inv (self self' : MetadataManager) (frame_metadata : list str)
      (timestamps : list float) (audio_data : value) (video_metadata : VideoInfo)
      (frame_numbers : list Z) (w w' : world) :
  create_metadata_df self frame_metadata timestamps audio_data video_metadata
    frame_numbers w = (self', Ok tt, w') ->
  exists (df : DataFrame) (duration : str) (d : list (str * value)),
    build_dataframe frame_numbers timestamps (map parse_frame_metadata frame_metadata)
    = Ok df
    /\ format_duration (info_duration video_metadata) = Ok duration
    /\ self' = {| metadata_df := Some df; video_metadata := Some video_metadata;
                  structured_data := Some (VDict d) |}
    /\ record_events (VDict d) = Ok (VList (map event_of_row df))
    /\ record_subtitles (VDict d) = Ok (subtitles_of audio_data).
Proof.
  intros Hrun.
  destruct (build_dataframe frame_numbers timestamps
              (map parse_frame_metadata frame_metadata)) as [df|e] eqn:Hdf.
  2:{ unfold create_metadata_df in Hrun. rewrite Hdf in Hrun. unfold ret in Hrun.
      discriminate Hrun. }
  destruct (format_duration (info_duration video_metadata)) as [duration|e] eqn:Hdur.
  2:{ unfold create_metadata_df in Hrun. rewrite Hdf in Hrun.
      unfold build_structured_data, bind, ret in Hrun.
      destruct (time_time w) as [t1 v1]. destruct (time_time v1) as [t2 v2].
      destruct (uuid4 v2) as [u1 v3]. destruct (time_time v3) as [t3 v4].
      destruct (time_time v4) as [t4 v5]. rewrite Hdur in Hrun.
      destruct (py_int_of_str (last_chars 8 (str_of_Z t2))); discriminate Hrun. }
  destruct (create_metadata_df_ok self frame_metadata timestamps audio_data video_metadata
              frame_numbers df duration w Hdf Hdur) as (d & w'' & Hc & Hev & Hsub).
  rewrite Hc in Hrun. exists df, duration, d.
  split; [reflexivity|]. split; [reflexivity|]. split; [|split; assumption].
  apply (f_equal (fun r => fst (fst r))) in Hrun. cbn [fst] in Hrun. symmetry. exact Hrun.
Qed.

(** ** Frame analysis *)

Lemma analyze_frames_spec (pairs : list (str * float)) :
  forall (done : list str) (w : world),
    exists (metadata : list str) (w' : world),
      analyze_frames pairs done w = (done ++ metadata, w')
      /\ analysed pairs w metadata w'.
Proof.
  induction pairs as [|[frame timestamp] rest IH]; intros done w.
  - exists [], w. cbn [analyze_frames]. rewrite List.app_nil_r.
    split; [reflexivity | constructor].
  - cbn [analyze_frames]. unfold bind at 1.
    destruct (analyze_frame frame timestamp w) as [m w1] eqn:Hm.
    destruct (IH (done ++ [m]) w1) as (ms & w2 & Hrun & Hall).
    exists (m :: ms), w2. rewrite Hrun, <- List.app_assoc.
    split; [reflexivity | econstructor; eassumption].
Qed.

Lemma analysed_length (pairs : list (str * float)) (w w' : world) (metadata : list str) :
  analysed pairs w metadata w' -> List.length metadata = List.length pairs.
Proof. induction 1; cbn [List.length]; congruence. Qed.

(** ** Translation *)

Lemma translate_text_fallback (text target_language : str) (w w' : world) (e : exn) :
  chat_completions_create
    {| system_content :=
         lit "Translate the following text to " ++ target_language
         ++ lit ". Maintain the original meaning and tone.";
       user_content := text |} w = (Raise e, w') ->
  translate_text text target_language w = (text, w').
Proof. intros H. unfold translate_text, bind, ret. rewrite H. reflexivity. Qed.

Lemma translate_segments_spec (language_name : str) (segments : list Segment) :
  forall (track : list value) (w : world),
    exists (more : list value) (w' : world),
      translate_segments language_name segments track w = (track ++ more, w')
      /\ translated_track language_name segments w more w'.
Proof.
  induction segments as [|segment rest IH]; intros track w.
  - exists [], w. cbn [translate_segments]. rewrite List.app_nil_r.
    split; [reflexivity | constructor].
  - cbn [translate_segments]. unfold bind at 1.
    destruct (translate_text (seg_text segment) language_name w) as [text w1] eqn:Ht.
    destruct (IH (track ++ [subtitle_entry segment text]) w1) as (more & w2 & Hrun & Hall).
    exists (subtitle_entry segment text :: more), w2. rewrite Hrun, <- List.app_assoc.
    split; [reflexivity | econstructor; eassumption].
Qed.

Lemma timing_subtitle_entry (segment : Segment) (text : str) :
  timing (subtitle_entry segment text)
  = Ok (VStr (float_repr (seg_start segment)), VStr (float_repr (seg_end segment))).
Proof. reflexivity. Qed.

(** A translated track has the timing of the track of the recording. *)
Lemma translated_track_timing (language_name : str) (segments : list Segment)
      (w w' : world) (track : list value) :
  translated_track language_name segments w track w' ->
  map timing track = map timing (source_track segments).
Proof.
  induction 1 as [|segment rest w w1 w2 text track Ht Hrest IH]; [reflexivity|].
  cbn [map source_track]. rewrite !timing_subtitle_entry. f_equal. exact IH.
Qed.

Lemma dict_set_Forall (P : str * value -> Prop) (k : str) (v : value)
      (d : list (str * value)) :
  Forall P d -> P (k, v) -> Forall P (dict_set k v d).
Proof.
  intros Hd Hk. induction Hd as [|[k' v'] r Hkv Hr IH]; cbn [dict_set].
  - constructor; [exact Hk | constructor].
  - destruct (str_eqb k k') eqn:Heq.
    + apply str_eqb_eq in Heq. subst k'. constructor; assumption.
    + constructor; assumption.
Qed.

Lemma dict_set_keys (k k0 : str) (v : value) (d : list (str * value)) :
  In k0 (dict_keys (dict_set k v d)) <-> k0 = k \/ In k0 (dict_keys d).
Proof.
  unfold dict_keys. induction d as [|[k' v'] r IH]; cbn [dict_set map fst In].
  - intuition congruence.
  - destruct (str_eqb k k') eqn:Heq; cbn [map fst In].
    + apply str_eqb_eq in Heq. subst k'. intuition congruence.
    + rewrite IH. intuition congruence.
Qed.

Lemma translate_languages_spec (source_language : str) (segments : list Segment)
      (languages : list (str * str)) :
  incl languages supported_languages ->
  forall (subtitles : list (str * value)) (w : world),
    Forall (track_entry source_language segments) subtitles ->
    exists (result : list (str * value)) (w' : world),
      translate_languages languages source_language segments subtitles w = (result, w')
      /\ Forall (track_entry source_language segments) result
      /\ forall k, In k (dict_keys result)
                   <-> In k (dict_keys subtitles)
                       \/ (In k (map fst languages) /\ k <> source_language).
Proof.
  induction languages as [|[lang_code language_name] rest IH]; intros Hincl subtitles w Hall.
  - exists subtitles, w. split; [reflexivity|]. split; [exact Hall|].
    intros k. cbn [map In]. tauto.
  - assert (Hrest : incl rest supported_languages)
      by (intros x Hx; apply Hincl; right; exact Hx).
    cbn [translate_languages].
    destruct (str_eqb lang_code source_language) eqn:Heq; cbn [negb].
    + apply str_eqb_eq in Heq. subst lang_code.
      destruct (IH Hrest subtitles w Hall) as (result & w' & Hrun & Hres & Hkeys).
      exists result, w'. split; [exact Hrun|]. split; [exact Hres|].
      intros k. rewrite Hkeys. cbn [map fst In]. intuition congruence.
    + assert (Hne : lang_code <> source_language).
      { intros ->. rewrite str_eqb_refl in Heq. discriminate. }
      unfold bind at 1.
      destruct (translate_segments_spec language_name segments [] w)
        as (track & w1 & Htrack & Htr).
      rewrite Htrack. cbn [app].
      assert (Hentry : track_entry source_language segments (lang_code, VList track)).
      { right. exists language_name, w, w1, track. cbn [fst snd].
        split; [apply Hincl; left; reflexivity|]. split; [exact Hne|].
        split; [reflexivity | exact Htr]. }
      destruct (IH Hrest (dict_set lang_code (VList track) subtitles) w1
                  (dict_set_Forall _ _ _ _ Hall Hentry))
        as (result & w' & Hrun & Hres & Hkeys).
      exists result, w'. split; [exact Hrun|]. split; [exact Hres|].
      intros k. rewrite Hkeys, dict_set_keys. cbn [map fst In].
      split.
      * intros [[->|Hk]|[Hk Hn]]; auto.
      * intros [Hk|[[<-|Hk] Hn]]; auto.
Qed.

(** ** Audio annotation *)

Lemma extract_audio_write_failure (video_path : video) (w w' : world) (e : exn) :
  write_audiofile video_path w = (Raise e, w') ->
  extract_audio_with_translations video_path w = (error_dict e, w').
Proof. intros H. unfold extract_audio_with_translations, bind, ret. rewrite H. reflexivity. Qed.

Lemma extract_audio_transcription_failure (video_path : video) (w w0 w' : world)
      (audio_file : bytes) (e : exn) :
  write_audiofile video_path w = (Ok audio_file, w0) ->
  transcriptions_create audio_file w0 = (Raise e, w') ->
  extract_audio_with_translations video_path w = (error_dict e, w').
Proof.
  intros H1 H2. unfold extract_audio_with_translations, bind, ret. rewrite H1, H2.
  reflexivity.
Qed.

Lemma extract_audio_success (video_path : video) (w w0 w1 w2 : world)
      (audio_file : bytes) (transcript : Transcript) (source_language : str) :
  write_audiofile video_path w = (Ok audio_file, w0) ->
  transcriptions_create audio_file w0 = (Ok transcript, w1) ->
  detect_language (transcript_text transcript) w1 = (source_language, w2) ->
  exists (subtitles : list (str * value)) (w' : world),
    extract_audio_with_translations video_path w = (VDict subtitles, w')
    /\ Forall (track_entry source_language (transcript_segments transcript)) subtitles
    /\ forall k, In k (dict_keys subtitles)
                 <-> k = source_language \/ In k (map fst supported_languages).
Proof.
  intros H1 H2 H3. unfold extract_audio_with_translations.
  unfold bind at 1. rewrite H1. unfold bind at 1. rewrite H2.
  unfold bind at 1. rewrite H3.
  assert (Hinit : Forall (track_entry source_language (transcript_segments transcript))
                    (dict_set source_language
                       (VList (map (fun segment => subtitle_entry segment (seg_text segment))
                                   (transcript_segments transcript))) [])).
  { cbn [dict_set]. constructor; [|constructor]. left. split; reflexivity. }
  destruct (translate_languages_spec source_language (transcript_segments transcript)
              supported_languages (incl_refl _) _ w2 Hinit)
    as (result & w' & Hrun & Hres & Hkeys).
  exists result, w'. unfold bind, ret. rewrite Hrun.
  split; [reflexivity|]. split; [exact Hres|].
  intros k. rewrite Hkeys. cbn [dict_set dict_keys map fst In].
  destruct (list_eq_dec N.eq_dec k source_language) as [->|Hne]; [tauto|].
  split.
  - intros [[Hk|[]]|[Hk _]]; [left; congruence | right; exact Hk].
  - intros [Hk|Hk]; [contradiction | right; split; assumption].
Qed.

(** ** The whole run *)

Lemma process_video_ok (processor : VideoProcessor) (metadata_manager : MetadataManager)
      (video_path : video) (sampled : Sampled) (video_metadata : VideoInfo)
      (frame_metadata : list str) (audio_data : value) (df : DataFrame)
      (duration : str) (w w1 w2 : world) :
  extract_frames video_path 2 = Ok (sampled, video_metadata) ->
  analyze_frames (combine (frames sampled) (timestamps sampled)) [] w
  = (frame_metadata, w1) ->
  extract_audio_with_translations video_path w1 = (audio_data, w2) ->
  build_dataframe (frame_numbers sampled) (timestamps sampled)
    (map parse_frame_metadata frame_metadata) = Ok df ->
  format_duration (info_duration video_metadata) = Ok duration ->
  exists (d : list (str * value)) (w3 : world),
    create_metadata_df metadata_manager frame_metadata (timestamps sampled) audio_data
      video_metadata (frame_numbers sampled) w2
    = ({| metadata_df := Some df; video_metadata := Some video_metadata;
          structured_data := Some (VDict d) |}, Ok tt, w3)
    /\ process_video processor metadata_manager video_path w
       = (fst (fst (create_assistant_with_results processor (VDict d) w3)),
          {| metadata_df := Some df; video_metadata := Some video_metadata;
             structured_data := Some (VDict d) |},
          snd (fst (create_assistant_with_results processor (VDict d) w3)),
          snd (create_assistant_with_results processor (VDict d) w3))
    /\ record_events (VDict d) = Ok (VList (map event_of_row df))
    /\ record_subtitles (VDict d) = Ok (subtitles_of audio_data).
Proof.
  intros Hx Hf Ha Hdf Hdur. unfold process_video. rewrite Hx.
  unfold bind at 1. rewrite Hf. unfold bind at 1. rewrite Ha. unfold bind at 1.
  destruct (create_metadata_df_ok metadata_manager frame_metadata (timestamps sampled)
              audio_data video_metadata (frame_numbers sampled) df duration w2 Hdf Hdur)
    as (d & w3 & Hc & Hev & Hsub).
  rewrite Hc. exists d, w3. split; [reflexivity|]. split; [|split; assumption].
  unfold bind, ret. cbn [get_structured_output structured_data].
  destruct (create_assistant_with_results processor (VDict d) w3) as [[processor' r] w4].
  reflexivity.
Qed.

End WithEnv.
End PipelineFacts.

(* ===================================================================== *)
(** * The properties of the specification *)
(* ===================================================================== *)

Section Claims.
Context {E : Env}.
Import F64Facts DurationFacts TextFacts JsonFacts Utf8Facts ExportFacts SamplerFacts
       PipelineFacts.

(** C1, amended.  The interval is [int(fps * sample_rate)], the product
    truncated toward zero and not rounded.  When the reported frame count
    and the length of the stream are within the range of a float and the
    interval is not zero, [extract_frames] returns; it keeps exactly the
    frames whose index is a multiple of the interval, in order, with their
    index, their encoding, their converted image and the timestamp
    [index / fps]. *)
Theorem extract_frames_keeps_multiples (video_path : video) (sample_rate interval : Z) :
  F64.mag 1023 (CAP_PROP_FRAME_COUNT (cv2_VideoCapture video_path)) ->
  Z.of_nat (List.length (readable_frames (cv2_VideoCapture video_path))) <= 2 ^ 1023 ->
  frame_interval_of (CAP_PROP_FPS (cv2_VideoCapture video_path)) sample_rate
  = Ok interval ->
  interval <> 0 ->
  exists (s : Sampled) (info : VideoInfo),
    extract_frames video_path sample_rate = Ok (s, info)
    /\ info_frame_interval info = interval
    /\ frame_numbers s
       = map fst (kept_frames interval (readable_frames (cv2_VideoCapture video_path)))
    /\ frames s
       = map (fun p => imencode_jpg_b64 (snd p))
             (kept_frames interval (readable_frames (cv2_VideoCapture video_path)))
    /\ frame_images s
       = map (fun p => cvtColor_BGR2RGB (snd p))
             (kept_frames interval (readable_frames (cv2_VideoCapture video_path)))
    /\ Forall2 (fun n t =>
                  py_truediv (PyInt n)
                    (fps_or_default (CAP_PROP_FPS (cv2_VideoCapture video_path))) = Ok t)
               (frame_numbers s) (timestamps s).
Proof.
  intros Hcount Hlen Hint Hne. unfold extract_frames.
  destruct (frame_count_ok _ Hcount) as (total & Htotal & Hdig).
  rewrite Htotal, Hint. cbn [rbind].
  destruct (duration_ok (CAP_PROP_FPS (cv2_VideoCapture video_path)) total Hdig)
    as [duration Hdur].
  rewrite Hdur. cbn [rbind].
  destruct (sample_loop_spec interval
              (fps_or_default (CAP_PROP_FPS (cv2_VideoCapture video_path)))
              (readable_frames (cv2_VideoCapture video_path)) Hne 0 no_frames)
    as (ts & Hloop & Hall).
  { intros i Hi. apply timestamp_ok. lia. }
  rewrite Hloop. cbn [rbind]. eexists; eexists. split; [reflexivity|].
  cbn [info_frame_interval frame_numbers frames frame_images timestamps no_frames app].
  unfold kept_frames. repeat split; try reflexivity. exact Hall.
Qed.

(** C2.  When the vision call fails, [analyze_frame] returns the text of a
    sentinel whose [scene_type] is [error] and whose [objects_detected] is
    empty; the aggregation reads the sentinel back from that text; and the
    loop goes on to analyse every remaining frame. *)
Theorem analysis_failure_is_data (frame : str) (timestamp : float) (w w' : world)
        (e : exn) :
  chat_completions_parse_frame frame timestamp w = (Raise e, w') ->
  exists description : str,
    description
    = (if exn_is LengthFinishReasonError e
       then lit "Error: Response exceeded token limit"
       else lit "Error analyzing frame: " ++ exn_str e)
    /\ analyze_frame frame timestamp w
       = (json_dumps true None (frame_analysis_dict description [] (lit "error")), w')
    /\ subscript (frame_analysis_dict description [] (lit "error")) (lit "scene_type")
       = Ok (VStr (lit "error"))
    /\ subscript (frame_analysis_dict description [] (lit "error"))
         (lit "objects_detected") = Ok (VList [])
    /\ (scalar_str (exn_str e) = true ->
        parse_frame_metadata
          (json_dumps true None (frame_analysis_dict description [] (lit "error")))
        = frame_analysis_dict description [] (lit "error"))
    /\ forall (rest : list (str * float)) (done : list str),
         exists (metadata : list str) (w'' : world),
           analyze_frames ((frame, timestamp) :: rest) done w
           = (done
              ++ json_dumps true None (frame_analysis_dict description [] (lit "error"))
                 :: metadata, w'')
           /\ analysed rest w' metadata w''
           /\ List.length metadata = List.length rest.
Proof.
  intros Hfail. eexists. split; [reflexivity|].
  assert (Hrun : analyze_frame frame timestamp w
                 = (json_dumps true None
                      (frame_analysis_dict
                         (if exn_is LengthFinishReasonError e
                          then lit "Error: Response exceeded token limit"
                          else lit "Error analyzing frame: " ++ exn_str e)
                         [] (lit "error")), w')).
  { unfold analyze_frame, bind, ret. rewrite Hfail.
    destruct (exn_is LengthFinishReasonError e); reflexivity. }
  split; [exact Hrun|]. split; [reflexivity|]. split; [reflexivity|]. split.
  - intros Hs. unfold parse_frame_metadata. rewrite json_loads_dumps_plain; [reflexivity|].
    unfold float_free, frame_analysis_dict.
    cbn [wf_value_with map fst snd forallb].
    replace (scalar_str (if exn_is LengthFinishReasonError e
                         then lit "Error: Response exceeded token limit"
                         else lit "Error analyzing frame: " ++ exn_str e)) with true.
    + reflexivity.
    + symmetry. destruct (exn_is LengthFinishReasonError e); [reflexivity|].
      rewrite scalar_str_app, Hs. reflexivity.
  - intros rest done. cbn [analyze_frames]. unfold bind at 1. rewrite Hrun.
    destruct (analyze_frames_spec rest (done ++ [json_dumps true None
                (frame_analysis_dict
                   (if exn_is LengthFinishReasonError e
                    then lit "Error: Response exceeded token limit"
                    else lit "Error analyzing frame: " ++ exn_str e)
                   [] (lit "error"))]) w')
      as (metadata & w'' & Hloop & Hall).
    exists metadata, w''. rewrite Hloop, <- List.app_assoc.
    split; [reflexivity|]. split; [exact Hall | exact (analysed_length _ _ _ _ Hall)].
Qed.




(** C6.  On a non-negative duration [format_duration] returns four fields
    of two digits or more separated by colons.  The last field is
    [floor((seconds mod 1) * 24)], in the arithmetic of floats.  When the
    whole seconds are below [2 ^ 53], the first three fields are the hours,
    the minutes and the seconds of the whole seconds.  And
    [format_duration(125.5)] is [00:02:05:12]. *)
Theorem format_duration_frames (seconds : pynum) :
  nonneg_duration seconds ->
  (exists hours minutes secs frames : Z,
     subsecond_frames seconds = Ok frames
     /\ format_duration seconds
        = Ok (format_02d hours ++ colon ++ format_02d minutes ++ colon
              ++ format_02d secs ++ colon ++ format_02d frames)
     /\ (whole_seconds seconds < 2 ^ 53 ->
         hours = whole_seconds seconds / 3600
         /\ minutes = whole_seconds seconds mod 3600 / 60
         /\ secs = whole_seconds seconds mod 60))
  /\ format_duration (PyFloat (F64.ratio 1255 10)) = Ok (lit "00:02:05:12").
Proof.
  intros Hs. split; [|vm_compute; reflexivity].
  destruct seconds as [z|x]; cbn [nonneg_duration] in Hs.
  - exists (z / 3600), (z mod 3600 / 60), (z mod 60), (z mod 1 * 24).
    split; [reflexivity|]. split; [reflexivity|]. intros _. cbn [whole_seconds].
    repeat split.
  - destruct Hs as (Hv & Hf & Hp).
    destruct (Z.lt_ge_cases (whole_seconds (PyFloat x)) (2 ^ 53)) as [Hlt|Hge].
    + assert (Hint : py_int_of_float x = Ok (whole_seconds (PyFloat x))).
      { destruct x as [s| | |s m e]; try discriminate Hf; [reflexivity|].
        rewrite (F64Exact.nonneg_finite s m e Hp). reflexivity. }
      assert (Hnn : 0 <= whole_seconds (PyFloat x)).
      { destruct x as [s| | |s m e]; cbn [whole_seconds]; try lia.
        rewrite (F64Exact.nonneg_finite s m e Hp). unfold F64.floorZ. cbn [cond_Zopp].
        apply Z.shiftl_nonneg. lia. }
      destruct (F64Exact.format_duration_whole x _ Hv Hf Hp Hint
                  (Zdigits2_le _ 53 Hnn ltac:(lia) Hlt)) as (frames & Hsub & Hfmt).
      exists (whole_seconds (PyFloat x) / 3600),
             (whole_seconds (PyFloat x) mod 3600 / 60),
             (whole_seconds (PyFloat x) mod 60), frames.
      split; [exact Hsub|]. split; [exact Hfmt|]. intros _. repeat split.
    + destruct (format_duration_float x Hv Hf Hp)
        as (hours & minutes & secs & frames & Hsub & Hfmt).
      exists hours, minutes, secs, frames. split; [exact Hsub|]. split; [exact Hfmt|].
      intros Hlt. exfalso. apply (Z.lt_irrefl (2 ^ 53)).
      apply (Z.le_lt_trans _ _ _ Hge Hlt).
Qed.

(** C7.  The events of a record are one per timestamp, in order, each with
    the timestamp as its [inpoint] and its [outpoint]; when the timestamps
    are in non-decreasing order, so are the events by [inpoint]. *)
Theorem events_follow_timestamps (self : MetadataManager) (frame_metadata : list str)
        (timestamps : list float) (audio_data : value) (video_metadata : VideoInfo)
        (frame_numbers : list Z) (df : DataFrame) (duration : str) (w : world) :
  build_dataframe frame_numbers timestamps (map parse_frame_metadata frame_metadata)
  = Ok df ->
  format_duration (info_duration video_metadata) = Ok duration ->
  exists (d : list (str * value)) (events : list value) (w' : world),
    create_metadata_df self frame_metadata timestamps audio_data video_metadata
      frame_numbers w
    = ({| metadata_df := Some df; video_metadata := Some video_metadata;
          structured_data := Some (VDict d) |}, Ok tt, w')
    /\ record_events (VDict d) = Ok (VList events)
    /\ Forall2 event_at timestamps events
    /\ (Sorted (fun a b => F64.leb a b = true) timestamps -> Sorted inpoint_le events).
Proof.
  intros Hdf Hdur.
  destruct (create_metadata_df_ok self frame_metadata timestamps audio_data video_metadata
              frame_numbers df duration w Hdf Hdur) as (d & w' & Hc & Hev & _).
  exists d, (map event_of_row df), w'. split; [exact Hc|]. split; [exact Hev|].
  rewrite <- (build_dataframe_timestamps _ _ _ _ Hdf). clear. split.
  - induction df as [|row df IH]; cbn [map]; constructor; [split; reflexivity | exact IH].
  - induction df as [|row df IH]; cbn [map]; intros Hs; [constructor|].
    inversion Hs as [|? ? Hs' Hhd]; subst. constructor; [exact (IH Hs')|].
    destruct df as [|row' df]; cbn [map] in *; constructor.
    inversion Hhd as [|? ? Hle]; subst.
    exists (row_timestamp row), (row_timestamp row'). repeat split. exact Hle.
Qed.

(** C8.  Before any video has been processed, both query paths return their
    fixed message about the missing context, without calling any service. *)
Theorem query_without_context (processor : VideoProcessor)
        (metadata_manager : MetadataManager) (query : str) (w : world) :
  assistant processor = None -> metadata_df metadata_manager = None ->
  query_assistant processor query w
  = (lit "No assistant available. Please process a video first.", w)
  /\ query_metadata metadata_manager query w
     = (lit "No metadata available. Please process a video first.", w).
Proof.
  intros Ha Hm. unfold query_assistant, query_metadata. rewrite Ha, Hm.
  split; reflexivity.
Qed.


(** C10, amended.  When the product of the reported rate and the sampling
    interval is strictly between minus one and one, as it is for a rate of
    zero, the interval is zero; the rate is replaced by 30 only after the
    interval is computed, so as soon as a frame can be read [extract_frames]
    raises the [ZeroDivisionError] of the modulo on the first frame; when no
    frame can be read nothing is raised and no frame is returned. *)
Theorem zero_interval_stops_sampling (video_path : video) (sample_rate : Z) (p : float) :
  F64.mag 1023 (CAP_PROP_FRAME_COUNT (cv2_VideoCapture video_path)) ->
  py_mul (PyFloat (CAP_PROP_FPS (cv2_VideoCapture video_path))) (PyInt sample_rate)
  = Ok (PyFloat p) ->
  F64.valid p = true ->
  F64.ltb (F64.of_Z (-1)) p = true ->
  F64.ltb p (F64.of_Z 1) = true ->
  frame_interval_of (CAP_PROP_FPS (cv2_VideoCapture video_path)) sample_rate = Ok 0
  /\ (readable_frames (cv2_VideoCapture video_path) <> [] ->
      extract_frames video_path sample_rate
      = Raise (Exn ZeroDivisionError (lit "integer modulo by zero")))
  /\ (readable_frames (cv2_VideoCapture video_path) = [] ->
      exists info : VideoInfo,
        extract_frames video_path sample_rate = Ok (no_frames, info)
        /\ info_frame_interval info = 0).
Proof.
  intros Hcount Hmul Hv Hlo Hhi.
  assert (Hint : frame_interval_of (CAP_PROP_FPS (cv2_VideoCapture video_path)) sample_rate
                 = Ok 0).
  { unfold frame_interval_of. rewrite Hmul. cbn [rbind py_int].
    exact (truncates_to_zero p Hv Hlo Hhi). }
  split; [exact Hint|].
  destruct (frame_count_ok _ Hcount) as (total & Htotal & Hdig).
  destruct (duration_ok (CAP_PROP_FPS (cv2_VideoCapture video_path)) total Hdig)
    as [duration Hdur].
  split.
  - intros Hread. unfold extract_frames. rewrite Htotal, Hint. cbn [rbind].
    rewrite Hdur. cbn [rbind].
    destruct (readable_frames (cv2_VideoCapture video_path)) as [|frame rest];
      [contradiction Hread; reflexivity | reflexivity].
  - intros Hread. unfold extract_frames. rewrite Htotal, Hint. cbn [rbind].
    rewrite Hdur. cbn [rbind]. rewrite Hread. cbn [sample_loop rbind].
    eexists. split; reflexivity.
Qed.

End Claims.

(* ===================================================================== *)
(** * The properties on examples *)
(* ===================================================================== *)

Module Examples.
Import Demo Clips.

(** C1 as stated fails on 121 frames at 29.97 frames per second sampled
    every 2 seconds: the product is 59.94, the code keeps the frames 0, 59
    and 118, and the rounded interval 60 would keep 0, 60 and 120. *)
Lemma rounded_interval_refuted : ~ @keeps_rounded_multiples (scripted []) ntsc 2.
Proof.
  intros H.
  destruct (@extract_frames (scripted []) ntsc 2) as [[s info]|e] eqn:Hrun.
  - destruct (H s info Hrun) as (interval & Hi & Hk).
    apply (f_equal (fun r => match r with
                             | Ok (s, _) => frame_numbers s
                             | Raise _ => []
                             end)) in Hrun.
    vm_compute in Hi. injection Hi as <-. rewrite <- Hrun in Hk.
    vm_compute in Hk. discriminate Hk.
  - apply (f_equal (fun r => match r with Ok _ => true | Raise _ => false end)) in Hrun.
    vm_compute in Hrun. discriminate Hrun.
Qed.

Lemma extract_frames_keeps_multiples_witness :
  exists (s : Sampled) (info : VideoInfo),
    @extract_frames (scripted []) ntsc 2 = Ok (s, info)
    /\ info_frame_interval info = 59
    /\ frame_numbers s = [0; 59; 118].
Proof.
  destruct (@extract_frames_keeps_multiples (scripted []) ntsc 2 59)
    as (s & info & Hrun & Hint & Hnum & _).
  - vm_compute. split; intros H; discriminate H.
  - vm_compute. intros H; discriminate H.
  - vm_compute. reflexivity.
  - intros H; discriminate H.
  - exists s, info. split; [exact Hrun|]. split; [exact Hint|].
    rewrite Hnum. vm_compute. reflexivity.
Defined.

Lemma analysis_failure_is_data_witness :
  exists description : str,
    description = lit "Error analyzing frame: Request timed out."
    /\ @analyze_frame (scripted [0%nat]) (lit "0") F64.zero 0%nat
       = (@json_dumps (scripted [0%nat]) true None
            (frame_analysis_dict description [] (lit "error")), 1%nat).
Proof.
  destruct (@analysis_failure_is_data (scripted [0%nat]) (lit "0") F64.zero 0%nat 1%nat
              (Exn OtherException (lit "Request timed out.")) eq_refl)
    as (description & Hd & Hrun & _).
  exists description. split; [exact Hd | exact Hrun].
Defined.





Lemma format_duration_frames_witness :
  (exists hours minutes secs frames : Z,
     subsecond_frames (PyFloat (F64.ratio 1255 10)) = Ok frames
     /\ format_duration (PyFloat (F64.ratio 1255 10))
        = Ok (format_02d hours ++ colon ++ format_02d minutes ++ colon
              ++ format_02d secs ++ colon ++ format_02d frames)
     /\ (whole_seconds (PyFloat (F64.ratio 1255 10)) < 2 ^ 53 ->
         hours = whole_seconds (PyFloat (F64.ratio 1255 10)) / 3600
         /\ minutes = whole_seconds (PyFloat (F64.ratio 1255 10)) mod 3600 / 60
         /\ secs = whole_seconds (PyFloat (F64.ratio 1255 10)) mod 60))
  /\ format_duration (PyFloat (F64.ratio 1255 10)) = Ok (lit "00:02:05:12").
Proof.
  apply (format_duration_frames (PyFloat (F64.ratio 1255 10))).
  vm_compute. repeat split.
Defined.

Lemma events_follow_timestamps_witness :
  exists (manager' : MetadataManager) (d : list (str * value)) (events : list value)
         (w' : nat),
    @create_metadata_df (scripted []) MetadataManager_init
      [@json_dumps (scripted []) true None (frame_analysis_dict (lit "a") [] (lit "b"));
       lit "not json"]
      [F64.zero; F64.ratio 1 2] (VDict [])
      {| info_fps := F64.of_Z 2; info_duration := PyFloat (F64.of_Z 1);
         info_total_frames := 2; info_frame_interval := 1 |}
      [0; 1] 0%nat
    = (manager', Ok tt, w')
    /\ structured_data manager' = Some (VDict d)
    /\ record_events (VDict d) = Ok (VList events)
    /\ Forall2 event_at [F64.zero; F64.ratio 1 2] events
    /\ Sorted inpoint_le events.
Proof.
  edestruct (@events_follow_timestamps (scripted []) MetadataManager_init
               [@json_dumps (scripted []) true None (frame_analysis_dict (lit "a") [] (lit "b"));
                lit "not json"]
               [F64.zero; F64.ratio 1 2] (VDict [])
               {| info_fps := F64.of_Z 2; info_duration := PyFloat (F64.of_Z 1);
                  info_total_frames := 2; info_frame_interval := 1 |}
               [0; 1])
    as (d & events & w' & Hrun & Hev & Hat & Hsorted).
  - lazy. reflexivity.
  - lazy. reflexivity.
  - do 4 eexists. split; [exact Hrun|]. split; [reflexivity|]. split; [exact Hev|].
    split; [exact Hat|]. apply Hsorted.
    repeat constructor.
Defined.

Lemma query_without_context_witness :
  @query_assistant (scripted []) VideoProcessor_init (lit "who?") 0%nat
  = (lit "No assistant available. Please process a video first.", 0%nat)
  /\ @query_metadata (scripted []) MetadataManager_init (lit "who?") 0%nat
     = (lit "No metadata available. Please process a video first.", 0%nat).
Proof.
  apply (@query_without_context (scripted []) VideoProcessor_init MetadataManager_init);
    reflexivity.
Defined.


(** C10 as stated fails on a reported rate of minus five sampled every 2
    seconds: the product is below one, the interval is minus ten and the
    sampler returns the frames 0 and 10. *)
Lemma low_rate_refuted : ~ @low_rate_fails (scripted []) negative_rate 2.
Proof.
  intros H.
  destruct (H (F64.mul (F64.of_Z (-5)) (F64.of_Z 2)) 0%nat (seq 1 11)) as [msg Hmsg].
  - vm_compute. reflexivity.
  - vm_compute. reflexivity.
  - vm_compute. reflexivity.
  - apply (f_equal (fun r => match r with Ok _ => true | Raise _ => false end)) in Hmsg.
    vm_compute in Hmsg. discriminate Hmsg.
Qed.

Lemma zero_interval_stops_sampling_witness :
  frame_interval_of F64.zero 2 = Ok 0
  /\ @extract_frames (scripted []) no_rate 2
     = Raise (Exn ZeroDivisionError (lit "integer modulo by zero")).
Proof.
  destruct (@zero_interval_stops_sampling (scripted []) no_rate 2
              (F64.mul F64.zero (F64.of_Z 2))) as (Hint & Hraise & _).
  - vm_compute. split; intros H; discriminate H.
  - vm_compute. reflexivity.
  - vm_compute. reflexivity.
  - vm_compute. reflexivity.
  - vm_compute. reflexivity.
  - split; [exact Hint|]. apply Hraise. vm_compute. intros H. discriminate H.
Defined.

End Examples.

(* ===================================================================== *)
(** * Further facts about the sampler *)
(* ===================================================================== *)

Module SamplerMore.
Import F64 F64Facts SamplerFacts.

(** The indices [0 .. n-1]. *)
Lemma filter_map_fst {A} (P : Z -> bool) (l : list (Z * A)) :
  map fst (filter (fun p => P (fst p)) l) = filter P (map fst l).
Proof.
  induction l as [|[i a] l IH]; [reflexivity|]. cbn [filter map fst].
  destruct (P i); cbn [map fst]; rewrite IH; reflexivity.
Qed.

Lemma numbered_indices {A} (stream : list A) :
  forall start : Z,
    map fst ((fix numbered (start : Z) (stream : list A) : list (Z * A) :=
                match stream with
                | [] => []
                | frame :: rest => (start, frame) :: numbered (start + 1) rest
                end) start stream)
    = map (fun k => start + Z.of_nat k) (seq 0 (List.length stream)).
Proof.
  induction stream as [|a stream IH]; intros start; [reflexivity|].
  cbn [map fst List.length seq]. f_equal; [lia|].
  rewrite IH, <- seq_shift, map_map. apply map_ext. intros k. lia.
Qed.

Lemma mod_zero_abs (i d : Z) : d <> 0 -> (i mod d =? 0) = (i mod Z.abs d =? 0).
Proof.
  intros Hd. apply eq_true_iff_eq. rewrite !Z.eqb_eq.
  rewrite (Z.mod_divide i d Hd), (Z.mod_divide i (Z.abs d)) by lia.
  symmetry. apply Z.divide_abs_l.
Qed.

Lemma ceil_div_step (n D : Z) :
  0 <= n -> 0 < D ->
  (n + 1 + D - 1) / D = (n + D - 1) / D + (if n mod D =? 0 then 1 else 0)
  /\ (n mod D = 0 -> (n + D - 1) / D * D = n).
Proof.
  intros Hn HD. pose proof (Z.div_mod n D ltac:(lia)) as Hdm.
  pose proof (Z.mod_pos_bound n D HD) as Hr.
  destruct (Z.eqb_spec (n mod D) 0) as [Hz|Hnz].
  - assert (H1 : (n + D - 1) / D = n / D).
    { symmetry. apply (Z.div_unique (n + D - 1) D (n / D) (D - 1)); lia. }
    assert (H2 : (n + 1 + D - 1) / D = n / D + 1).
    { symmetry. apply (Z.div_unique (n + 1 + D - 1) D (n / D + 1) 0); lia. }
    rewrite H1, H2. split; [lia|]. intros _. lia.
  - assert (H1 : (n + D - 1) / D = n / D + 1).
    { symmetry. apply (Z.div_unique (n + D - 1) D (n / D + 1) (n mod D - 1)); lia. }
    assert (H2 : (n + 1 + D - 1) / D = n / D + 1).
    { symmetry. apply (Z.div_unique (n + 1 + D - 1) D (n / D + 1) (n mod D)); lia. }
    rewrite H1, H2. split; [lia | contradiction].
Qed.

(** The multiples of [d] among the indices below [n]. *)
Lemma filter_multiples (d : Z) (n : nat) :
  d <> 0 ->
  filter (fun i => i mod d =? 0) (map (fun k => 0 + Z.of_nat k) (seq 0 n))
  = multiples_below d n.
Proof.
  intros Hd. unfold multiples_below.
  assert (HD : 0 < Z.abs d) by lia.
  induction n as [|n IH].
  - cbn [seq map filter]. replace ((Z.of_nat 0 + Z.abs d - 1) / Z.abs d) with 0;
      [reflexivity|].
    symmetry. apply Z.div_small. lia.
  - rewrite seq_S, map_app, filter_app, IH. cbn [map filter Nat.add].
    destruct (ceil_div_step (Z.of_nat n) (Z.abs d) ltac:(lia) HD) as [Hstep Hexact].
    replace (Z.of_nat (S n) + Z.abs d - 1) with (Z.of_nat n + 1 + Z.abs d - 1) by lia.
    rewrite Hstep. rewrite (mod_zero_abs _ d Hd).
    replace (0 + Z.of_nat n) with (Z.of_nat n) by lia.
    assert (Hq : 0 <= (Z.of_nat n + Z.abs d - 1) / Z.abs d)
      by (apply Z.div_pos; lia).
    destruct (Z.eqb_spec (Z.of_nat n mod Z.abs d) 0) as [Hz|Hnz].
    + rewrite Z2Nat.inj_add by lia. change (Z.to_nat 1) with 1%nat.
      rewrite Nat.add_1_r, seq_S, map_app. cbn [map Nat.add]. f_equal. f_equal.
      rewrite Z2Nat.id by exact Hq. symmetry. exact (Hexact Hz).
    + rewrite Z.add_0_r, List.app_nil_r. reflexivity.
Qed.

Section WithEnv.
Context {E : Env}.

Lemma kept_frame_numbers (d : Z) (stream : list image) :
  d <> 0 -> map fst (kept_frames d stream) = multiples_below d (List.length stream).
Proof.
  intros Hd. unfold kept_frames.
  rewrite (filter_map_fst (fun i => i mod d =? 0)).
  unfold numbered. rewrite numbered_indices. apply filter_multiples. exact Hd.
Qed.

(** What a run of the loop that returns leaves in the four lists. *)
Lemma sample_loop_inv (fi : Z) (fps : pynum) (stream : list image) :
  forall (start : Z) (acc s : Sampled),
    sample_loop fi fps start stream acc = Ok s ->
    (stream <> [] -> fi <> 0)
    /\ frame_numbers s
       = frame_numbers acc
         ++ map fst (filter (fun p => fst p mod fi =? 0) (numbered start stream))
    /\ (List.length (frames acc) = List.length (frame_numbers acc) ->
        List.length (frames s) = List.length (frame_numbers s))
    /\ (List.length (timestamps acc) = List.length (frame_numbers acc) ->
        List.length (timestamps s) = List.length (frame_numbers s))
    /\ (List.length (frame_images acc) = List.length (frame_numbers acc) ->
        List.length (frame_images s) = List.length (frame_numbers s)).
Proof.
  induction stream as [|frame rest IH]; intros start acc s H.
  - cbn [sample_loop] in H. injection H as <-. cbn [numbered filter map].
    rewrite List.app_nil_r. repeat split; auto.
  - cbn [sample_loop py_mod] in H.
    destruct (Z.eqb_spec fi 0) as [Hz|Hnz]; [discriminate|]. cbn [rbind] in H.
    cbn [numbered filter fst].
    destruct (start mod fi) as [|r|r] eqn:Hr; cbn [Z.eqb rbind] in H |- *.
    + destruct (py_truediv (PyInt start) fps) as [t|e]; [|discriminate].
      cbn [rbind] in H. destruct (IH _ _ _ H) as (_ & Hn & Hf & Ht & Hi).
      cbn [frames timestamps frame_images frame_numbers] in Hn, Hf, Ht, Hi.
      split; [intros _; exact Hnz|]. split.
      * rewrite Hn, <- List.app_assoc. reflexivity.
      * repeat split; intros Hl; [apply Hf | apply Ht | apply Hi];
          rewrite !length_app; cbn [List.length]; lia.
    + destruct (IH _ _ _ H) as (_ & Hn & Hf & Ht & Hi).
      split; [intros _; exact Hnz|]. split; [exact Hn|]. repeat split; assumption.
    + destruct (IH _ _ _ H) as (_ & Hn & Hf & Ht & Hi).
      split; [intros _; exact Hnz|]. split; [exact Hn|]. repeat split; assumption.
Qed.

(** What [extract_frames] did when it returns. *)
Lemma extract_frames_inv (video_path : video) (sample_rate : Z) (s : Sampled)
      (info : VideoInfo) :
  extract_frames video_path sample_rate = Ok (s, info) ->
  frame_interval_of (CAP_PROP_FPS (cv2_VideoCapture video_path)) sample_rate
  = Ok (info_frame_interval info)
  /\ sample_loop (info_frame_interval info)
       (fps_or_default (CAP_PROP_FPS (cv2_VideoCapture video_path))) 0
       (readable_frames (cv2_VideoCapture video_path)) no_frames = Ok s.
Proof.
  unfold extract_frames. intros H.
  destruct (py_int_of_float _) as [total|e]; [|discriminate]. cbn [rbind] in H.
  destruct (frame_interval_of _ _) as [fi|e]; [|discriminate]. cbn [rbind] in H.
  match type of H with
  | rbind ?d _ = _ => destruct d as [duration|e]; [|discriminate]
  end.
  cbn [rbind] in H.
  destruct (sample_loop _ _ _ _ _) as [s'|e] eqn:Hloop; [|discriminate].
  cbn [rbind] in H. injection H as <- <-. cbn [info_frame_interval].
  split; [reflexivity | exact Hloop].
Qed.

(** The four lists a run of [extract_frames] returns grow together. *)
Lemma extract_frames_lengths (video_path : video) (sample_rate : Z) (s : Sampled)
      (info : VideoInfo) :
  extract_frames video_path sample_rate = Ok (s, info) ->
  List.length (frames s) = List.length (frame_numbers s)
  /\ List.length (timestamps s) = List.length (frame_numbers s)
  /\ List.length (frame_images s) = List.length (frame_numbers s).
Proof.
  intros H. destruct (extract_frames_inv _ _ _ _ H) as [_ Hloop].
  destruct (sample_loop_inv _ _ _ _ _ _ Hloop) as (_ & _ & Hf & Ht & Hi).
  split; [exact (Hf eq_refl)|]. split; [exact (Ht eq_refl) | exact (Hi eq_refl)].
Qed.

(** The frame numbers of a run of [extract_frames], in closed form. *)
Lemma extract_frames_kept (video_path : video) (sample_rate : Z) (s : Sampled)
      (info : VideoInfo) :
  extract_frames video_path sample_rate = Ok (s, info) ->
  frame_numbers s
  = multiples_below (info_frame_interval info)
      (List.length (readable_frames (cv2_VideoCapture video_path))).
Proof.
  intros H. destruct (extract_frames_inv _ _ _ _ H) as [_ Hloop].
  destruct (sample_loop_inv _ _ _ _ _ _ Hloop) as (Hne & Hn & _).
  rewrite Hn. cbn [no_frames frame_numbers app].
  destruct (readable_frames (cv2_VideoCapture video_path)) as [|frame rest] eqn:Hs.
  - cbn [numbered filter map List.length]. unfold multiples_below.
    replace ((Z.of_nat 0 + Z.abs (info_frame_interval info) - 1)
             / Z.abs (info_frame_interval info)) with 0; [reflexivity|].
    symmetry. destruct (Z.eq_dec (info_frame_interval info) 0) as [->|Hd].
    + reflexivity.
    + apply Z.div_small. lia.
  - apply (kept_frame_numbers (info_frame_interval info) (frame :: rest)).
    apply Hne. discriminate.
Qed.

(** A run of [extract_frames] that returns frames had a non-zero interval:
    with a zero interval the modulo raises at the first frame. *)
Lemma extract_frames_interval (video_path : video) (sample_rate : Z) (s : Sampled)
      (info : VideoInfo) :
  extract_frames video_path sample_rate = Ok (s, info) ->
  readable_frames (cv2_VideoCapture video_path) <> [] ->
  info_frame_interval info <> 0.
Proof.
  intros H Hread. destruct (extract_frames_inv _ _ _ _ H) as [_ Hloop].
  destruct (sample_loop_inv _ _ _ _ _ _ Hloop) as (Hne & _).
  exact (Hne Hread).
Qed.

End WithEnv.
End SamplerMore.

(* ===================================================================== *)
(** * Further facts about the subtitles and the record *)
(* ===================================================================== *)

Module PipelineMore.
Import TextFacts JsonFacts PipelineFacts.

Lemma subscript_raise_kind (obj : value) (key : str) (e : exn) :
  subscript obj key = Raise e -> exn_is KeyError e || exn_is TypeError e = true.
Proof.
  destruct obj as [| | | | | |d]; cbn [subscript]; intros H;
    try (injection H as <-; reflexivity).
  destruct (dict_get key d); [discriminate|]. injection H as <-. reflexivity.
Qed.

Lemma dict_get_set_other (k k' : str) (v : value) (d : list (str * value)) :
  k <> k' -> dict_get k (dict_set k' v d) = dict_get k d.
Proof.
  intros Hne. induction d as [|[k0 v0] d IH]; cbn [dict_set dict_get].
  - rewrite str_eqb_neq by exact Hne. reflexivity.
  - destruct (str_eqb k' k0) eqn:H0; cbn [dict_get].
    + apply str_eqb_eq in H0. subst k0. rewrite str_eqb_neq by exact Hne. reflexivity.
    + rewrite IH. reflexivity.
Qed.

Lemma dict_get_In (k : str) (v : value) (d : list (str * value)) :
  dict_get k d = Some v -> In (k, v) d.
Proof.
  induction d as [|[k0 v0] d IH]; cbn [dict_get]; [discriminate|].
  destruct (str_eqb k k0) eqn:H0.
  - apply str_eqb_eq in H0. subst k0. intros H. injection H as <-. left. reflexivity.
  - intros H. right. exact (IH H).
Qed.

Lemma dict_keys_get (k : str) (d : list (str * value)) :
  In k (dict_keys d) -> exists v, dict_get k d = Some v.
Proof.
  unfold dict_keys. induction d as [|[k0 v0] d IH]; cbn [map fst In dict_get];
    [contradiction|].
  intros H. destruct (str_eqb k k0) eqn:H0; [eexists; reflexivity|].
  destruct H as [->|H]; [rewrite str_eqb_refl in H0; discriminate | exact (IH H)].
Qed.

Lemma dict_get_missing (k : str) (d : list (str * value)) :
  ~ In k (dict_keys d) -> dict_get k d = None.
Proof.
  unfold dict_keys. induction d as [|[k0 v0] d IH]; cbn [map fst In dict_get];
    [reflexivity|].
  intros H. destruct (str_eqb k k0) eqn:H0.
  - apply str_eqb_eq in H0. subst k0. exfalso. apply H. left. reflexivity.
  - apply IH. intros Hin. apply H. right. exact Hin.
Qed.

Lemma existsb_str_false (k : str) (l : list str) :
  ~ In k l -> existsb (str_eqb k) l = false.
Proof.
  intros H. destruct (existsb (str_eqb k) l) eqn:Hex; [|reflexivity].
  apply existsb_exists in Hex. destruct Hex as (x & Hx & Heq).
  apply str_eqb_eq in Heq. subst x. contradiction.
Qed.

Section WithEnv.
Context {E : Env}.

(** The loop over the languages appends the codes it translates, in their
    order, and leaves the track of the recording in place. *)
Lemma translate_languages_order (source_language : str) (segments : list Segment)
      (languages : list (str * str)) :
  NoDup (map fst languages) ->
  forall (subtitles : list (str * value)) (w : world),
    (forall k, In k (map fst languages) -> k <> source_language ->
               ~ In k (dict_keys subtitles)) ->
    exists (result : list (str * value)) (w' : world),
      translate_languages languages source_language segments subtitles w = (result, w')
      /\ dict_keys result
         = dict_keys subtitles
           ++ filter (fun code => negb (str_eqb code source_language))
                     (map fst languages)
      /\ dict_get source_language result = dict_get source_language subtitles.
Proof.
  induction languages as [|[lang_code language_name] rest IH];
    intros Hnd subtitles w Hfresh.
  - exists subtitles, w. cbn [translate_languages map filter]. rewrite List.app_nil_r.
    split; [reflexivity|]. split; reflexivity.
  - cbn [map fst] in Hnd. inversion Hnd as [|? ? Hnotin Hnd']; subst.
    cbn [translate_languages map fst filter].
    destruct (str_eqb lang_code source_language) eqn:Heq; cbn [negb].
    + destruct (IH Hnd' subtitles w) as (result & w' & Hrun & Hkeys & Hget).
      { intros k Hk. apply Hfresh. right. exact Hk. }
      exists result, w'. split; [exact Hrun|]. split; assumption.
    + assert (Hne : lang_code <> source_language).
      { intros ->. rewrite str_eqb_refl in Heq. discriminate. }
      unfold bind at 1.
      destruct (translate_segments_spec language_name segments [] w)
        as (track & w1 & Htrack & _).
      rewrite Htrack. cbn [app].
      assert (Hset : dict_set lang_code (VList track) subtitles
                     = subtitles ++ [(lang_code, VList track)]).
      { apply dict_set_fresh. apply existsb_str_false.
        apply Hfresh; [left; reflexivity | exact Hne]. }
      destruct (IH Hnd' (dict_set lang_code (VList track) subtitles) w1)
        as (result & w' & Hrun & Hkeys & Hget).
      { intros k Hk Hks. rewrite Hset. unfold dict_keys. rewrite map_app, in_app_iff.
        cbn [map fst In]. intros [Hin|[<-|[]]].
        - exact (Hfresh k (or_intror Hk) Hks Hin).
        - contradiction. }
      exists result, w'. split; [exact Hrun|]. split.
      * rewrite Hkeys, Hset. unfold dict_keys. rewrite map_app, <- List.app_assoc.
        reflexivity.
      * rewrite Hget. apply dict_get_set_other. congruence.
Qed.

Lemma supported_codes_nodup : NoDup (map fst supported_languages).
Proof.
  cbn [supported_languages map fst].
  repeat (constructor; [cbn [In]; intros H; repeat destruct H as [H|H];
                        try discriminate H; try contradiction|]).
  constructor.
Qed.

(** The subtitles of a successful audio annotation: the detected language
    first, then the other supported languages in their order. *)
Lemma extract_audio_order (video_path : video) (w w0 w1 w2 : world)
      (audio_file : bytes) (transcript : Transcript) (source_language : str) :
  write_audiofile video_path w = (Ok audio_file, w0) ->
  transcriptions_create audio_file w0 = (Ok transcript, w1) ->
  detect_language (transcript_text transcript) w1 = (source_language, w2) ->
  exists (subtitles : list (str * value)) (w' : world),
    extract_audio_with_translations video_path w = (VDict subtitles, w')
    /\ dict_keys subtitles = source_language :: other_languages source_language
    /\ dict_get source_language subtitles
       = Some (VList (source_track (transcript_segments transcript)))
    /\ Forall (track_entry source_language (transcript_segments transcript)) subtitles.
Proof.
  intros H1 H2 H3.
  destruct (extract_audio_success _ _ _ _ _ _ _ _ H1 H2 H3)
    as (subtitles & w' & Hrun & Hall & _).
  exists subtitles, w'. split; [exact Hrun|].
  unfold extract_audio_with_translations in Hrun.
  unfold bind at 1 in Hrun. rewrite H1 in Hrun. unfold bind at 1 in Hrun.
  rewrite H2 in Hrun. unfold bind at 1 in Hrun. rewrite H3 in Hrun.
  destruct (translate_languages_order source_language (transcript_segments transcript)
              supported_languages supported_codes_nodup
              (dict_set source_language
                 (VList (map (fun segment => subtitle_entry segment (seg_text segment))
                             (transcript_segments transcript))) []) w2)
    as (result & w3 & Hloop & Hkeys & Hget).
  { intros k _ Hk. cbn [dict_set dict_keys map fst In]. intros [Heq|[]]. congruence. }
  unfold bind, ret in Hrun. rewrite Hloop in Hrun. injection Hrun as <- <-.
  split; [exact Hkeys|]. split; [|exact Hall].
  rewrite Hget. cbn [dict_set dict_get]. rewrite str_eqb_refl. reflexivity.
Qed.

(** The audio annotation always answers a dict. *)
Lemma extract_audio_returns_dict (video_path : video) (w w' : world) (audio_data : value) :
  extract_audio_with_translations video_path w = (audio_data, w') ->
  exists d : list (str * value), audio_data = VDict d.
Proof.
  intros Hrun.
  destruct (write_audiofile video_path w) as [[audio_file|e] w0] eqn:Hw.
  - destruct (transcriptions_create audio_file w0) as [[transcript|e] w1] eqn:Ht.
    + destruct (detect_language (transcript_text transcript) w1) as [source w2] eqn:Hd.
      destruct (extract_audio_success _ _ _ _ _ _ _ _ Hw Ht Hd)
        as (subtitles & w3 & Hok & _).
      rewrite Hok in Hrun. apply (f_equal fst) in Hrun. cbn [fst] in Hrun.
      exists subtitles. symmetry. exact Hrun.
    + rewrite (extract_audio_transcription_failure _ _ _ _ _ _ Hw Ht) in Hrun.
      apply (f_equal fst) in Hrun. cbn [fst] in Hrun. eexists. symmetry. exact Hrun.
  - rewrite (extract_audio_write_failure _ _ _ _ Hw) in Hrun.
    apply (f_equal fst) in Hrun. cbn [fst] in Hrun. eexists. symmetry. exact Hrun.
Qed.

End WithEnv.
End PipelineMore.

(* ===================================================================== *)
(** * Further facts about the aggregation *)
(* ===================================================================== *)

Module RecordFacts.
Import TextFacts JsonFacts ExportFacts PipelineFacts PipelineMore.

(** ** [format_timestamp] *)

Lemma no_dot_app (a b : str) : no_dot (a ++ b) = no_dot a && no_dot b.
Proof. apply forallb_app. Qed.

Lemma no_dot_cons (c : N) (s : str) : no_dot (c :: s) = negb (c =? 46)%N && no_dot s.
Proof. reflexivity. Qed.

Lemma digits_no_dot (s : str) : forallb is_digit s = true -> no_dot s = true.
Proof.
  induction s as [|c s IH]; [reflexivity|]. cbn [forallb]. rewrite no_dot_cons. intros H.
  apply andb_true_iff in H. destruct H as [Hc Hs]. rewrite (IH Hs), andb_true_r.
  unfold is_digit in Hc. apply andb_true_iff in Hc. destruct Hc as [Hc _].
  apply N.leb_le in Hc. apply negb_true_iff, N.eqb_neq. lia.
Qed.

Lemma str_of_N_no_dot (n : N) : no_dot (str_of_N n) = true.
Proof. apply digits_no_dot, str_of_uint_digits. Qed.

Lemma str_of_Z_no_dot (z : Z) : no_dot (str_of_Z z) = true.
Proof.
  destruct z as [|p|p]; cbn [str_of_Z]; try rewrite no_dot_cons; apply str_of_N_no_dot.
Qed.

Lemma format_02d_no_dot (z : Z) : no_dot (format_02d z) = true.
Proof.
  destruct z as [|p|p]; cbn [format_02d].
  - reflexivity.
  - pose proof (str_of_N_no_dot (Z.to_N (Z.pos p))) as H.
    destruct (str_of_N (Z.to_N (Z.pos p))) as [|c [|c' r]]; exact H.
  - rewrite no_dot_cons. apply (str_of_N_no_dot (N.pos p)).
Qed.

Lemma timedelta_str_no_dot (n : Z) (t : str) : timedelta_str n = Ok t -> no_dot t = true.
Proof.
  unfold timedelta_str. cbv zeta.
  destruct (Z.abs (n / 86400) >? 999999999); [discriminate|].
  intros H.
  apply (f_equal (fun r => match r with Ok x => x | Raise _ => [] end)) in H.
  cbv beta iota in H. subst t.
  rewrite !no_dot_app, str_of_Z_no_dot, !format_02d_no_dot.
  change (no_dot colon) with true. cbn [andb]. rewrite andb_true_r.
  destruct (n / 86400 =? 0); [reflexivity|].
  rewrite !no_dot_app, str_of_Z_no_dot.
  destruct (Z.abs (n / 86400) =? 1); reflexivity.
Qed.

Lemma before_dot_id (s : str) : no_dot s = true -> before_dot s = s.
Proof.
  induction s as [|c s IH]; [reflexivity|]. rewrite no_dot_cons. cbn [before_dot]. intros H.
  apply andb_true_iff in H. destruct H as [Hc Hs]. apply negb_true_iff in Hc.
  rewrite Hc. f_equal. exact (IH Hs).
Qed.

Lemma format_timestamp_float (t : float) : format_timestamp (PyFloat t) = formatted_time t.
Proof.
  unfold format_timestamp, formatted_time. cbn [to_float rbind].
  destruct (py_int_of_float t) as [n|e]; [|reflexivity]. cbn [rbind].
  destruct (timedelta_str n) as [s|e] eqn:Hs; [|reflexivity]. cbn [rbind].
  rewrite (before_dot_id s (timedelta_str_no_dot n s Hs)). reflexivity.
Qed.

(** ** The columns of the frame *)

Lemma map_result_Forall2 {A B} (f : A -> result B) (l : list A) (r : list B) :
  map_result f l = Ok r -> Forall2 (fun a b => f a = Ok b) l r.
Proof.
  revert r. induction l as [|a l IH]; intros r H; cbn [map_result] in H.
  - injection H as <-. constructor.
  - destruct (f a) as [b|e] eqn:Hb; [|discriminate]. cbn [rbind] in H.
    destruct (map_result f l) as [bs|e]; [|discriminate]. cbn [rbind] in H.
    injection H as <-. constructor; [exact Hb | exact (IH bs eq_refl)].
Qed.

Lemma map_result_ok {A B} (f : A -> result B) (l : list A) :
  Forall (fun a => exists b, f a = Ok b) l -> exists r, map_result f l = Ok r.
Proof.
  induction 1 as [|a l [b Hb] _ [r Hr]]; [eexists; reflexivity|].
  exists (b :: r). cbn [map_result]. rewrite Hb, Hr. reflexivity.
Qed.

Lemma map_result_raise {A B} (f : A -> result B) (l : list A) (a : A) (e0 : exn) :
  In a l -> f a = Raise e0 ->
  exists (a' : A) (e : exn), In a' l /\ f a' = Raise e /\ map_result f l = Raise e.
Proof.
  induction l as [|x l IH]; [contradiction|]. intros Hin Ha. cbn [map_result].
  destruct (f x) as [b|e] eqn:Hx.
  - destruct Hin as [->|Hin]; [congruence|].
    destruct (IH Hin Ha) as (a' & e & Hin' & Hf & Hm).
    exists a', e. split; [right; exact Hin'|]. split; [exact Hf|].
    cbn [rbind]. rewrite Hm. reflexivity.
  - exists x, e. split; [left; reflexivity|]. split; [exact Hx | reflexivity].
Qed.

(** The rows of the frame when the six columns have one length. *)
Lemma make_rows_columns (ns : list Z) (ts : list float) (fs : list str)
      (ds os ss : list value) :
  List.length ns = List.length ts -> List.length fs = List.length ts ->
  List.length ds = List.length ts -> List.length os = List.length ts ->
  List.length ss = List.length ts ->
  map row_frame_number (make_rows ns ts fs ds os ss) = ns
  /\ map row_timestamp (make_rows ns ts fs ds os ss) = ts
  /\ map row_formatted_time (make_rows ns ts fs ds os ss) = fs
  /\ map row_frame_description (make_rows ns ts fs ds os ss) = ds
  /\ map row_objects_detected (make_rows ns ts fs ds os ss) = os
  /\ map row_scene_type (make_rows ns ts fs ds os ss) = ss.
Proof.
  revert ns fs ds os ss. induction ts as [|t ts IH]; intros ns fs ds os ss H1 H2 H3 H4 H5.
  - destruct ns, fs, ds, os, ss; try discriminate. repeat split; reflexivity.
  - destruct ns as [|n ns], fs as [|f fs], ds as [|d ds], os as [|o os], ss as [|s ss];
      try discriminate.
    cbn [List.length] in *.
    destruct (IH ns fs ds os ss ltac:(lia) ltac:(lia) ltac:(lia) ltac:(lia) ltac:(lia))
      as (I1 & I2 & I3 & I4 & I5 & I6).
    cbn [make_rows map row_frame_number row_timestamp row_formatted_time
           row_frame_description row_objects_detected row_scene_type].
    rewrite I1, I2, I3, I4, I5, I6. repeat split; reflexivity.
Qed.

Section WithEnv.
Context {E : Env}.

(** What a frame that could be built holds. *)
Lemma build_dataframe_columns (frame_numbers : list Z) (timestamps : list float)
      (parsed_metadata : list value) (df : DataFrame) :
  build_dataframe frame_numbers timestamps parsed_metadata = Ok df ->
  map row_frame_number df = frame_numbers
  /\ map row_timestamp df = timestamps
  /\ map_result formatted_time timestamps = Ok (map row_formatted_time df)
  /\ map_result (fun m => subscript m (lit "description")) parsed_metadata
     = Ok (map row_frame_description df)
  /\ map_result (fun m => subscript m (lit "objects_detected")) parsed_metadata
     = Ok (map row_objects_detected df)
  /\ map_result (fun m => subscript m (lit "scene_type")) parsed_metadata
     = Ok (map row_scene_type df)
  /\ List.length df = List.length parsed_metadata.
Proof.
  unfold build_dataframe. intros H.
  change (fun t => rbind (py_int_of_float t) (fun n => timedelta_str n))
    with formatted_time in H.
  destruct (map_result formatted_time timestamps) as [fs|e] eqn:Hf; [|discriminate].
  cbn [rbind] in H.
  destruct (map_result (fun m => subscript m (lit "description")) parsed_metadata)
    as [ds|e] eqn:Hd; [|discriminate].
  cbn [rbind] in H.
  destruct (map_result (fun m => subscript m (lit "objects_detected")) parsed_metadata)
    as [os|e] eqn:Ho; [|discriminate].
  cbn [rbind] in H.
  destruct (map_result (fun m => subscript m (lit "scene_type")) parsed_metadata)
    as [ss|e] eqn:Hs; [|discriminate].
  cbn [rbind] in H.
  destruct ((List.length frame_numbers =? List.length timestamps)%nat
            && (List.length timestamps =? List.length parsed_metadata)%nat) eqn:Hlen;
    [|discriminate].
  apply andb_true_iff in Hlen. destruct Hlen as [H1 H2].
  apply Nat.eqb_eq in H1. apply Nat.eqb_eq in H2.
  injection H as <-.
  pose proof (map_result_length _ _ _ Hf) as Lf.
  pose proof (map_result_length _ _ _ Hd) as Ld.
  pose proof (map_result_length _ _ _ Ho) as Lo.
  pose proof (map_result_length _ _ _ Hs) as Ls.
  destruct (make_rows_columns frame_numbers timestamps fs ds os ss
              H1 Lf ltac:(lia) ltac:(lia) ltac:(lia))
    as (I1 & I2 & I3 & I4 & I5 & I6).
  rewrite I1, I2, I3, I4, I5, I6. repeat split; try reflexivity.
  rewrite <- (length_map row_timestamp), I2. exact H2.
Qed.

(** When the columns can be computed and the lengths agree, the frame is
    built. *)
Lemma build_dataframe_ok (frame_numbers : list Z) (timestamps : list float)
      (parsed_metadata : list value) (formatted : list str) :
  map_result formatted_time timestamps = Ok formatted ->
  Forall (fun m => exists d objs sc, m = frame_analysis_dict d objs sc) parsed_metadata ->
  List.length frame_numbers = List.length timestamps ->
  List.length timestamps = List.length parsed_metadata ->
  exists df, build_dataframe frame_numbers timestamps parsed_metadata = Ok df.
Proof.
  intros Hf Hall H1 H2. unfold build_dataframe.
  change (fun t => rbind (py_int_of_float t) (fun n => timedelta_str n))
    with formatted_time.
  rewrite Hf. cbn [rbind].
  assert (Hkey : forall key,
             In key [lit "description"; lit "objects_detected"; lit "scene_type"] ->
             exists r, map_result (fun m => subscript m key) parsed_metadata = Ok r).
  { intros key Hkey. apply map_result_ok. eapply Forall_impl; [|exact Hall].
    intros m (d & objs & sc & ->). cbn [In] in Hkey.
    destruct Hkey as [<-|[<-|[<-|[]]]]; eexists; reflexivity. }
  destruct (Hkey (lit "description")) as [ds ->]; [left; reflexivity|].
  destruct (Hkey (lit "objects_detected")) as [os ->]; [right; left; reflexivity|].
  destruct (Hkey (lit "scene_type")) as [ss ->]; [right; right; left; reflexivity|].
  cbn [rbind]. rewrite H1, H2, !Nat.eqb_refl. cbn [andb]. eexists; reflexivity.
Qed.

(** ** Reading the analysis back *)

Lemma frame_analysis_plain (d : str) (objs : list str) (sc : str) :
  scalar_str d = true -> forallb scalar_str objs = true -> scalar_str sc = true ->
  float_free (frame_analysis_dict d objs sc) = true.
Proof.
  intros Hd Ho Hs. unfold float_free, frame_analysis_dict.
  cbn [wf_value_with map fst snd forallb]. rewrite Hd, Hs.
  replace (forallb (wf_value_with (fun _ => false)) (map VStr objs)) with true;
    [reflexivity|].
  symmetry. rewrite forallb_forall. intros v Hv. apply in_map_iff in Hv.
  destruct Hv as (s & <- & Hin). cbn [wf_value_with].
  rewrite forallb_forall in Ho. exact (Ho s Hin).
Qed.

(** Whatever the vision call answers, the aggregation reads a dict with the
    three fields from the text [analyze_frame] returns. *)
Lemma analyze_frame_parses (frame : str) (timestamp : float) (w : world) :
  clean_outcome (fst (chat_completions_parse_frame frame timestamp w)) = true ->
  exists (d : str) (objs : list str) (sc : str),
    fst (analyze_frame frame timestamp w)
    = json_dumps true None (frame_analysis_dict d objs sc)
    /\ parse_frame_metadata (fst (analyze_frame frame timestamp w))
       = frame_analysis_dict d objs sc
    /\ match fst (chat_completions_parse_frame frame timestamp w) with
       | Ok frame_analysis =>
           d = description frame_analysis
           /\ objs = objects_detected frame_analysis
           /\ sc = scene_type frame_analysis
       | Raise _ => objs = [] /\ sc = lit "error"
       end.
Proof.
  unfold analyze_frame, bind, ret.
  destruct (chat_completions_parse_frame frame timestamp w) as [[fa|e] w'];
    cbn [fst clean_outcome]; intros Hc.
  - apply andb_true_iff in Hc. destruct Hc as [Hc Hs].
    apply andb_true_iff in Hc. destruct Hc as [Hd Ho].
    exists (description fa), (objects_detected fa), (scene_type fa).
    split; [reflexivity|]. split; [|repeat split].
    unfold parse_frame_metadata.
    rewrite json_loads_dumps_plain; [reflexivity|].
    apply frame_analysis_plain; assumption.
  - exists (if exn_is LengthFinishReasonError e
            then lit "Error: Response exceeded token limit"
            else lit "Error analyzing frame: " ++ exn_str e), [], (lit "error").
    split; [destruct (exn_is LengthFinishReasonError e); reflexivity|].
    split; [|split; reflexivity].
    assert (Hplain : float_free
                       (frame_analysis_dict
                          (if exn_is LengthFinishReasonError e
                           then lit "Error: Response exceeded token limit"
                           else lit "Error analyzing frame: " ++ exn_str e)
                          [] (lit "error")) = true).
    { apply frame_analysis_plain; try reflexivity.
      destruct (exn_is LengthFinishReasonError e); [reflexivity|].
      rewrite scalar_str_app, Hc. reflexivity. }
    unfold parse_frame_metadata.
    destruct (exn_is LengthFinishReasonError e);
      rewrite json_loads_dumps_plain by exact Hplain; reflexivity.
Qed.

Lemma analysed_parses (pairs : list (str * float)) (w w' : world) (metadata : list str) :
  analysed pairs w metadata w' ->
  (forall frame timestamp w0,
      In (frame, timestamp) pairs ->
      clean_outcome (fst (chat_completions_parse_frame frame timestamp w0)) = true) ->
  Forall (fun m => exists d objs sc, m = frame_analysis_dict d objs sc)
         (map parse_frame_metadata metadata).
Proof.
  induction 1 as [|frame timestamp rest w w1 w2 m more Hm Hrest IH]; intros Hclean;
    cbn [map]; constructor.
  - destruct (analyze_frame_parses frame timestamp w
                (Hclean frame timestamp w (or_introl eq_refl)))
      as (d & objs & sc & _ & Hp & _).
    rewrite Hm in Hp. cbn [fst] in Hp. eauto.
  - apply IH. intros f t w0 Hin. apply Hclean. right. exact Hin.
Qed.

(** ** The accessors after the aggregation *)

Lemma create_metadata_df_accessors (self : MetadataManager) (frame_metadata : list str)
      (timestamps : list float) (audio_data : value) (video_metadata : VideoInfo)
      (frame_numbers : list Z) (df : DataFrame) (duration : str) (w : world) :
  build_dataframe frame_numbers timestamps (map parse_frame_metadata frame_metadata)
  = Ok df ->
  format_duration (info_duration video_metadata) = Ok duration ->
  exists (d : list (str * value)) (w' : world),
    create_metadata_df self frame_metadata timestamps audio_data video_metadata
      frame_numbers w
    = ({| metadata_df := Some df; video_metadata := Some video_metadata;
          structured_data := Some (VDict d) |}, Ok tt, w')
    /\ get_event_data
         {| metadata_df := Some df; video_metadata := Some video_metadata;
            structured_data := Some (VDict d) |}
       = Ok (VList (map event_of_row df))
    /\ get_subtitle_languages
         {| metadata_df := Some df; video_metadata := Some video_metadata;
            structured_data := Some (VDict d) |}
       = py_keys (subtitles_of audio_data)
    /\ forall language_code : str,
         get_subtitles_for_language
           {| metadata_df := Some df; video_metadata := Some video_metadata;
              structured_data := Some (VDict d) |} language_code
         = py_get (subtitles_of audio_data) language_code (VList []).
Proof.
  intros Hdf Hdur. unfold create_metadata_df. rewrite Hdf.
  unfold build_structured_data, bind, ret.
  destruct (time_time w) as [t1 w1]. destruct (time_time w1) as [t2 w2].
  destruct (uuid4 w2) as [u1 w3]. destruct (time_time w3) as [t3 w4].
  destruct (time_time w4) as [t4 w5].
  destruct (lls_kv_id_ok t2) as [z Hz]. rewrite Hz, Hdur.
  destruct (time_time w5) as [t5 w6]. destruct (uuid4 w6) as [u2 w7].
  destruct (time_time w7) as [t6 w8].
  eexists; eexists. split; [reflexivity|].
  split; [reflexivity|]. split; [reflexivity|]. intros language_code. reflexivity.
Qed.

End WithEnv.
End RecordFacts.

(* ===================================================================== *)
(** * The creation of the assistant *)
(* ===================================================================== *)

Module AssistantFacts.
Import TextFacts JsonFacts Utf8Facts ExportFacts.

Lemma not_scalar_large (c : N) : is_scalar c = false -> (55296 <= c)%N.
Proof.
  unfold is_scalar, is_surrogate. intros H.
  destruct (N.ltb_spec c 1114112) as [Hlt|Hge]; [|lia].
  destruct (N.leb_spec 55296 c) as [Hle|Hgt]; [exact Hle|].
  cbn [andb negb] in H. discriminate H.
Qed.

(** Without [ensure_ascii] a surrogate is written as it is. *)
Lemma escape_char_not_scalar (c : N) : is_scalar c = false -> escape_char false c = [c].
Proof.
  intros H. pose proof (not_scalar_large c H) as Hc. unfold escape_char.
  repeat match goal with
         | |- context [(c =? ?n)%N] =>
             destruct (N.eqb_spec c n) as [Heq|_]; [exfalso; lia|]
         end.
  destruct (N.ltb_spec c 32) as [Hlt|_]; [exfalso; lia|]. reflexivity.
Qed.

Lemma encode_str_not_scalar (s : str) :
  scalar_str s = false -> scalar_str (encode_str false s) = false.
Proof.
  intros Hs. unfold encode_str. rewrite !scalar_str_app.
  replace (scalar_str (flat_map (escape_char false) s)) with false; [reflexivity|].
  symmetry. induction s as [|c s IH]; [discriminate Hs|].
  cbn [scalar_str forallb] in Hs. cbn [flat_map]. rewrite scalar_str_app.
  destruct (is_scalar c) eqn:Hc.
  - cbn [andb] in Hs. rewrite (IH Hs). apply andb_false_r.
  - rewrite (escape_char_not_scalar c Hc). cbn [scalar_str forallb]. rewrite Hc.
    reflexivity.
Qed.

Lemma utf8_encode_char_not_scalar (c : N) :
  is_scalar c = false -> utf8_encode_char c = None.
Proof.
  intros H. pose proof (not_scalar_large c H) as Hc. unfold utf8_encode_char.
  destruct (N.ltb_spec c 128) as [Hlt|_]; [exfalso; lia|].
  destruct (N.ltb_spec c 2048) as [Hlt|_]; [exfalso; lia|].
  unfold is_scalar in H.
  destruct (is_surrogate c); [reflexivity|].
  rewrite andb_true_r in H.
  destruct (N.ltb_spec c 65536) as [Hlt|_].
  - exfalso. apply N.ltb_ge in H. lia.
  - rewrite H. reflexivity.
Qed.

(** Text with a lone surrogate cannot be encoded. *)
Lemma utf8_encode_not_scalar (s : str) :
  scalar_str s = false ->
  utf8_encode s
  = Raise (Exn UnicodeEncodeError
             (lit "'utf-8' codec can't encode character: surrogates not allowed")).
Proof.
  intros H. assert (Hn : utf8_encode_N s = None).
  { induction s as [|c s IH]; [discriminate H|].
    cbn [scalar_str forallb] in H. cbn [utf8_encode_N].
    destruct (is_scalar c) eqn:Hc.
    - cbn [andb] in H. rewrite (IH H). destruct (utf8_encode_char c); reflexivity.
    - rewrite (utf8_encode_char_not_scalar c Hc). reflexivity. }
  unfold utf8_encode. rewrite Hn. reflexivity.
Qed.

Lemma dict_get_clean (k : str) (d : list (str * value)) (v : value) :
  dict_get k d = Some v -> strings_clean v = false -> strings_clean (VDict d) = false.
Proof.
  intros Hget Hv. cbn [strings_clean].
  induction d as [|[k' x] d IH]; [discriminate Hget|].
  cbn [dict_get] in Hget. cbn [forallb fst snd].
  destruct (str_eqb k k').
  - apply (f_equal (fun o => match o with Some y => y | None => v end)) in Hget.
    cbv beta iota in Hget. subst x. rewrite Hv. apply andb_false_intro1.
    apply andb_false_r.
  - rewrite (IH Hget). apply andb_false_r.
Qed.

Lemma subscript_clean (obj v : value) (key : str) :
  subscript obj key = Ok v -> strings_clean v = false -> strings_clean obj = false.
Proof.
  intros Hs Hv. destruct obj; try discriminate Hs. cbn [subscript] in Hs.
  destruct (dict_get key d) as [x|] eqn:Hget; [|discriminate Hs].
  apply (f_equal (fun r => match r with Ok y => y | Raise _ => v end)) in Hs.
  cbv beta iota in Hs. subst x. exact (dict_get_clean key d v Hget Hv).
Qed.

Section WithEnv.
Context {E : Env}.

(** Without [ensure_ascii], a lone surrogate of the value is in the text
    of [json.dumps]. *)
Lemma encode_not_scalar (v : value) :
  forall (indent : option nat) (level : nat),
    strings_clean v = false -> scalar_str (encode false indent level v) = false.
Proof.
  induction v using value_rect'; intros indent level Hv; try discriminate Hv.
  - apply encode_str_not_scalar. exact Hv.
  - destruct l as [|x xs]; [discriminate Hv|]. rewrite encode_list_cons.
    cbn [strings_clean forallb] in Hv. inversion H as [|? ? Hx Hxs]; subst.
    change (91%N :: ?s) with ([91%N] ++ s). rewrite !scalar_str_app.
    destruct (strings_clean x) eqn:Hcx.
    + cbn [andb] in Hv.
      replace (scalar_str (encode_items false indent level xs)) with false;
        [rewrite !andb_false_r; try reflexivity; rewrite ?andb_false_l; reflexivity|].
      symmetry. clear Hx Hcx H. induction xs as [|y ys IH]; [discriminate Hv|].
      rewrite encode_items_cons, !scalar_str_app. cbn [forallb] in Hv.
      inversion Hxs as [|? ? Hy Hys]; subst.
      destruct (strings_clean y) eqn:Hcy.
      * cbn [andb] in Hv. rewrite (IH Hv Hys). rewrite !andb_false_r. reflexivity.
      * rewrite (Hy indent (S level) eq_refl). rewrite !andb_false_r.
        rewrite ?andb_false_l. reflexivity.
    + rewrite (Hx indent (S level) eq_refl). rewrite !andb_false_r.
      rewrite ?andb_false_l. reflexivity.
  - destruct d as [|[k x] kvs]; [discriminate Hv|]. rewrite encode_dict_cons.
    cbn [strings_clean forallb fst snd] in Hv. inversion H as [|? ? Hx Hxs]; subst.
    cbn [snd] in Hx.
    change (123%N :: ?s) with ([123%N] ++ s). rewrite !scalar_str_app.
    destruct (scalar_str k) eqn:Hk.
    2:{ rewrite (encode_str_not_scalar k Hk). rewrite !andb_false_r.
        rewrite ?andb_false_l. reflexivity. }
    destruct (strings_clean x) eqn:Hcx.
    2:{ rewrite (Hx indent (S level) eq_refl). rewrite !andb_false_r.
        rewrite ?andb_false_l. reflexivity. }
    cbn [andb] in Hv.
    replace (scalar_str (encode_pairs false indent level kvs)) with false;
      [rewrite !andb_false_r; try reflexivity; rewrite ?andb_false_l; reflexivity|].
    symmetry. clear Hx Hcx H Hk. induction kvs as [|[k' y] ys IH]; [discriminate Hv|].
    rewrite encode_pairs_cons, !scalar_str_app. cbn [forallb fst snd] in Hv.
    inversion Hxs as [|? ? Hy Hys]; subst. cbn [snd] in Hy.
    destruct (scalar_str k') eqn:Hk'.
    2:{ rewrite (encode_str_not_scalar k' Hk'). rewrite !andb_false_r.
        rewrite ?andb_false_l. reflexivity. }
    destruct (strings_clean y) eqn:Hcy.
    + cbn [andb] in Hv. rewrite (IH Hv Hys). rewrite !andb_false_r. reflexivity.
    + rewrite (Hy indent (S level) eq_refl). rewrite !andb_false_r.
      rewrite ?andb_false_l. reflexivity.
Qed.

(** A value with a lone surrogate stops [create_assistant_with_results] in
    its [finally] block, after the temporary file was created and closed at
    most. *)
Lemma create_assistant_not_clean (self : VideoProcessor) (json_data : value) (w : world) :
  strings_clean json_data = false ->
  create_assistant_with_results self json_data w
  = (self, Raise unbound_tmp_file_path,
     match NamedTemporaryFile w with
     | (Ok tmp_file_path, w1) => snd (file_close tmp_file_path w1)
     | (Raise _, w1) => w1
     end).
Proof.
  intros Hv. unfold create_assistant_with_results. unfold bind at 1.
  destruct (NamedTemporaryFile w) as [[tmp_file_path|e] w1]; [|reflexivity].
  unfold json_dumps.
  rewrite (utf8_encode_not_scalar _ (encode_not_scalar json_data (Some 2%nat) 0 Hv)).
  unfold bind, ret. destruct (file_close tmp_file_path w1) as [closed w2]. reflexivity.
Qed.

(** How [create_assistant_with_results] can end. *)
Lemma remove_temporary_file_cases (self : VideoProcessor) (tmp_file_path : str)
      (returned : option str) (w : world) :
  exists (outcome : result (option str)) (w' : world),
    remove_temporary_file self tmp_file_path returned w = (self, outcome, w')
    /\ (outcome = Ok returned
        \/ exists (e : exn) (w1 : world),
             outcome = Raise e /\ os_unlink tmp_file_path w1 = (Raise e, w')).
Proof.
  unfold remove_temporary_file, bind, ret.
  destruct (os_path_exists tmp_file_path w) as [[|] w1].
  - destruct (os_unlink tmp_file_path w1) as [[u|e] w2] eqn:Hu.
    + eexists; eexists. split; [reflexivity|]. left. reflexivity.
    + eexists; eexists. split; [reflexivity|]. right. exists e, w1. split; [reflexivity|].
      exact Hu.
  - eexists; eexists. split; [reflexivity|]. left. reflexivity.
Qed.

End WithEnv.
End AssistantFacts.

(* ===================================================================== *)
(** * Further properties of the code *)
(* ===================================================================== *)

Section Further.
Context {E : Env}.
Import F64Facts TextFacts JsonFacts ExportFacts SamplerFacts PipelineFacts
       SamplerMore PipelineMore RecordFacts AssistantFacts.

(** X1.  The four lists [extract_frames] returns have one length: an
    encoded frame, a timestamp, an image and a frame number per kept
    frame. *)
Theorem sampled_lists_same_length (video_path : video) (sample_rate : Z) (s : Sampled)
        (info : VideoInfo) :
  extract_frames video_path sample_rate = Ok (s, info) ->
  List.length (frames s) = List.length (frame_numbers s)
  /\ List.length (timestamps s) = List.length (frame_numbers s)
  /\ List.length (frame_images s) = List.length (frame_numbers s).
Proof.
  intros H. exact (extract_frames_lengths _ _ _ _ H).
Qed.

(** X2.  The frame numbers [extract_frames] returns are [0], [|d|],
    [2 |d|], ... below the number of frames read, where [d] is the interval
    it reports: the first frame is always kept and two kept frames in a row
    are [|d|] apart. *)
Theorem sampled_frame_numbers (video_path : video) (sample_rate : Z) (s : Sampled)
        (info : VideoInfo) :
  extract_frames video_path sample_rate = Ok (s, info) ->
  frame_numbers s
  = multiples_below (info_frame_interval info)
      (List.length (readable_frames (cv2_VideoCapture video_path))).
Proof.
  intros H. exact (extract_frames_kept _ _ _ _ H).
Qed.

(** X3.  On a video that cannot be opened or has no frame, [extract_frames]
    returns four empty lists and the metadata, also when the interval is
    zero: the modulo is never evaluated. *)
Theorem unreadable_video_gives_no_frames (video_path : video) (sample_rate interval : Z) :
  readable_frames (cv2_VideoCapture video_path) = [] ->
  F64.mag 1023 (CAP_PROP_FRAME_COUNT (cv2_VideoCapture video_path)) ->
  frame_interval_of (CAP_PROP_FPS (cv2_VideoCapture video_path)) sample_rate
  = Ok interval ->
  exists info : VideoInfo,
    extract_frames video_path sample_rate = Ok (no_frames, info)
    /\ info_frame_interval info = interval
    /\ info_fps info = CAP_PROP_FPS (cv2_VideoCapture video_path).
Proof.
  intros Hread Hcount Hint. unfold extract_frames.
  destruct (frame_count_ok _ Hcount) as (total & Htotal & Hdig).
  rewrite Htotal, Hint. cbn [rbind].
  destruct (duration_ok (CAP_PROP_FPS (cv2_VideoCapture video_path)) total Hdig)
    as [duration Hdur].
  rewrite Hdur. cbn [rbind]. rewrite Hread. cbn [sample_loop rbind].
  eexists. split; [reflexivity|]. split; reflexivity.
Qed.

(** X4.  When the vision call succeeds and its text holds no lone
    surrogate, the aggregation reads from the text [analyze_frame] returns
    the description, the objects and the scene type the call answered. *)
Theorem analysis_round_trip (frame : str) (timestamp : float) (w w' : world)
        (frame_analysis : FrameAnalysis) :
  chat_completions_parse_frame frame timestamp w = (Ok frame_analysis, w') ->
  clean_outcome (Ok frame_analysis) = true ->
  exists text : str,
    analyze_frame frame timestamp w = (text, w')
    /\ parse_frame_metadata text
       = VDict [(lit "description", VStr (description frame_analysis));
                (lit "objects_detected",
                 VList (map VStr (objects_detected frame_analysis)));
                (lit "scene_type", VStr (scene_type frame_analysis))].
Proof.
  intros Hcall Hclean.
  pose proof (analyze_frame_parses frame timestamp w) as Hp.
  rewrite Hcall in Hp. cbn [fst] in Hp.
  destruct (Hp Hclean) as (d & objs & sc & Htext & Hparse & -> & -> & ->).
  exists (fst (analyze_frame frame timestamp w)). split; [|exact Hparse].
  unfold analyze_frame, bind, ret. rewrite Hcall. reflexivity.
Qed.



(** X7.  [get_event_data] never raises: in every state of the manager it
    returns a value, and the empty list before any record exists. *)
Theorem get_event_data_never_raises (self : MetadataManager) :
  exists events : value,
    get_event_data self = Ok events
    /\ (structured_data self = None -> events = VList []).
Proof.
  unfold get_event_data, get_structured_output.
  destruct (structured_data self) as [record|].
  - match goal with
    | |- context [match ?c with Ok _ => _ | Raise _ => _ end] =>
        assert (Hkind : forall e, c = Raise e ->
                                  exn_is KeyError e || exn_is TypeError e = true);
        [|destruct c as [events|e]]
    end.
    + intros e.
      destruct (subscript record (lit "source")) as [source|e1] eqn:H1;
        [|cbn [rbind]; intros H; injection H as <-;
          exact (subscript_raise_kind _ _ _ H1)].
      cbn [rbind].
      destruct (subscript source (lit "tracks")) as [tracks|e2] eqn:H2;
        [|cbn [rbind]; intros H; injection H as <-;
          exact (subscript_raise_kind _ _ _ H2)].
      cbn [rbind].
      destruct (subscript tracks (lit "caption")) as [caption|e3] eqn:H3;
        [|cbn [rbind]; intros H; injection H as <-;
          exact (subscript_raise_kind _ _ _ H3)].
      cbn [rbind]. intros H. exact (subscript_raise_kind _ _ _ H).
    + exists events. split; [reflexivity | discriminate].
    + rewrite (Hkind e eq_refl). exists (VList []). split; [reflexivity | discriminate].
  - exists (VList []). split; reflexivity.
Qed.

(** X8.  After an aggregation that completes, [get_event_data] returns one
    event per timestamp, in order, each starting and ending at its
    timestamp. *)
Theorem events_after_aggregation (self : MetadataManager) (frame_metadata : list str)
        (timestamps : list float) (audio_data : value) (video_metadata : VideoInfo)
        (frame_numbers : list Z) (self' : MetadataManager) (w w' : world) :
  create_metadata_df self frame_metadata timestamps audio_data video_metadata
    frame_numbers w = (self', Ok tt, w') ->
  exists events : list value,
    get_event_data self' = Ok (VList events)
    /\ Forall2 event_at timestamps events.
Proof.
  intros Hrun.
  destruct (build_dataframe frame_numbers timestamps
              (map parse_frame_metadata frame_metadata)) as [df|e] eqn:Hdf.
  2:{ unfold create_metadata_df in Hrun. rewrite Hdf in Hrun. unfold ret in Hrun.
      discriminate Hrun. }
  destruct (format_duration (info_duration video_metadata)) as [duration|e] eqn:Hdur.
  2:{ unfold create_metadata_df in Hrun. rewrite Hdf in Hrun.
      unfold build_structured_data, bind, ret in Hrun.
      destruct (time_time w) as [t1 w1]. destruct (time_time w1) as [t2 w2].
      destruct (uuid4 w2) as [u1 w3]. destruct (time_time w3) as [t3 w4].
      destruct (time_time w4) as [t4 w5]. rewrite Hdur in Hrun.
      destruct (py_int_of_str (last_chars 8 (str_of_Z t2))); discriminate Hrun. }
  destruct (create_metadata_df_accessors self frame_metadata timestamps audio_data
              video_metadata frame_numbers df duration w Hdf Hdur)
    as (d & w'' & Hc & Hev & _).
  rewrite Hc in Hrun. injection Hrun as <- _.
  exists (map event_of_row df). split; [exact Hev|].
  rewrite <- (build_dataframe_timestamps _ _ _ _ Hdf). clear.
  induction df as [|row df IH]; cbn [map]; constructor; [split; reflexivity | exact IH].
Qed.


(** X10.  After a failed audio annotation and an aggregation that
    completes, [get_subtitle_languages] lists the single entry [error], and
    [get_subtitles_for_language] returns for it the text of the error, a
    string and not a list of entries. *)
Theorem subtitle_accessors_after_failure (self self' : MetadataManager)
        (frame_metadata : list str) (timestamps : list float)
        (video_metadata : VideoInfo) (frame_numbers : list Z) (e : exn)
        (w w' : world) :
  create_metadata_df self frame_metadata timestamps
    (VDict [(lit "error", VStr (exn_str e))]) video_metadata frame_numbers w
  = (self', Ok tt, w') ->
  get_subtitle_languages self' = Ok [lit "error"]
  /\ get_subtitles_for_language self' (lit "error") = Ok (VStr (exn_str e))
  /\ (forall code : str,
        code <> lit "error" -> get_subtitles_for_language self' code = Ok (VList [])).
Proof.
  intros Hrun.
  destruct (build_dataframe frame_numbers timestamps
              (map parse_frame_metadata frame_metadata)) as [df|e0] eqn:Hdf.
  2:{ unfold create_metadata_df in Hrun. rewrite Hdf in Hrun. unfold ret in Hrun.
      discriminate Hrun. }
  destruct (format_duration (info_duration video_metadata)) as [duration|e0] eqn:Hdur.
  2:{ unfold create_metadata_df in Hrun. rewrite Hdf in Hrun.
      unfold build_structured_data, bind, ret in Hrun.
      destruct (time_time w) as [t1 v1]. destruct (time_time v1) as [t2 v2].
      destruct (uuid4 v2) as [u1 v3]. destruct (time_time v3) as [t3 v4].
      destruct (time_time v4) as [t4 v5]. rewrite Hdur in Hrun.
      destruct (py_int_of_str (last_chars 8 (str_of_Z t2))); discriminate Hrun. }
  destruct (create_metadata_df_accessors self frame_metadata timestamps
              (VDict [(lit "error", VStr (exn_str e))])
              video_metadata frame_numbers df duration w Hdf Hdur)
    as (d & w'' & Hc & _ & Hlang & Hget).
  rewrite Hc in Hrun. injection Hrun as <- _.
  split; [rewrite Hlang; reflexivity|]. split; [rewrite Hget; reflexivity|].
  intros code Hne. rewrite Hget. cbn [subtitles_of py_get dict_get].
  rewrite (str_eqb_neq code (lit "error") Hne). reflexivity.
Qed.

(** X11.  [format_timestamp] of the timestamp of a row is the text of the
    column [formatted_time] of that row: the split at the full stop removes
    nothing. *)
Theorem format_timestamp_matches_column (frame_numbers : list Z)
        (timestamps : list float) (parsed_metadata : list value) (df : DataFrame) :
  build_dataframe frame_numbers timestamps parsed_metadata = Ok df ->
  Forall (fun row =>
            format_timestamp (PyFloat (row_timestamp row)) = Ok (row_formatted_time row))
         df.
Proof.
  intros Hdf.
  destruct (build_dataframe_columns _ _ _ _ Hdf) as (_ & Hts & Hfmt & _).
  rewrite <- Hts in Hfmt. apply map_result_Forall2 in Hfmt.
  clear - Hfmt. induction df as [|row df IH]; constructor.
  - inversion Hfmt as [|? ? ? ? Hrow _]; subst.
    rewrite format_timestamp_float. exact Hrow.
  - apply IH. inversion Hfmt; subst. assumption.
Qed.

(** X12.  A metadata text that is valid JSON but not an object is not
    replaced by the fallback entry: the aggregation raises a [KeyError] or
    a [TypeError], and leaves the frame and the record as they were while
    the video metadata is already overwritten. *)
Theorem non_object_metadata_breaks_aggregation (self : MetadataManager)
        (frame_metadata : list str) (timestamps : list float) (audio_data : value)
        (video_metadata : VideoInfo) (frame_numbers : list Z) (formatted : list str)
        (text : str) (parsed : value) (w : world) :
  map_result formatted_time timestamps = Ok formatted ->
  In text frame_metadata ->
  json_loads text = Some parsed ->
  match parsed with VDict _ => False | _ => True end ->
  exists e : exn,
    exn_is KeyError e || exn_is TypeError e = true
    /\ create_metadata_df self frame_metadata timestamps audio_data video_metadata
         frame_numbers w
       = ({| metadata_df := metadata_df self; video_metadata := Some video_metadata;
             structured_data := structured_data self |}, Raise e, w).
Proof.
  intros Hfmt Hin Hparse Hshape.
  assert (Hbad : exists e0,
             subscript (parse_frame_metadata text) (lit "description") = Raise e0).
  { unfold parse_frame_metadata. rewrite Hparse.
    destruct parsed; try contradiction; eexists; reflexivity. }
  destruct Hbad as [e0 Hbad].
  destruct (map_result_raise (fun m => subscript m (lit "description"))
              (map parse_frame_metadata frame_metadata) (parse_frame_metadata text) e0
              (in_map _ _ _ Hin) Hbad) as (m & e & _ & Hm & Hraise).
  exists e. split; [exact (subscript_raise_kind _ _ _ Hm)|].
  unfold create_metadata_df, build_dataframe.
  change (fun t => rbind (py_int_of_float t) (fun n => timedelta_str n))
    with formatted_time.
  rewrite Hfmt. cbn [rbind]. rewrite Hraise. reflexivity.
Qed.

(** X13.  The rows of the frame follow the inputs: row [i] holds frame
    number [i], timestamp [i] and the three fields of metadata [i], and
    there are as many rows as metadata texts. *)
Theorem dataframe_rows_follow_inputs (frame_numbers : list Z) (timestamps : list float)
        (frame_metadata : list str) (df : DataFrame) :
  build_dataframe frame_numbers timestamps (map parse_frame_metadata frame_metadata)
  = Ok df ->
  map row_frame_number df = frame_numbers
  /\ map row_timestamp df = timestamps
  /\ Forall2 (fun text row =>
                subscript (parse_frame_metadata text) (lit "description")
                = Ok (row_frame_description row)
                /\ subscript (parse_frame_metadata text) (lit "objects_detected")
                   = Ok (row_objects_detected row)
                /\ subscript (parse_frame_metadata text) (lit "scene_type")
                   = Ok (row_scene_type row))
             frame_metadata df.
Proof.
  intros Hdf.
  destruct (build_dataframe_columns _ _ _ _ Hdf) as (Hn & Ht & _ & Hd & Ho & Hs & _).
  split; [exact Hn|]. split; [exact Ht|].
  apply map_result_Forall2 in Hd. apply map_result_Forall2 in Ho.
  apply map_result_Forall2 in Hs. clear - Hd Ho Hs.
  revert df Hd Ho Hs. induction frame_metadata as [|text rest IH]; intros df Hd Ho Hs.
  - destruct df; [constructor | inversion Hd].
  - destruct df as [|row df]; [inversion Hd|]. cbn [map] in Hd, Ho, Hs.
    inversion Hd; subst. inversion Ho; subst. inversion Hs; subst.
    constructor; [repeat split; assumption|]. apply IH; assumption.
Qed.


(** X15.  The number of frames [extract_frames] keeps, which is the number
    of vision calls of a run, is the number of frames read divided by the
    magnitude of the interval, rounded up; the interval is not zero as soon
    as one frame was read, and a clip with no frame keeps none. *)
Theorem sampled_frame_count (video_path : video) (sample_rate : Z) (s : Sampled)
        (info : VideoInfo) :
  extract_frames video_path sample_rate = Ok (s, info) ->
  (readable_frames (cv2_VideoCapture video_path) <> [] -> info_frame_interval info <> 0)
  /\ (readable_frames (cv2_VideoCapture video_path) = [] -> frames s = [])
  /\ Z.of_nat (List.length (frames s))
     = (Z.of_nat (List.length (readable_frames (cv2_VideoCapture video_path)))
        + Z.abs (info_frame_interval info) - 1)
       / Z.abs (info_frame_interval info).
Proof.
  intros H. split; [exact (extract_frames_interval _ _ _ _ H)|].
  destruct (extract_frames_lengths _ _ _ _ H) as (Hlen & _).
  pose proof (extract_frames_kept _ _ _ _ H) as Hkept.
  assert (Hcount : Z.of_nat (List.length (frames s))
                   = (Z.of_nat (List.length
                                  (readable_frames (cv2_VideoCapture video_path)))
                      + Z.abs (info_frame_interval info) - 1)
                     / Z.abs (info_frame_interval info)).
  { rewrite Hlen, Hkept. unfold multiples_below.
    rewrite length_map, length_seq.
    destruct (Z.eq_dec (info_frame_interval info) 0) as [->|Hd].
    - cbn [Z.abs]. rewrite Z.div_0_r. reflexivity.
    - apply Z2Nat.id. apply Z.div_pos; lia. }
  split; [|exact Hcount].
  intros Hread. rewrite Hread in Hcount. cbn [List.length] in Hcount.
  destruct (frames s) as [|f l]; [reflexivity|]. exfalso.
  cbn [List.length] in Hcount.
  destruct (Z.eq_dec (info_frame_interval info) 0) as [Hz|Hd].
  - rewrite Hz in Hcount. cbn [Z.abs] in Hcount. rewrite Z.div_0_r in Hcount. lia.
  - rewrite Z.div_small in Hcount by lia. lia.
Qed.

(** X16.  When a string of the data, a key or a text at any depth, holds
    a lone surrogate, [create_assistant_with_results] does not return
    [None]: the dump into the temporary file fails before [tmp_file_path]
    is assigned and the [finally] block raises [UnboundLocalError].  The
    processor keeps its assistant, and nothing is done after the file was
    created and closed: no upload, and the file is not removed. *)
Theorem lone_surrogate_stops_assistant_creation (self : VideoProcessor)
        (json_data : value) (w : world) :
  strings_clean json_data = false ->
  exn_is UnboundLocalError unbound_tmp_file_path = true
  /\ create_assistant_with_results self json_data w
     = (self, Raise unbound_tmp_file_path,
        match NamedTemporaryFile w with
        | (Ok tmp_file_path, w1) => snd (file_close tmp_file_path w1)
        | (Raise _, w1) => w1
        end).
Proof.
  intros Hv. split; [reflexivity|]. exact (create_assistant_not_clean self json_data w Hv).
Qed.


(** X18.  However [create_assistant_with_results] ends, it has set the
    assistant of the processor exactly when it has an id to return: with an
    id returned the assistant is that id, with [None] returned the processor
    is unchanged; and it raises nothing but the [UnboundLocalError] of its
    [finally] block, the processor being unchanged, or what [os.unlink]
    raised there. *)
Theorem assistant_creation_outcomes (self self' : VideoProcessor) (json_data : value)
        (outcome : result (option str)) (w w' : world) :
  create_assistant_with_results self json_data w = (self', outcome, w') ->
  match outcome with
  | Ok (Some id) => assistant self' = Some id
  | Ok None => self' = self
  | Raise e =>
      (e = unbound_tmp_file_path /\ self' = self)
      \/ exists (tmp_file_path : str) (w1 : world),
           os_unlink tmp_file_path w1 = (Raise e, w')
  end.
Proof.
  assert (Hend : forall (p : VideoProcessor) (path : str) (returned : option str)
                        (w0 : world),
             (returned = None -> p = self) ->
             (forall id, returned = Some id -> assistant p = Some id) ->
             remove_temporary_file p path returned w0 = (self', outcome, w') ->
             match outcome with
             | Ok (Some id) => assistant self' = Some id
             | Ok None => self' = self
             | Raise e =>
                 (e = unbound_tmp_file_path /\ self' = self)
                 \/ exists (tmp_file_path : str) (w1 : world),
                      os_unlink tmp_file_path w1 = (Raise e, w')
             end).
  { intros p path returned w0 Hnone Hsome Hrun.
    destruct (remove_temporary_file_cases p path returned w0)
      as (o & w1 & Heq & Hcases).
    rewrite Heq in Hrun.
    assert (Hp : p = self') by exact (f_equal (fun r => fst (fst r)) Hrun).
    assert (Ho : o = outcome) by exact (f_equal (fun r => snd (fst r)) Hrun).
    assert (Hw : w1 = w') by exact (f_equal snd Hrun).
    subst self' outcome w1.
    destruct Hcases as [->|(e & w2 & -> & Hu)].
    - destruct returned as [id|]; [exact (Hsome id eq_refl) | exact (Hnone eq_refl)].
    - right. exists path, w2. exact Hu. }
  assert (Hunbound : forall w0 : world,
             (self, @Raise (option str) unbound_tmp_file_path, w0) = (self', outcome, w') ->
             match outcome with
             | Ok (Some id) => assistant self' = Some id
             | Ok None => self' = self
             | Raise e =>
                 (e = unbound_tmp_file_path /\ self' = self)
                 \/ exists (tmp_file_path : str) (w1 : world),
                      os_unlink tmp_file_path w1 = (Raise e, w')
             end).
  { intros w0 Hrun.
    assert (Hp : self = self') by exact (f_equal (fun r => fst (fst r)) Hrun).
    assert (Ho : Raise unbound_tmp_file_path = outcome)
      by exact (f_equal (fun r => snd (fst r)) Hrun).
    subst self' outcome. left. split; reflexivity. }
  unfold create_assistant_with_results, bind, ret.
  destruct (NamedTemporaryFile w) as [[path|e0] w1]; [|apply Hunbound].
  destruct (utf8_encode (json_dumps false (Some 2%nat) json_data)) as [content|e1].
  - destruct (file_write path content w1) as [[u|e1] w2];
      destruct (file_close path w2) as [[u'|e2] w3]; try apply Hunbound.
    + destruct (files_create path w3) as [[file_id|e3] w4];
        [|apply Hend; [reflexivity | discriminate]].
      destruct (time_time w4) as [t w5].
      destruct (assistants_create _ w5) as [[id|e4] w6];
        [|apply Hend; [reflexivity | discriminate]].
      apply Hend; [discriminate|].
      intros id' Hid.
      apply (f_equal (fun o => match o with Some x => x | None => id end)) in Hid.
      cbv beta iota in Hid. subst id'. reflexivity.
    + apply Hend; [reflexivity | discriminate].
  - destruct (file_close path w1) as [closed w3]. apply Hunbound.
Qed.

End Further.

(* ===================================================================== *)
(** * The further properties on examples *)
(* ===================================================================== *)

Module FurtherExamples.
Import Demo Clips MoreClips.

Lemma scripted_clean (failing : list nat) (frame : str) (timestamp : float) (w : nat) :
  scalar_str frame = true ->
  clean_outcome (fst (@chat_completions_parse_frame (scripted failing) frame timestamp w))
  = true.
Proof.
  intros Hf. cbn [chat_completions_parse_frame scripted fst].
  destruct (existsb (Nat.eqb w) failing); cbn [clean_outcome exn_str]; [reflexivity|].
  cbn [description objects_detected scene_type forallb].
  rewrite ExportFacts.scalar_str_app, Hf. reflexivity.
Qed.

Lemma sampled_lists_same_length_witness :
  exists (s : Sampled) (info : VideoInfo),
    @extract_frames (scripted []) ntsc 2 = Ok (s, info)
    /\ List.length (frames s) = List.length (frame_numbers s)
    /\ List.length (timestamps s) = List.length (frame_numbers s)
    /\ List.length (frame_images s) = List.length (frame_numbers s).
Proof.
  destruct (@extract_frames (scripted []) ntsc 2) as [[s info]|e] eqn:Hrun.
  - exists s, info. split; [reflexivity|].
    exact (@sampled_lists_same_length (scripted []) ntsc 2 s info Hrun).
  - apply (f_equal (fun r => match r with Ok _ => true | Raise _ => false end)) in Hrun.
    vm_compute in Hrun. discriminate Hrun.
Defined.

Lemma sampled_frame_numbers_witness :
  exists (s : Sampled) (info : VideoInfo),
    @extract_frames (scripted []) ntsc 2 = Ok (s, info)
    /\ frame_numbers s = multiples_below (info_frame_interval info) 121.
Proof.
  destruct (@extract_frames (scripted []) ntsc 2) as [[s info]|e] eqn:Hrun.
  - exists s, info. split; [reflexivity|].
    exact (@sampled_frame_numbers (scripted []) ntsc 2 s info Hrun).
  - apply (f_equal (fun r => match r with Ok _ => true | Raise _ => false end)) in Hrun.
    vm_compute in Hrun. discriminate Hrun.
Defined.

Lemma unreadable_video_gives_no_frames_witness :
  exists info : VideoInfo,
    @extract_frames (scripted []) unreadable 2 = Ok (no_frames, info)
    /\ info_frame_interval info = 0
    /\ info_fps info = F64.zero.
Proof.
  apply (@unreadable_video_gives_no_frames (scripted []) unreadable 2 0).
  - reflexivity.
  - exact I.
  - vm_compute. reflexivity.
Defined.

Lemma analysis_round_trip_witness :
  exists text : str,
    @analyze_frame (scripted []) (lit "7") F64.zero 0%nat = (text, 1%nat)
    /\ @parse_frame_metadata (scripted []) text
       = VDict [(lit "description", VStr (lit "frame 7"));
                (lit "objects_detected", VList [VStr (lit "person")]);
                (lit "scene_type", VStr (lit "indoor"))].
Proof.
  apply (@analysis_round_trip (scripted []) (lit "7") F64.zero 0%nat 1%nat
           {| description := lit "frame 7"; objects_detected := [lit "person"];
              scene_type := lit "indoor" |}).
  - reflexivity.
  - reflexivity.
Defined.



Lemma events_after_aggregation_witness :
  exists (self' : MetadataManager) (events : list value),
    @create_metadata_df (scripted []) MetadataManager_init [lit "not json"; lit "{}x"]
      [F64.zero; F64.ratio 1 2] VNone short_info [0; 1] 0%nat = (self', Ok tt, 0%nat)
    /\ @get_event_data self' = Ok (VList events)
    /\ Forall2 event_at [F64.zero; F64.ratio 1 2] events.
Proof.
  edestruct (@events_after_aggregation (scripted []) MetadataManager_init
               [lit "not json"; lit "{}x"] [F64.zero; F64.ratio 1 2] VNone short_info
               [0; 1]) with (w := 0%nat) as (events & Hev & Hat).
  - vm_compute. reflexivity.
  - do 2 eexists. split; [vm_compute; reflexivity|]. split; [exact Hev | exact Hat].
Defined.


Lemma subtitle_accessors_after_failure_witness :
  exists self' : MetadataManager,
    get_subtitle_languages self' = Ok [lit "error"]
    /\ get_subtitles_for_language self' (lit "error") = Ok (VStr (lit "no audio")).
Proof.
  edestruct (@subtitle_accessors_after_failure (scripted []) MetadataManager_init)
    with (frame_metadata := @nil str) (timestamps := @nil float)
         (video_metadata := short_info) (frame_numbers := @nil Z)
         (e := Exn OtherException (lit "no audio")) (w := 0%nat)
    as (Hlang & Hget & _).
  - vm_compute. reflexivity.
  - eexists. split; [exact Hlang | exact Hget].
Defined.

Lemma format_timestamp_matches_column_witness :
  exists df : DataFrame,
    build_dataframe [0; 1] [F64.zero; F64.of_Z 3725]
      [frame_analysis_dict (lit "a") [] (lit "b");
       frame_analysis_dict (lit "c") [] (lit "d")] = Ok df
    /\ Forall (fun row =>
                 format_timestamp (PyFloat (row_timestamp row))
                 = Ok (row_formatted_time row)) df
    /\ map row_formatted_time df = [lit "0:00:00"; lit "1:02:05"].
Proof.
  eexists. split; [vm_compute; reflexivity|]. split.
  - apply (format_timestamp_matches_column [0; 1]
             [F64.zero; F64.of_Z 3725]
             [frame_analysis_dict (lit "a") [] (lit "b");
              frame_analysis_dict (lit "c") [] (lit "d")]).
    vm_compute. reflexivity.
  - vm_compute. reflexivity.
Defined.

Lemma non_object_metadata_breaks_aggregation_witness :
  exists e : exn,
    exn_is KeyError e || exn_is TypeError e = true
    /\ @create_metadata_df (scripted []) MetadataManager_init [lit "42"] [F64.zero]
         VNone short_info [0] 0%nat
       = ({| metadata_df := None; video_metadata := Some short_info;
             structured_data := None |}, Raise e, 0%nat).
Proof.
  apply (@non_object_metadata_breaks_aggregation (scripted []) MetadataManager_init
           [lit "42"] [F64.zero] VNone short_info [0] [lit "0:00:00"] (lit "42")
           (VInt 42) 0%nat).
  - vm_compute. reflexivity.
  - left. reflexivity.
  - vm_compute. reflexivity.
  - exact I.
Defined.

Lemma dataframe_rows_follow_inputs_witness :
  exists df : DataFrame,
    build_dataframe [0; 5] [F64.zero; F64.ratio 1 2]
      (map (@parse_frame_metadata (scripted [])) [lit "not json"; lit "{}x"]) = Ok df
    /\ map row_frame_number df = [0; 5]
    /\ map row_timestamp df = [F64.zero; F64.ratio 1 2].
Proof.
  edestruct (@dataframe_rows_follow_inputs (scripted []) [0; 5] [F64.zero; F64.ratio 1 2]
               [lit "not json"; lit "{}x"]) as (Hn & Ht & _).
  - vm_compute. reflexivity.
  - eexists. split; [vm_compute; reflexivity|]. split; [exact Hn | exact Ht].
Defined.


Lemma sampled_frame_count_witness :
  exists (s : Sampled) (info : VideoInfo),
    @extract_frames (scripted []) ntsc 2 = Ok (s, info)
    /\ Z.of_nat (List.length (frames s))
       = (121 + Z.abs (info_frame_interval info) - 1) / Z.abs (info_frame_interval info).
Proof.
  destruct (@extract_frames (scripted []) ntsc 2) as [[s info]|e] eqn:Hrun.
  - exists s, info. split; [reflexivity|].
    exact (proj2 (proj2 (@sampled_frame_count (scripted []) ntsc 2 s info Hrun))).
  - apply (f_equal (fun r => match r with Ok _ => true | Raise _ => false end)) in Hrun.
    vm_compute in Hrun. discriminate Hrun.
Defined.

Lemma lone_surrogate_stops_assistant_creation_witness :
  @create_assistant_with_results (scripted []) VideoProcessor_init
    (VDict [(lit "error", VStr (lit "cannot read " ++ [55357%N]))]) 0%nat
  = (VideoProcessor_init, Raise unbound_tmp_file_path, 0%nat).
Proof.
  destruct (@lone_surrogate_stops_assistant_creation (scripted []) VideoProcessor_init
              (VDict [(lit "error", VStr (lit "cannot read " ++ [55357%N]))]) 0%nat
              eq_refl) as [_ Hrun].
  exact Hrun.
Defined.


Lemma assistant_creation_outcomes_witness :
  exists (self' : VideoProcessor) (w' : nat),
    @create_assistant_with_results (scripted []) VideoProcessor_init (VDict []) 0%nat
    = (self', Ok (Some (lit "asst_1")), w')
    /\ assistant self' = Some (lit "asst_1").
Proof.
  destruct (@create_assistant_with_results (scripted []) VideoProcessor_init (VDict [])
              0%nat) as [[self' outcome] w'] eqn:Hrun.
  assert (Ho : outcome = Ok (Some (lit "asst_1"))).
  { apply (f_equal (fun r => snd (fst r))) in Hrun. cbn [fst snd] in Hrun.
    rewrite <- Hrun. vm_compute. reflexivity. }
  subst outcome. exists self', w'. split; [reflexivity|].
  exact (@assistant_creation_outcomes (scripted []) VideoProcessor_init self' (VDict [])
           (Ok (Some (lit "asst_1"))) 0%nat w' Hrun).
Defined.

End FurtherExamples.
